(** * Excel AI Agent: request interpretation and action dispatch

    A shallow embedding of the request-interpretation layer of the add-in
    (components/App.tsx, [handleSend]), of the spreadsheet executor
    (services/excel-service.ts) and of the completion service
    (services/openai-service.ts), with the properties the specification
    states about them.

    Conventions of the embedding.
    - A JavaScript string is a [string] of 8-bit characters.  Characters
      below 128 are ASCII; a character outside ASCII is held as the bytes
      of its UTF-8 encoding, which are opaque: they are neither white
      space nor word characters and have no case.
    - A JavaScript number is a binary64 float ([PrimFloat.float]); [+] is
      [PrimFloat.add], [!== 0] is the negation of [PrimFloat.eqb _ 0].
    - A cell value ([any]) is a number, a string, a boolean or [null];
      [undefined], the value of an index out of range, is [None].
    - Asynchronous code runs sequentially: an [await] is a plain bind of
      the executor monad [M], which threads the workbook, the React state
      and the trace of port calls, and raises exceptions.  An exception
      is an error object.
    - Office.js and the HTTP client are collaborators outside the
      repository: their calls are recorded and may throw as the
      environment decides.  [load] only queues a read and is no call of
      its own; the console is not part of the state. *)

From Stdlib Require Import Floats ZArith Ascii String List Bool Lia.
From stdpp Require Import base option list gmap strings.
Import ListNotations.

Local Open Scope string_scope.
Local Open Scope list_scope.

(** ** Characters and strings *)

Module Js.

Definition chars (s : string) : list ascii := list_ascii_of_string s.
Definition str (l : list ascii) : string := string_of_list_ascii l.

Definition code (c : ascii) : N := N_of_ascii c.

Definition isUpper (c : ascii) : bool := (65 <=? code c)%N && (code c <=? 90)%N.
Definition isLower (c : ascii) : bool := (97 <=? code c)%N && (code c <=? 122)%N.
Definition isDigit (c : ascii) : bool := (48 <=? code c)%N && (code c <=? 57)%N.

(** [\w] of a regular expression without the [u] flag: [[A-Za-z0-9_]]. *)
Definition isWordChar (c : ascii) : bool :=
  isUpper c || isLower c || isDigit c || (code c =? 95)%N.

(** [\s] restricted to ASCII: TAB, LF, VT, FF, CR and SPACE. *)
Definition isSpace (c : ascii) : bool :=
  ((9 <=? code c)%N && (code c <=? 13)%N) || (code c =? 32)%N.

(** Line terminators, which [.] does not match: LF and CR. *)
Definition isLineTerminator (c : ascii) : bool :=
  (code c =? 10)%N || (code c =? 13)%N.

Definition lowerChar (c : ascii) : ascii :=
  if isUpper c then ascii_of_N (code c + 32) else c.

Definition charEqb (a b : ascii) : bool := (code a =? code b)%N.

(** [s.toLowerCase()] *)
Definition toLowerCaseL (l : list ascii) : list ascii := map lowerChar l.
Definition toLowerCase (s : string) : string := str (toLowerCaseL (chars s)).

(** [s.startsWith(p)] *)
Fixpoint startsWithL (p s : list ascii) : bool :=
  match p, s with
  | [], _ => true
  | _ :: _, [] => false
  | a :: p', b :: s' => charEqb a b && startsWithL p' s'
  end.
Definition startsWith (s p : string) : bool := startsWithL (chars p) (chars s).

(** [s.includes(p)] *)
Fixpoint includesL (s p : list ascii) : bool :=
  startsWithL p s ||
  match s with
  | [] => false
  | _ :: s' => includesL s' p
  end.
Definition includes (s p : string) : bool := includesL (chars s) (chars p).

(** [s.trim()], on ASCII white space. *)
Fixpoint trimStartL (l : list ascii) : list ascii :=
  match l with
  | c :: l' => if isSpace c then trimStartL l' else l
  | [] => []
  end.
Definition trimL (l : list ascii) : list ascii :=
  rev (trimStartL (rev (trimStartL l))).
Definition trim (s : string) : string := str (trimL (chars s)).

(** [a.join(sep)] *)
Fixpoint join (sep : string) (l : list string) : string :=
  match l with
  | [] => ""
  | [x] => x
  | x :: l' => x ++ sep ++ join sep l'
  end.

(** Decimal digits of a natural number, as [String(n)] prints an integer. *)
Fixpoint digitsOfFuel (fuel : nat) (n : N) (acc : list ascii) : list ascii :=
  match fuel with
  | O => acc
  | S fuel' =>
      let acc' := ascii_of_N (48 + n mod 10) :: acc in
      if (n <? 10)%N then acc' else digitsOfFuel fuel' (n / 10) acc'
  end.
Definition nToString (n : N) : string :=
  str (digitsOfFuel (S (N.size_nat n)) n []).
Definition natToString (n : nat) : string := nToString (N.of_nat n).

(** [String.fromCharCode(n)]: the code unit [n] modulo 65536, an ASCII
    character below 128 and the bytes of its UTF-8 encoding otherwise. *)
Definition fromCharCode (n : nat) : string :=
  let u := (N.of_nat n mod 65536)%N in
  if (u <? 128)%N then str [ascii_of_N u]
  else if (u <? 2048)%N then
    str [ascii_of_N (192 + u / 64); ascii_of_N (128 + u mod 64)]
  else
    str [ascii_of_N (224 + u / 4096); ascii_of_N (128 + (u / 64) mod 64);
         ascii_of_N (128 + u mod 64)].

End Js.

(** ** Numbers

    [parseFloat] reads the longest prefix of the trimmed string that is a
    [StrDecimalLiteral] and rounds its value to the nearest binary64
    (ties to even); without such a prefix the result is NaN. *)

Module Num.

Import Js.

Definition number : Set := float.

Definition isNaN (x : number) : bool := PrimFloat.is_nan x.

Fixpoint takeDigits (l : list ascii) : list ascii * list ascii :=
  match l with
  | c :: l' =>
      if isDigit c then let '(ds, r) := takeDigits l' in (c :: ds, r) else ([], l)
  | [] => ([], [])
  end.

Definition digitsValue (ds : list ascii) : N :=
  fold_left (fun a c => (10 * a + (code c - 48))%N) ds 0%N.

Definition scanSign (l : list ascii) : bool * list ascii :=
  match l with
  | c :: t =>
      if charEqb c "-" then (true, t)
      else if charEqb c "+" then (false, t)
      else (false, l)
  | [] => (false, l)
  end.

(** An optional [ExponentPart]; an incomplete one is not consumed. *)
Definition scanExponent (l : list ascii) : Z * list ascii :=
  match l with
  | c :: t =>
      if charEqb (lowerChar c) "e" then
        let '(neg, t1) := scanSign t in
        let '(ds, t2) := takeDigits t1 in
        match ds with
        | [] => (0%Z, l)
        | _ :: _ =>
            let v := Z.of_N (digitsValue ds) in
            (if neg then (- v)%Z else v, t2)
        end
      else (0%Z, l)
  | [] => (0%Z, l)
  end.

(** A [StrUnsignedDecimalLiteral] other than [Infinity]: the decimal
    mantissa, the power of ten and the unread rest. *)
Definition scanUnsigned (l : list ascii) : option (N * Z * list ascii) :=
  let '(ip, t1) := takeDigits l in
  match t1 with
  | c :: t2 =>
      if charEqb c "." then
        let '(fp, t3) := takeDigits t2 in
        match ip, fp with
        | [], [] => None
        | _, _ =>
            let '(e, t4) := scanExponent t3 in
            Some (digitsValue (ip ++ fp), (e - Z.of_nat (length fp))%Z, t4)
        end
      else
        match ip with
        | [] => None
        | _ :: _ => let '(e, t4) := scanExponent t1 in Some (digitsValue ip, e, t4)
        end
  | [] =>
      match ip with
      | [] => None
      | _ :: _ => Some (digitsValue ip, 0%Z, [])
      end
  end.

(** The binary64 nearest to [(-1)^neg * m * 10^e]. *)
Definition ofDecimal (neg : bool) (m : N) (e : Z) : number :=
  match Z.of_N m with
  | Zpos p =>
      if (0 <=? e)%Z then
        SF2Prim (binary_round prec emax neg (Z.to_pos (Zpos p * 10 ^ e)) 0)
      else
        let q := (10 ^ (- e))%Z in
        let s := Z.max 0 (55 + Z.log2 q - Z.log2 (Zpos p)) in
        let n := (Zpos p * 2 ^ s)%Z in
        let mx := (n / q)%Z in
        let r := (n mod q)%Z in
        let loc := if (r =? 0)%Z then loc_Exact else loc_Inexact (2 * r ?= q)%Z in
        SF2Prim (binary_round_aux prec emax neg mx (- s) loc)
  | _ => SF2Prim (S754_zero neg)
  end.

Definition infinityOf (neg : bool) : number :=
  if neg then neg_infinity else infinity.

Definition Infinity_lit : list ascii := chars "Infinity".

(** [parseFloat(s)] *)
Definition parseFloat (s : string) : number :=
  let '(neg, t) := scanSign (trimStartL (chars s)) in
  if startsWithL Infinity_lit t then infinityOf neg
  else
    match scanUnsigned t with
    | Some (m, e, _) => ofDecimal neg m e
    | None => nan
    end.

Definition isHexDigit (c : ascii) : bool :=
  isDigit c || ((97 <=? code (lowerChar c))%N && (code (lowerChar c) <=? 102)%N).
Definition isOctDigit (c : ascii) : bool := (48 <=? code c)%N && (code c <=? 55)%N.
Definition isBinDigit (c : ascii) : bool := (48 <=? code c)%N && (code c <=? 49)%N.

Definition nonEmptyAll (p : ascii -> bool) (l : list ascii) : bool :=
  match l with
  | [] => false
  | _ :: _ => forallb p l
  end.

(** A [NonDecimalIntegerLiteral]: [0x], [0o] or [0b] and digits. *)
Definition isNonDecimalLiteral (l : list ascii) : bool :=
  match l with
  | z :: k :: ds =>
      charEqb z "0" &&
      (if charEqb (lowerChar k) "x" then nonEmptyAll isHexDigit ds
       else if charEqb (lowerChar k) "o" then nonEmptyAll isOctDigit ds
       else if charEqb (lowerChar k) "b" then nonEmptyAll isBinDigit ds
       else false)
  | _ => false
  end.

(** [isNaN(Number(s))] for a string [s]: the whole trimmed string has to
    be a numeric literal; the empty string converts to 0. *)
Definition stringIsNaN (s : string) : bool :=
  match trimL (chars s) with
  | [] => false
  | l =>
      if isNonDecimalLiteral l then false
      else
        let '(_, t) := scanSign l in
        if startsWithL Infinity_lit t && (length t =? length Infinity_lit)%nat then false
        else
          match scanUnsigned t with
          | Some (_, _, []) => false
          | _ => true
          end
  end.

End Num.

(** ** Regular expressions

    The patterns of [handleSend] are run by a backtracking matcher that
    follows the ECMAScript semantics on the constructs they use:
    alternatives are tried left to right, [*] is greedy and [*?] lazy, an
    iteration that consumes nothing is rejected, [\b] compares the word
    characters on both sides of the position, and a match is searched
    from the leftmost start position. *)

Module Regex.

Import Js.

Inductive regex : Type :=
| REmpty
| RChar (p : ascii -> bool)
| RSeq (r1 r2 : regex)
| RAlt (r1 r2 : regex)
| RStar (greedy : bool) (r : regex)
| RWordB
| RGroup (n : nat) (r : regex).

Record mstate : Type := MState {
  ms_prev : option ascii;        (* the character before the position *)
  ms_rest : list ascii;          (* the input from the position on *)
  ms_pos : nat;                  (* the position *)
  ms_caps : list (nat * list ascii)  (* the captures, the last one first *)
}.

Definition advance (c : ascii) (t : list ascii) (s : mstate) : mstate :=
  MState (Some c) t (S (ms_pos s)) (ms_caps s).

Definition wordBefore (s : mstate) : bool :=
  match ms_prev s with
  | Some c => isWordChar c
  | None => false
  end.

Definition wordAfter (s : mstate) : bool :=
  match ms_rest s with
  | c :: _ => isWordChar c
  | [] => false
  end.

Definition capture (n : nat) (s0 s1 : mstate) : mstate :=
  MState (ms_prev s1) (ms_rest s1) (ms_pos s1)
         ((n, take (ms_pos s1 - ms_pos s0) (ms_rest s0)) :: ms_caps s1).

Fixpoint rmatch (r : regex) (k : mstate -> option mstate) (s : mstate)
  : option mstate :=
  match r with
  | REmpty => k s
  | RChar p =>
      match ms_rest s with
      | c :: t => if p c then k (advance c t s) else None
      | [] => None
      end
  | RSeq a b => rmatch a (rmatch b k) s
  | RAlt a b =>
      match rmatch a k s with
      | Some x => Some x
      | None => rmatch b k s
      end
  | RStar g a =>
      (fix loop (fuel : nat) (s : mstate) {struct fuel} : option mstate :=
         match fuel with
         | O => k s
         | S fuel' =>
             let again :=
               rmatch a (fun s' => if (ms_pos s <? ms_pos s')%nat
                                   then loop fuel' s' else None) s in
             if g then
               match again with
               | Some x => Some x
               | None => k s
               end
             else
               match k s with
               | Some x => Some x
               | None => again
               end
         end) (S (length (ms_rest s))) s
  | RWordB => if xorb (wordBefore s) (wordAfter s) then k s else None
  | RGroup n a => rmatch a (fun s' => k (capture n s s')) s
  end.

(** The leftmost match at or after the position of [s]: its start
    position and the state at its end. *)
Fixpoint search (r : regex) (prev : option ascii) (rest : list ascii) (pos : nat)
  : option (nat * mstate) :=
  match rmatch r Some (MState prev rest pos []) with
  | Some s' => Some (pos, s')
  | None =>
      match rest with
      | c :: t => search r (Some c) t (S pos)
      | [] => None
      end
  end.

Record found : Type := Found {
  f_text : string;                (* match[0] *)
  f_groups : list (nat * list ascii)
}.

Definition group (n : nat) (f : found) : option string :=
  match List.find (fun g => (fst g =? n)%nat) (f_groups f) with
  | Some g => Some (str (snd g))
  | None => None
  end.

(** [input.match(r)] for a pattern without the [g] flag. *)
Definition exec (r : regex) (input : string) : option found :=
  match search r None (chars input) 0 with
  | Some (start, s') =>
      Some (Found (str (take (ms_pos s' - start) (drop start (chars input))))
                  (ms_caps s'))
  | None => None
  end.

(** [r.test(input)] *)
Definition test (r : regex) (input : string) : bool :=
  match search r None (chars input) 0 with
  | Some _ => true
  | None => false
  end.

(** The texts of the successive matches of a [g] pattern, as the loop
    [while ((match = r.exec(input)) !== null)] collects them; the fuel
    bounds the matches of a pattern that consumes input. *)
Fixpoint execAllFrom (fuel : nat) (r : regex) (prev : option ascii)
  (rest : list ascii) (pos : nat) : list string :=
  match fuel with
  | O => []
  | S fuel' =>
      match search r prev rest pos with
      | Some (start, s') =>
          str (take (ms_pos s' - start) (drop (start - pos) rest))
          :: execAllFrom fuel' r (ms_prev s') (ms_rest s') (ms_pos s')
      | None => []
      end
  end.

Definition execAll (r : regex) (input : string) : list string :=
  execAllFrom (S (String.length input)) r None (chars input) 0.

(** [input.split(r)] for a separator pattern without groups that
    consumes input: [piece] is the current piece, reversed. *)
Fixpoint splitFrom (fuel : nat) (r : regex) (prev : option ascii)
  (rest : list ascii) (piece : list ascii) : list string :=
  match fuel with
  | O => [str (rev piece ++ rest)]
  | S fuel' =>
      match rest with
      | [] => [str (rev piece)]
      | c :: t =>
          match rmatch r Some (MState prev rest 0 []) with
          | Some s' =>
              if (0 <? ms_pos s')%nat
              then str (rev piece) :: splitFrom fuel' r (ms_prev s') (ms_rest s') []
              else splitFrom fuel' r (Some c) t (c :: piece)
          | None => splitFrom fuel' r (Some c) t (c :: piece)
          end
      end
  end.

Definition split (r : regex) (input : string) : list string :=
  splitFrom (S (String.length input)) r None (chars input) [].

(** *** Pattern combinators *)

Definition RNever : regex := RChar (fun _ => false).

Fixpoint seqs (l : list regex) : regex :=
  match l with
  | [] => REmpty
  | [r] => r
  | r :: l' => RSeq r (seqs l')
  end.

Fixpoint alts (l : list regex) : regex :=
  match l with
  | [] => RNever
  | [r] => r
  | r :: l' => RAlt r (alts l')
  end.

(** A literal under the [i] flag. *)
Definition litI (w : string) : regex :=
  seqs (map (fun x => RChar (fun c => charEqb (lowerChar c) (lowerChar x))) (chars w)).

(** A literal, case sensitive. *)
Definition lit (w : string) : regex :=
  seqs (map (fun x => RChar (fun c => charEqb c x)) (chars w)).

(** [(w1|w2|...)] under the [i] flag, as the [n]-th group. *)
Definition wordsI (n : nat) (ws : list string) : regex :=
  RGroup n (alts (map litI ws)).

Definition dot : regex := RChar (fun c => negb (isLineTerminator c)).
Definition star (r : regex) : regex := RStar true r.
Definition lazyStar (r : regex) : regex := RStar false r.
Definition plus (r : regex) : regex := RSeq r (RStar true r).
Definition opt (r : regex) : regex := RAlt r REmpty.

End Regex.

(** ** Cell values and grids *)

Inductive scalar : Type :=
| SNum (x : float)
| SStr (s : string)
| SBool (b : bool)
| SNull.

Abbreviation grid := (list (list scalar)).

(** [typeof val], for a value read from a grid; [None] is [undefined],
    the result of an index out of range. *)
Inductive jstype : Type := TNumber | TString | TBoolean | TObject | TUndefined.

Definition typeof (v : option scalar) : jstype :=
  match v with
  | Some (SNum _) => TNumber
  | Some (SStr _) => TString
  | Some (SBool _) => TBoolean
  | Some SNull => TObject
  | None => TUndefined
  end.

(** [values[row][col]] *)
Definition at2 (values : grid) (row col : nat) : option scalar :=
  match values !! row with
  | Some r => r !! col
  | None => None
  end.

(** What the engine supplies and the embedding leaves open:
    [Number::toString] and [JSON.stringify] of a grid. *)
Class Engine : Type := {
  numberToString : float -> string;
  jsonStringify : grid -> string
}.

(** What the locale supplies: [new Date(t).toLocaleTimeString()]. *)
Class Locale : Type := {
  toLocaleTimeString : N -> string
}.

(** [String(v)] *)
Definition toStringScalar `{Engine} (v : scalar) : string :=
  match v with
  | SNum x => numberToString x
  | SStr s => s
  | SBool true => "true"
  | SBool false => "false"
  | SNull => "null"
  end.

(** [h?.toString()]: [null] has no string form. *)
Definition optToString `{Engine} (v : scalar) : option string :=
  match v with
  | SNull => None
  | _ => Some (toStringScalar v)
  end.

(** ** A1 addresses *)

Module Address.

Import Js.

(** Column letters, bijective base 26 ([A] is column 0). *)
Fixpoint lettersFuel (fuel n : nat) (acc : list ascii) : list ascii :=
  match fuel with
  | O => acc
  | S fuel' =>
      let acc' := ascii_of_nat (65 + n mod 26) :: acc in
      if (n <? 26)%nat then acc' else lettersFuel fuel' (n / 26 - 1) acc'
  end.
Definition letters (col : nat) : string := str (lettersFuel (S col) col []).

Definition cellName (row col : nat) : string := letters col ++ natToString (S row).

(** [range.address]: the sheet name, [!] and the corners. *)
Definition print (sheet : string) (row col rows cols : nat) : string :=
  sheet ++ "!" ++
  (if ((rows <=? 1) && (cols <=? 1))%nat then cellName row col
   else cellName row col ++ ":" ++ cellName (row + rows - 1) (col + cols - 1)).

Fixpoint takeLetters (l : list ascii) : list ascii * list ascii :=
  match l with
  | c :: l' =>
      if isUpper c || isLower c
      then let '(ls, r) := takeLetters l' in (c :: ls, r) else ([], l)
  | [] => ([], [])
  end.

Definition lettersValue (ls : list ascii) : nat :=
  fold_left (fun a c => 26 * a + (N.to_nat (code (lowerChar c)) - 96))%nat ls 0%nat.

(** A cell reference [<letters><digits>], with the unread rest. *)
Definition parseCell (l : list ascii) : option (nat * nat * list ascii) :=
  let '(ls, t1) := takeLetters l in
  let '(ds, t2) := Num.takeDigits t1 in
  match ls, ds with
  | _ :: _, _ :: _ =>
      let r := N.to_nat (Num.digitsValue ds) in
      if (r =? 0)%nat then None else Some (r - 1, lettersValue ls - 1, t2)%nat
  | _, _ => None
  end.

Fixpoint afterBang (l : list ascii) : option (list ascii) :=
  match l with
  | c :: l' => if charEqb c "!" then Some l' else afterBang l'
  | [] => None
  end.

(** An address as [worksheet.getRange] takes it: row, column, row count
    and column count.  A sheet qualifier is skipped. *)
Definition parse (addr : string) : option (nat * nat * nat * nat) :=
  let l := match afterBang (chars addr) with Some l' => l' | None => chars addr end in
  match parseCell l with
  | Some (r1, c1, []) => Some (r1, c1, 1, 1)%nat
  | Some (r1, c1, c :: t) =>
      if charEqb c ":" then
        match parseCell t with
        | Some (r2, c2, []) =>
            if ((r1 <=? r2) && (c1 <=? c2))%nat
            then Some (r1, c1, r2 - r1 + 1, c2 - c1 + 1)%nat else None
        | _ => None
        end
      else None
  | None => None
  end.

End Address.

(** ** The workbook, the environment and the executor monad

    The Spreadsheet Access Port (Office.js) and the HTTP client are
    outside the repository.  The embedding keeps what the code can
    observe of them: every port call is recorded in a trace and may
    throw, as the environment decides from the calls made so far; a call
    that does not throw has its effect on the workbook at once, and
    [context.sync()] is one more call that may throw.  An array assigned
    to the values, the formats or the formulas of a range must have the
    size of the range, or the assignment throws.  A sheet is held by its
    name and a range by its sheet and coordinates, in every batch alike:
    whether the runtime takes an object of one [Excel.run] in another is
    among what the environment decides when it lets a call throw.  The
    content of a message of the completion service is whatever the
    service sent, a string or not. *)

Record cell : Type := Cell {
  c_value : scalar;
  c_format : option string;
  c_formula : option string
}.

Abbreviation sheet := (gmap (nat * nat) cell).

(** An exception: [message] is [error.message] and [response_message] is
    [error.response?.data?.error?.message]; [None] is [undefined]. *)
Record error : Type := Error {
  e_message : option string;
  e_response_message : option string
}.

Inductive role : Type := User | Assistant.

(** The [content] of a message: a string, as the declared type has it,
    or what the completion service sent in its place, which the code
    takes over unchecked: [null], nothing ([undefined]), or another JSON
    value, held by its text. *)
Inductive Content : Type :=
| Text (s : string)
| Null
| Undefined
| Json (text : string).

Coercion Text : string >-> Content.
Bind Scope string_scope with Content.

Record Message : Type := Msg {
  m_role : role;
  m_content : Content
}.

Record range : Type := Range {
  rg_sheet : string;
  rg_row : nat;       (* rowIndex *)
  rg_col : nat;       (* columnIndex *)
  rg_rows : nat;      (* rowCount *)
  rg_cols : nat       (* columnCount *)
}.

(** [Excel.ChartType]: the five members that the add-in names, and the
    other members of the enumeration, each by its name. *)
Inductive ChartType : Type :=
| barClustered | line | pie | xyscatter | columnClustered
| otherChartType (name : string).

(** The body of the completion request: the role and the content of
    each message. *)
Record request : Type := Request {
  rq_model : string;
  rq_messages : list (string * Content);
  rq_authorization : string
}.

(** [response.data]: [choices] may be missing, and a choice may lack its
    message; the content of a message is whatever the service sent. *)
Record response : Type := Response {
  r_choices : option (list (option Content))
}.

Inductive netResult : Type :=
| Resolved (r : response)
| Rejected (e : error).

(** The port calls, with their arguments. *)
Inductive event : Type :=
| ERun
| ESync
| EGetSelectedRange
| EGetActiveWorksheet
| EGetRange (sheet addr : string)
| EGetCell (sheet : string) (row col : nat)
| EGetOffsetRange (rg : range) (dr dc : Z)
| ESetValues (rg : range) (v : grid)
| ESetNumberFormat (rg : range) (fmt : string)
| ESetFormulas (rg : range) (formula : string)
| ESetFont (rg : range) (bold : bool) (size : nat)
| EWorksheetsGetItem (name : string)
| EWorksheetsAdd (name : option string)
| EWorksheetsAddAt (name where_ : string) (pos : nat)
| EActivate (name : string)
| ESetSheetName (old new : string)
| EPivotTablesAdd (sheet name : string) (source dest : range)
| ERowHierarchiesAdd (i : nat)
| EColumnHierarchiesAdd (i : nat)
| EDataHierarchiesAddSum (i : nat)
| ETablesAdd (rg : range) (hasHeaders : bool)
| ESetTableName (name : string)
| EChartsAdd (kind : ChartType) (rg : range)
| ESetChartTitle (title : string)
| ESetChartPosition (a b : string)
| EPost (url : string) (rq : request).

(** [process.env.OPENAI_API_KEY] and [window.ExcelAIConfig?.apiKey]. *)
Record config : Type := Config {
  env_OPENAI_API_KEY : option string;
  global_apiKey : option string
}.

Record env : Type := Env {
  fails : list event -> option error;   (* the last call first *)
  net : request -> netResult;
  now : N;                              (* Date.now() *)
  conf : config
}.

Record workbook : Type := Workbook {
  sheets : list (string * sheet);       (* in workbook order *)
  active : string;
  selection : option (nat * nat * nat * nat)
}.

(** The React state of [App]. *)
Record ui : Type := Ui {
  messages : list Message;
  error_ : option string;
  isLoading : bool;
  input_ : string
}.

Record world : Type := World {
  w_env : env;
  w_book : workbook;
  w_ui : ui;
  w_trace : list event                  (* the last call first *)
}.

Inductive result (A : Type) : Type :=
| Ok (a : A)
| Throw (e : error).
Arguments Ok {A} a.
Arguments Throw {A} e.

Definition M (A : Type) : Type := world -> result A * world.

Definition ret {A} (a : A) : M A := fun w => (Ok a, w).

Definition bind {A B} (m : M A) (k : A -> M B) : M B :=
  fun w =>
    match m w with
    | (Ok a, w') => k a w'
    | (Throw e, w') => (Throw e, w')
    end.

Definition throw {A} (e : error) : M A := fun w => (Throw e, w).

(** [try { m } catch (e) { h e }] *)
Definition tryCatch {A} (m : M A) (h : error -> M A) : M A :=
  fun w =>
    match m w with
    | (Ok a, w') => (Ok a, w')
    | (Throw e, w') => h e w'
    end.

(** [try { m } finally { f }] *)
Definition tryFinally {A} (m : M A) (f : M unit) : M A :=
  fun w =>
    match m w with
    | (Ok a, w') =>
        match f w' with
        | (Ok _, w'') => (Ok a, w'')
        | (Throw e, w'') => (Throw e, w'')
        end
    | (Throw e, w') =>
        match f w' with
        | (Ok _, w'') => (Throw e, w'')
        | (Throw e', w'') => (Throw e', w'')
        end
    end.

Definition gets {A} (f : world -> A) : M A := fun w => (Ok (f w), w).
Definition modify (f : world -> world) : M unit := fun w => (Ok tt, f w).

Declare Scope exec_scope.
Delimit Scope exec_scope with exec.
Notation "x <- m ;; k" := (bind m (fun x => k))
  (at level 100, m at next level, right associativity) : exec_scope.
Notation "m ;; k" := (bind m (fun _ => k))
  (at level 100, right associativity) : exec_scope.
Local Open Scope exec_scope.

(** [for (const x of l) { f x }] *)
Fixpoint forEach {A} (l : list A) (f : A -> M unit) : M unit :=
  match l with
  | [] => ret tt
  | x :: l' => f x ;; forEach l' f
  end.

(** [if (c) { m }] *)
Definition when (c : bool) (m : M unit) : M unit := if c then m else ret tt.

Definition setTrace (t : list event) (w : world) : world :=
  World (w_env w) (w_book w) (w_ui w) t.
Definition setBook (b : workbook) (w : world) : world :=
  World (w_env w) b (w_ui w) (w_trace w).
Definition setUi (u : ui) (w : world) : world :=
  World (w_env w) (w_book w) u (w_trace w).

(** A port call: it is recorded, and throws when the environment says so. *)
Definition call (e : event) : M unit :=
  fun w =>
    let t := e :: w_trace w in
    match fails (w_env w) t with
    | Some err => (Throw err, setTrace t w)
    | None => (Ok tt, setTrace t w)
    end.

Definition portError (msg : string) : error := Error (Some msg) None.

(** The exception of a property read on [undefined]. *)
Definition typeError : error := Error (Some "TypeError") None.

(** ** The port

    The effect of each call on the workbook.  Assigning a grid to the
    values of a range writes the grid from the top-left cell of the
    range on; an empty cell reads as [null]. *)

Module Port.

Definition lookupSheet (name : string) (l : list (string * sheet)) : option sheet :=
  match List.find (fun p => String.eqb (fst p) name) l with
  | Some p => Some (snd p)
  | None => None
  end.

Definition updateSheet (name : string) (f : sheet -> sheet) (l : list (string * sheet))
  : list (string * sheet) :=
  map (fun p => if String.eqb (fst p) name then (fst p, f (snd p)) else p) l.

Definition sheetNames (l : list (string * sheet)) : list string := map fst l.

(** [names.includes(name)] *)
Definition includesName (names : list string) (name : string) : bool :=
  existsb (String.eqb name) names.

Definition cellValue (sh : sheet) (r c : nat) : scalar :=
  match sh !! (r, c) with
  | Some x => c_value x
  | None => SNull
  end.

Definition readRange (sh : sheet) (r c rows cols : nat) : grid :=
  map (fun i => map (fun j => cellValue sh (r + i) (c + j)) (seq 0 cols)) (seq 0 rows).

Definition formatOf (sh : sheet) (r c : nat) : option string :=
  match sh !! (r, c) with
  | Some x => c_format x
  | None => None
  end.

Definition putValue (r c : nat) (v : scalar) (sh : sheet) : sheet :=
  <[(r, c) := Cell v (formatOf sh r c) None]> sh.

Definition putFormat (r c : nat) (fmt : string) (sh : sheet) : sheet :=
  <[(r, c) := Cell (cellValue sh r c) (Some fmt)
                   (match sh !! (r, c) with Some x => c_formula x | None => None end)]> sh.

Definition putFormula (r c : nat) (f : string) (sh : sheet) : sheet :=
  <[(r, c) := Cell (cellValue sh r c) (formatOf sh r c) (Some f)]> sh.

Fixpoint writeRow (r c : nat) (row : list scalar) (sh : sheet) : sheet :=
  match row with
  | [] => sh
  | v :: row' => writeRow r (S c) row' (putValue r c v sh)
  end.

Fixpoint writeGrid (r c : nat) (g : grid) (sh : sheet) : sheet :=
  match g with
  | [] => sh
  | row :: g' => writeGrid (S r) c g' (writeRow r c row sh)
  end.

Local Open Scope exec_scope.

Definition onSheet (name : string) (f : sheet -> sheet) : M unit :=
  fun w =>
    let b := w_book w in
    match lookupSheet name (sheets b) with
    | Some _ =>
        (Ok tt, setBook (Workbook (updateSheet name f (sheets b)) (active b) (selection b)) w)
    | None => (Throw (portError "ItemNotFound"), w)
    end.

(** [Excel.run(batch)] *)
Definition run {A} (batch : M A) : M A := call ERun ;; batch.

(** [context.sync()] *)
Definition sync : M unit := call ESync.

(** [context.workbook.getSelectedRange()] *)
Definition getSelectedRange : M range :=
  call EGetSelectedRange ;;
  b <- gets w_book ;;
  match selection b with
  | Some (r, c, rows, cols) => ret (Range (active b) r c rows cols)
  | None => throw (portError "InvalidSelection")
  end.

(** [worksheets.getActiveWorksheet()] *)
Definition getActiveWorksheet : M string :=
  call EGetActiveWorksheet ;;
  gets (fun w => active (w_book w)).

(** The [values] of a loaded range. *)
Definition values (rg : range) : M grid :=
  b <- gets w_book ;;
  match lookupSheet (rg_sheet rg) (sheets b) with
  | Some sh => ret (readRange sh (rg_row rg) (rg_col rg) (rg_rows rg) (rg_cols rg))
  | None => throw (portError "ItemNotFound")
  end.

(** [range.address] *)
Definition address (rg : range) : string :=
  Address.print (rg_sheet rg) (rg_row rg) (rg_col rg) (rg_rows rg) (rg_cols rg).

(** [worksheet.getRange(addr)] *)
Definition getRange (sh addr : string) : M range :=
  call (EGetRange sh addr) ;;
  match Address.parse addr with
  | Some (r, c, rows, cols) => ret (Range sh r c rows cols)
  | None => throw (portError "InvalidArgument")
  end.

(** [worksheet.getCell(row, col)] *)
Definition getCell (sh : string) (row col : nat) : M range :=
  call (EGetCell sh row col) ;;
  ret (Range sh row col 1 1).

(** [range.getResizedRange(dr, dc)] *)
Definition getResizedRange (rg : range) (dr dc : nat) : range :=
  Range (rg_sheet rg) (rg_row rg) (rg_col rg) (rg_rows rg + dr) (rg_cols rg + dc).

(** [range.getOffsetRange(dr, dc)]: there is no range above row 0 or
    left of column 0. *)
Definition getOffsetRange (rg : range) (dr dc : Z) : M range :=
  call (EGetOffsetRange rg dr dc) ;;
  let r := (Z.of_nat (rg_row rg) + dr)%Z in
  let c := (Z.of_nat (rg_col rg) + dc)%Z in
  if ((0 <=? r) && (0 <=? c))%Z
  then ret (Range (rg_sheet rg) (Z.to_nat r) (Z.to_nat c) (rg_rows rg) (rg_cols rg))
  else throw (portError "InvalidArgument").

(** A two-dimensional array fits a range when it has as many rows as
    the range and each row as many entries as the range has columns.
    The port takes no other array for the values, the formats or the
    formulas of a range. *)
Definition fits {A} (rg : range) (g : list (list A)) : bool :=
  (length g =? rg_rows rg)%nat
  && forallb (fun row => (length row =? rg_cols rg)%nat) g.

(** [range.values = g] *)
Definition setValues (rg : range) (g : grid) : M unit :=
  call (ESetValues rg g) ;;
  if fits rg g
  then onSheet (rg_sheet rg) (writeGrid (rg_row rg) (rg_col rg) g)
  else throw (portError "InvalidArgument").

(** [range.numberFormat = [[fmt]]] *)
Definition setNumberFormat (rg : range) (fmt : string) : M unit :=
  call (ESetNumberFormat rg fmt) ;;
  if fits rg [[fmt]]
  then onSheet (rg_sheet rg) (putFormat (rg_row rg) (rg_col rg) fmt)
  else throw (portError "InvalidArgument").

(** [range.formulas = [[f]]] *)
Definition setFormulas (rg : range) (f : string) : M unit :=
  call (ESetFormulas rg f) ;;
  if fits rg [[f]]
  then onSheet (rg_sheet rg) (putFormula (rg_row rg) (rg_col rg) f)
  else throw (portError "InvalidArgument").

(** [worksheets.items.map(sheet => sheet.name)], once loaded. *)
Definition worksheetNames : M (list string) :=
  gets (fun w => sheetNames (sheets (w_book w))).

(** [worksheets.getItem(name)] *)
Definition worksheetsGetItem (name : string) : M string :=
  call (EWorksheetsGetItem name) ;;
  names <- worksheetNames ;;
  if includesName names name then ret name else throw (portError "ItemNotFound").

Definition addSheet (atFront : bool) (name : string) : M string :=
  fun w =>
    let b := w_book w in
    if includesName (sheetNames (sheets b)) name
    then (Throw (portError "ItemAlreadyExists"), w)
    else
      let l := if atFront then (name, ∅) :: sheets b else sheets b ++ [(name, ∅)] in
      (Ok name, setBook (Workbook l (active b) (selection b)) w).

(** The name given to a sheet added without one: the first free
    [Sheet<n>]. *)
Fixpoint freshNameFrom (fuel n : nat) (names : list string) : string :=
  let candidate := ("Sheet" ++ Js.natToString n)%string in
  match fuel with
  | O => candidate
  | S fuel' =>
      if includesName names candidate then freshNameFrom fuel' (S n) names else candidate
  end.

(** [worksheets.add(name)] and [worksheets.add()] *)
Definition worksheetsAdd (name : option string) : M string :=
  call (EWorksheetsAdd name) ;;
  match name with
  | Some n => addSheet false n
  | None =>
      names <- worksheetNames ;;
      addSheet false (freshNameFrom (length names) 1 names)
  end.

(** [worksheets.add(name, "Before", 0)] *)
Definition worksheetsAddAt (name where_ : string) (pos : nat) : M string :=
  call (EWorksheetsAddAt name where_ pos) ;;
  addSheet true name.

(** [sheet.activate()]: the selection of a sheet that becomes active is
    its cell A1. *)
Definition activate (name : string) : M unit :=
  call (EActivate name) ;;
  b <- gets w_book ;;
  if includesName (sheetNames (sheets b)) name then
    if String.eqb (active b) name then ret tt
    else modify (setBook (Workbook (sheets b) name (Some (0, 0, 1, 1)%nat)))
  else throw (portError "ItemNotFound").

(** [sheet.name = new] *)
Definition setSheetName (old new : string) : M unit :=
  call (ESetSheetName old new) ;;
  b <- gets w_book ;;
  if includesName (sheetNames (sheets b)) new && negb (String.eqb old new)
  then throw (portError "ItemAlreadyExists")
  else
    modify (setBook (Workbook
      (map (fun p => if String.eqb (fst p) old then (new, snd p) else p) (sheets b))
      (if String.eqb (active b) old then new else active b)
      (selection b))).

End Port.

(** ** services/excel-service.ts *)

Module ExcelService.

Import Js Num Port.
Local Open Scope exec_scope.
Local Open Scope float_scope.

Record ExcelData : Type := MkExcelData {
  ed_range : string;
  ed_values : grid;
  ed_hasHeaders : bool;
  ed_columnCount : nat;
  ed_rowCount : nat
}.

(** [for (const x of l) { acc = f acc x }] with a local accumulator. *)
Fixpoint foldM {A B} (f : B -> A -> M B) (l : list A) (b : B) : M B :=
  match l with
  | [] => ret b
  | x :: l' => b' <- f b x ;; foldM f l' b'
  end.

(** [l.findIndex(p)] for a callback that may throw; [None] is [-1]. *)
Fixpoint findIndexFrom {A} (p : A -> result bool) (l : list A) (i : nat)
  : result (option nat) :=
  match l with
  | [] => Ok None
  | x :: l' =>
      match p x with
      | Ok true => Ok (Some i)
      | Ok false => findIndexFrom p l' (S i)
      | Throw e => Throw e
      end
  end.
Definition findIndex {A} (p : A -> result bool) (l : list A) : result (option nat) :=
  findIndexFrom p l 0.

Definition lift {A} (r : result A) : M A :=
  match r with
  | Ok a => ret a
  | Throw e => throw e
  end.

(** [determineIfHasHeaders] *)
Definition determineIfHasHeaders (values : grid) : bool :=
  match values with
  | firstRow :: secondRow :: _ =>
      let counts :=
        fold_left
          (fun (acc : nat * nat) (i : nat) =>
             (match typeof (firstRow !! i) with
              | TString => S (fst acc)
              | _ => fst acc
              end,
              match typeof (secondRow !! i) with
              | TNumber => S (snd acc)
              | _ => snd acc
              end))
          (seq 0 (length firstRow)) (0, 0)%nat in
      (snd counts <? fst counts)%nat
  | _ => false
  end.

(** [extractDataFromSelection] *)
Definition extractDataFromSelection : M (option ExcelData) :=
  tryCatch
    (run (
       range <- getSelectedRange ;;
       sync ;;
       vals <- values range ;;
       let hasHeaders := determineIfHasHeaders vals in
       ret (Some (MkExcelData (address range) vals hasHeaders
                              (rg_cols range) (rg_rows range)))))
    (fun _ => ret None).

(** A string argument that is truthy: neither [undefined] nor empty. *)
Definition truthyStr (o : option string) : option string :=
  match o with
  | Some s => if (String.length s =? 0)%nat then None else Some s
  | None => None
  end.

(** [insertFormula] *)
Definition insertFormula (formula : string) (targetAddress : option string) : M bool :=
  tryCatch
    (run (
       range <-
         match truthyStr targetAddress with
         | Some a =>
             sheet <- getActiveWorksheet ;;
             getRange sheet a
         | None => getSelectedRange
         end ;;
       setFormulas range formula ;;
       sync ;;
       ret true))
    (fun _ => ret false).

(** [createChart] *)
Definition createChart (chartType : ChartType) (dataRange : string)
  (title : option string) : M bool :=
  tryCatch
    (run (
       sheet <- getActiveWorksheet ;;
       range <- getRange sheet dataRange ;;
       call (EChartsAdd chartType range) ;;
       match truthyStr title with
       | Some t => call (ESetChartTitle t)
       | None => ret tt
       end ;;
       call (ESetChartPosition "A15" "H30") ;;
       sync ;;
       ret true))
    (fun _ => ret false).

(** The sum of [calculateAndInsertSum], over every cell of every row. *)
Definition selectionSum (vals : grid) : number :=
  fold_left
    (fun (sum : number) (row : list scalar) =>
       fold_left
         (fun (sum : number) (col : nat) =>
            match row !! col with
            | Some (SNum val) => sum + val
            | Some (SStr val) =>
                let num := parseFloat val in
                if negb (isNaN num) then sum + num else sum
            | _ => sum
            end)
         (seq 0 (length row)) sum)
    vals 0.

(** [calculateAndInsertSum] *)
Definition calculateAndInsertSum (targetCell : option string) : M bool :=
  tryCatch
    (run (
       selectedRange <- getSelectedRange ;;
       sync ;;
       vals <- values selectedRange ;;
       let sum := selectionSum vals in
       worksheet <- getActiveWorksheet ;;
       targetRange <-
         match truthyStr targetCell with
         | Some a => getRange worksheet a
         | None =>
             let targetRow := (rg_row selectedRange + rg_rows selectedRange)%nat in
             let targetCol := rg_col selectedRange in
             getCell worksheet targetRow targetCol
         end ;;
       setValues targetRange [[SNum sum]] ;;
       setNumberFormat targetRange "0.00" ;;
       sync ;;
       ret true))
    (fun _ => ret false).

(** [applyFormulaToSelection] *)
Definition applyFormulaToSelection (formula : string) : M bool :=
  tryCatch
    (run (
       selectedRange <- getSelectedRange ;;
       let formula' :=
         if negb (startsWith formula "=") then ("=" ++ formula)%string else formula in
       setFormulas selectedRange formula' ;;
       sync ;;
       ret true))
    (fun _ => ret false).

(** [writeValueToCell] *)
Definition writeValueToCell `{Engine} (value : scalar) (targetCell : string) : M bool :=
  tryCatch
    (run (
       sheet <- getActiveWorksheet ;;
       range <- getRange sheet targetCell ;;
       setValues range [[value]] ;;
       when (match value with
             | SNum _ => true
             | _ => negb (isNaN (parseFloat (toStringScalar value)))
             end)
            (setNumberFormat range "0.00") ;;
       sync ;;
       ret true))
    (fun _ => ret false).

(** [colName.toLowerCase()]: only a string has the method. *)
Definition nameToLowerCase (colName : scalar) : result string :=
  match colName with
  | SStr s => Ok (toLowerCase s)
  | _ => Throw typeError
  end.

(** [h => h?.toString().toLowerCase() === colName.toLowerCase()] *)
Definition exactMatch `{Engine} (colName : scalar) (h : scalar) : result bool :=
  match nameToLowerCase colName with
  | Ok n =>
      Ok (match optToString h with
          | Some hs => String.eqb (toLowerCase hs) n
          | None => false
          end)
  | Throw e => Throw e
  end.

(** [h => h?.toString().toLowerCase().includes(colName.toLowerCase())]:
    for a [null] header the chain stops before the argument is read. *)
Definition containsMatch `{Engine} (colName : scalar) (h : scalar) : result bool :=
  match optToString h with
  | Some hs =>
      match nameToLowerCase colName with
      | Ok n => Ok (includes (toLowerCase hs) n)
      | Throw e => Throw e
      end
  | None => Ok false
  end.

(** The column of [colName] in [sumSpecificColumns]: the exact match
    first, the contains match if there is none. *)
Definition findColumn `{Engine} (headers : list scalar) (colName : scalar)
  : result (option nat) :=
  match findIndex (exactMatch colName) headers with
  | Ok (Some i) => Ok (Some i)
  | Ok None => findIndex (containsMatch colName) headers
  | Throw e => Throw e
  end.

(** The sum of a found column in [sumSpecificColumns], over the rows
    below the header row. *)
Definition namedColumnSum (vals : grid) (colIndex : nat) : number :=
  fold_left
    (fun (sum : number) (row : nat) =>
       match at2 vals row colIndex with
       | Some (SNum val) => sum + val
       | Some (SStr val) =>
           let num := parseFloat val in
           if negb (isNaN num) then sum + num else sum
       | _ => sum
       end)
    (seq 1 (length vals - 1)) 0.

(** [results[colName] = sum] adds the key [colName] to the object,
    except for the name [__proto__], whose assignment of a number is
    ignored. *)
Definition addKey (results : list scalar) (colName : scalar) : list scalar :=
  match colName with
  | SStr s => if String.eqb s "__proto__" then results else results ++ [colName]
  | _ => results ++ [colName]
  end.

(** The body of the loop of [sumSpecificColumns] for one column name;
    [results] holds the keys of the [results] object. *)
Definition sumOneColumn `{Engine} (selectedRange : range) (vals : grid)
  (headers : list scalar) (results : list scalar) (colName : scalar)
  : M (list scalar) :=
  colIndex <- lift (findColumn headers colName) ;;
  match colIndex with
  | Some colIndex =>
      let sum := namedColumnSum vals colIndex in
      let results' := addKey results colName in
      worksheet <- getActiveWorksheet ;;
      let targetRowIndex := (rg_row selectedRange + length vals)%nat in
      let targetColIndex := (rg_col selectedRange + colIndex)%nat in
      targetCell <- getCell worksheet targetRowIndex targetColIndex ;;
      setValues targetCell [[SNum sum]] ;;
      setNumberFormat targetCell "0.00" ;;
      sync ;;
      ret results'
  | None => ret results
  end.

(** [sumSpecificColumns] *)
Definition sumSpecificColumns `{Engine} (columnNames : list scalar) : M bool :=
  tryCatch
    (run (
       selectedRange <- getSelectedRange ;;
       sync ;;
       vals <- values selectedRange ;;
       if (length vals <=? 1)%nat then ret false
       else
         match vals with
         | [] => ret false
         | headers :: _ =>
             results <- foldM (sumOneColumn selectedRange vals headers) columnNames [] ;;
             sync ;;
             ret (0 <? length results)%nat
         end))
    (fun _ => ret false).

(** The sums of the columns in [sumIntoNextRow]:
    [columnSums[col] += ...] over every row. *)
Definition columnSumsOf (vals : grid) (ncols : nat) : list number :=
  map
    (fun col =>
       fold_left
         (fun (sum : number) (row : nat) =>
            match at2 vals row col with
            | Some (SNum val) => sum + val
            | Some (SStr val) =>
                let num := parseFloat val in
                if negb (isNaN num) then sum + num else sum
            | _ => sum
            end)
         (seq 0 (length vals)) 0)
    (seq 0 ncols).

(** The body of the writing loop of [sumIntoNextRow] for one column. *)
Definition writeColumnSum (selectedRange : range) (targetRow : nat)
  (col : nat) (columnSum : number) : M unit :=
  worksheet <- getActiveWorksheet ;;
  targetCell <- getCell worksheet targetRow (rg_col selectedRange + col) ;;
  when (negb (PrimFloat.eqb columnSum 0))
       (setValues targetCell [[SNum columnSum]] ;;
        setNumberFormat targetCell "0.00").

(** [sumIntoNextRow] *)
Definition sumIntoNextRow : M bool :=
  tryCatch
    (run (
       selectedRange <- getSelectedRange ;;
       sync ;;
       vals <- values selectedRange ;;
       match vals with
       | [] => throw typeError
       | row0 :: _ =>
           let columnSums := columnSumsOf vals (length row0) in
           let targetRow := (rg_row selectedRange + rg_rows selectedRange)%nat in
           forEach (imap (fun col s => (col, s)) columnSums)
                   (fun cs => writeColumnSum selectedRange targetRow (fst cs) (snd cs)) ;;
           sync ;;
           ret true
       end))
    (fun _ => ret false).

(** [testExcelConnection] *)
Definition testExcelConnection `{Locale} : M bool :=
  tryCatch
    (run (
       sheet <- getActiveWorksheet ;;
       testCell <- getRange sheet "A1" ;;
       t <- gets (fun w => now (w_env w)) ;;
       let testValue := ("Excel connection test: " ++ toLocaleTimeString t)%string in
       setValues testCell [[SStr testValue]] ;;
       sync ;;
       sync ;;
       vals <- values testCell ;;
       match vals !! 0%nat with
       | Some _ => ret true
       | None => throw typeError
       end))
    (fun _ => ret false).

(** [listAllWorksheets] *)
Definition listAllWorksheets : M (list string) :=
  tryCatch
    (run (
       sync ;;
       worksheetNames))
    (fun _ => ret []).

(** The three attempts of [createWorksheet], each the body of one of
    its nested [try] blocks; the handle of a sheet is its name. *)
Definition reuseOrAdd (existingNames : list string) (name : string) : M string :=
  if includesName existingNames name
  then worksheetsGetItem name
  else worksheetsAdd (Some name).

Definition addUnique (name : string) : M string :=
  t <- gets (fun w => now (w_env w)) ;;
  let uniqueName := (name ++ "_" ++ nToString t)%string in
  worksheetsAdd (Some uniqueName).

Definition addAtStart (name : string) : M string :=
  worksheetsAddAt name "Before" 0.

(** The end of [createWorksheet] once there is a sheet. *)
Definition activateAndSync (newSheet : string) : M (option string) :=
  activate newSheet ;;
  sync ;;
  ret (Some newSheet).

(** [createWorksheet] *)
Definition createWorksheet (name : string) : M (option string) :=
  tryCatch
    (run (
       sync ;;
       existingNames <- worksheetNames ;;
       newSheet <-
         tryCatch
           (s <- reuseOrAdd existingNames name ;; ret (Some s))
           (fun error1 =>
              tryCatch
                (s <- addUnique name ;; ret (Some s))
                (fun error2 =>
                   tryCatch
                     (s <- addAtStart name ;; ret (Some s))
                     (fun error3 => ret None))) ;;
       match newSheet with
       | None => ret None
       | Some newSheet => activateAndSync newSheet
       end))
    (fun outerError => ret None).

(** The counts of the smart defaults of [createPivotTable] for column
    [i]: the numeric and the other values among rows [1 .. sampleSize-1]. *)
Definition sampleCounts (vals : grid) (sampleSize i : nat) : nat * nat :=
  fold_left
    (fun (acc : nat * nat) (row : nat) =>
       match at2 vals row i with
       | Some (SNum _) => (S (fst acc), snd acc)
       | Some (SStr val) =>
           if negb (stringIsNaN val) then (S (fst acc), snd acc)
           else (fst acc, S (snd acc))
       | _ => (fst acc, S (snd acc))
       end)
    (seq 1 (sampleSize - 1)) (0, 0)%nat.

(** [potentialRowFields] and [potentialValueFields]. *)
Definition potentialFields (vals : grid) (headerRow : list scalar)
  : list nat * list nat :=
  let sampleSize := Nat.min 5 (length vals) in
  fold_left
    (fun (acc : list nat * list nat) (i : nat) =>
       let '(numericCount, textCount) := sampleCounts vals sampleSize i in
       if (textCount <? numericCount)%nat
       then (fst acc, snd acc ++ [i])
       else (fst acc ++ [i], snd acc))
    (seq 0 (length headerRow)) ([], []).

(** [headerRow.findIndex(h => String(h).toLowerCase() === field.toLowerCase())] *)
Definition fieldIndex `{Engine} (headerRow : list scalar) (field : string) : option nat :=
  match findIndex (fun h => Ok (String.eqb (toLowerCase (toStringScalar h))
                                           (toLowerCase field))) headerRow with
  | Ok i => i
  | Throw _ => None
  end.

(** [fields.forEach(field => ...)] of the specified fields. *)
Definition addFields `{Engine} (headerRow : option (list scalar))
  (fields : option (list string)) (add : nat -> event) : M unit :=
  match fields with
  | Some (f :: fs) =>
      match headerRow with
      | Some hr =>
          forEach (f :: fs)
                  (fun field =>
                     match fieldIndex hr field with
                     | Some columnIndex => call (add columnIndex)
                     | None => ret tt
                     end)
      | None => throw typeError
      end
  | _ => ret tt
  end.

(** The [try] block of [createPivotTable]: the construction of the pivot
    table. *)
Definition pivotConstruction `{Engine} (sourceRange : range) (vals : grid)
  (pivotSheet : string) (pivotDestination : range)
  (rowFields columnFields valueFields : option (list string)) : M bool :=
  call (EPivotTablesAdd pivotSheet "MyPivotTable" sourceRange pivotDestination) ;;
  sync ;;
  let headerRow := vals !! 0%nat in
  match rowFields, columnFields, valueFields with
  | None, None, None =>
      match headerRow with
      | None => throw typeError
      | Some hr =>
          let '(potentialRowFields, potentialValueFields) := potentialFields vals hr in
          forEach (take 2 potentialRowFields)
                  (fun fieldIndex => call (ERowHierarchiesAdd fieldIndex)) ;;
          forEach (take 3 potentialValueFields)
                  (fun fieldIndex => call (EDataHierarchiesAddSum fieldIndex))
      end
  | _, _, _ =>
      addFields headerRow rowFields ERowHierarchiesAdd ;;
      addFields headerRow columnFields EColumnHierarchiesAdd ;;
      addFields headerRow valueFields EDataHierarchiesAddSum
  end ;;
  sync ;;
  ret true.

(** The fallback of [createPivotTable]: a plain table on the new sheet. *)
Definition fallbackTable (sourceRange : range) (vals : grid) (pivotSheet : string)
  : M bool :=
  valuesRange <- getRange pivotSheet "A1" ;;
  setValues valuesRange vals ;;
  call (ETablesAdd (getResizedRange valuesRange (rg_rows sourceRange - 1)
                                    (rg_cols sourceRange - 1)) true) ;;
  call (ESetTableName "DataTable") ;;
  sync ;;
  ret true.

(** What [createPivotTable] has once the destination sheet is there. *)
Record pivotSetup : Type := PivotSetup {
  ps_sourceRange : range;
  ps_values : grid;                 (* sourceRange.values, as loaded *)
  ps_pivotSheet : string;
  ps_pivotDestination : range
}.

(** The steps of [createPivotTable] before its inner [try]: the source
    range, the destination sheet and the destination cell; [None] when
    the sheet could not be created. *)
Definition pivotPrepare (dataRange destinationSheet : string) : M (option pivotSetup) :=
  sheet <- getActiveWorksheet ;;
  sourceRange <- getRange sheet dataRange ;;
  sync ;;
  vals <- values sourceRange ;;
  pivotSheet <- createWorksheet destinationSheet ;;
  match pivotSheet with
  | None => ret None
  | Some pivotSheet =>
      sync ;;
      pivotDestination <- getRange pivotSheet "A3" ;;
      ret (Some (PivotSetup sourceRange vals pivotSheet pivotDestination))
  end.

(** [createPivotTable] *)
Definition createPivotTable `{Engine} (dataRange : string) (destinationSheet : string)
  (rowFields columnFields valueFields : option (list string)) : M bool :=
  tryCatch
    (run (
       setup <- pivotPrepare dataRange destinationSheet ;;
       match setup with
       | None => ret false
       | Some s =>
           tryCatch
             (pivotConstruction (ps_sourceRange s) (ps_values s) (ps_pivotSheet s)
                                (ps_pivotDestination s)
                                rowFields columnFields valueFields)
             (fun pivotError =>
                tryCatch
                  (fallbackTable (ps_sourceRange s) (ps_values s) (ps_pivotSheet s))
                  (fun tableError => ret false))
       end))
    (fun _ => ret false).

(** [createSimplePivotTable] *)
Definition createSimplePivotTable (dataRange : string) : M bool :=
  tryCatch
    (run (
       sourceSheet <- getActiveWorksheet ;;
       sourceRange <- getRange sourceSheet dataRange ;;
       sync ;;
       data <- values sourceRange ;;
       if (length data =? 0)%nat then ret false
       else
         pivotSheet <-
           tryCatch
             (s <- worksheetsAdd None ;;
              sync ;;
              setSheetName s "PivotData" ;;
              sync ;;
              ret (Some "PivotData"))
             (fun sheetError => ret None) ;;
         match pivotSheet with
         | None => ret false
         | Some pivotSheet =>
             tryCatch
               (targetRange <- getRange pivotSheet "A1" ;;
                setValues targetRange data ;;
                a1 <- getRange pivotSheet "A1" ;;
                titleCell <- getOffsetRange a1 (-1) 0 ;;
                setValues titleCell [[SStr "Data Summary"]] ;;
                call (ESetFont titleCell true 14) ;;
                sync ;;
                activate pivotSheet ;;
                sync ;;
                ret true)
               (fun copyError => ret false)
         end))
    (fun outerError => ret false).

(** [createSamplePivotTable] *)
Definition createSamplePivotTable `{Engine} (dataRange : string) : M bool :=
  tryCatch
    (success <- createPivotTable dataRange "PivotTable" None None None ;;
     if success then ret true
     else
       simplePivotSuccess <- createSimplePivotTable dataRange ;;
       if simplePivotSuccess then ret true else ret false)
    (fun _ => ret false).

End ExcelService.

(** ** services/openai-service.ts *)

Module OpenAIService.

Import Js Port ExcelService.
Local Open Scope exec_scope.

Definition API_URL : string := "https://api.openai.com/v1/chat/completions".

(** [getApiKey]: the environment variable, else the global
    configuration, else the empty string. *)
Definition getApiKey (c : config) : string :=
  match truthyStr (env_OPENAI_API_KEY c) with
  | Some k => k
  | None =>
      match truthyStr (global_apiKey c) with
      | Some k => k
      | None => ""
      end
  end.

Definition dq : string := String (ascii_of_nat 34) EmptyString.
Definition nl : string := String (ascii_of_nat 10) EmptyString.

(** The content of the system message. *)
Definition systemContent (hasData : bool) : string :=
  ("You are an Excel AI assistant that EXECUTES ACTIONS directly rather than explaining how to do them." ++ nl ++
   "      " ++ nl ++
   "      IMPORTANT RULES:" ++ nl ++
   "      1. Keep responses under 100 words" ++ nl ++
   "      2. When asked to perform an action like summing cells, creating pivot tables, or making charts, reply with CONFIRMATION that you've done it, not instructions." ++ nl ++
   "      3. NEVER give manual steps or formulas unless specifically asked for " ++ dq ++ "how to" ++ dq ++ " instructions" ++ nl ++
   "      4. Assume all actions are automatically executed by the assistant, not manually by the user" ++ nl ++
   "      " ++ nl ++
   "      Example good response: " ++ dq ++ "I've summed the values in the Amount column and placed the result in cell B7." ++ dq ++ nl ++
   "      Example bad response: " ++ dq ++ "To sum the values, you can use the formula =SUM(B2:B6) in cell B7." ++ dq ++ nl ++
   "      " ++ nl ++
   "      " ++
   (if hasData then "The user has selected Excel data for you to work with."
    else "Ask the user to select some data first to perform operations on it."))%string.

(** The five bytes that the source file has between [rows] and the
    column count: 195, 131, 226, 128, 148. *)
Definition timesMark : string :=
  str (map ascii_of_nat [195; 131; 226; 128; 148]%nat).

(** [dataContext] *)
Definition dataContext `{Engine} (d : ExcelData) : string :=
  (nl ++ "      Selected Range: " ++ ed_range d ++ nl ++
   "      Data (" ++ natToString (ed_rowCount d) ++ " rows " ++ timesMark ++ " " ++
   natToString (ed_columnCount d) ++ " columns):" ++ nl ++
   "      " ++ jsonStringify (ed_values d) ++ nl ++
   "      " ++ (if ed_hasHeaders d then "First row appears to contain headers." else "") ++ nl ++
   "      ")%string.

Definition roleName (r : role) : string :=
  match r with
  | User => "user"
  | Assistant => "assistant"
  end.

(** [messageHistory.slice(-10)] *)
Definition lastTen {A} (l : list A) : list A := drop (length l - 10) l.

(** [axios.post(API_URL, body, headers)] *)
Definition post (url : string) (rq : request) : M response :=
  call (EPost url rq) ;;
  e <- gets w_env ;;
  match net e rq with
  | Resolved r => ret r
  | Rejected err => throw err
  end.

(** [response.data.choices[0].message.content] *)
Definition firstContent (r : response) : M Content :=
  match r_choices r with
  | None => throw typeError
  | Some l =>
      match l !! 0%nat with
      | Some (Some content) => ret content
      | _ => throw typeError
      end
  end.

(** [a || b || c] on strings that may be [undefined]. *)
Definition firstTruthy (a b : option string) (c : string) : string :=
  match truthyStr a with
  | Some x => x
  | None =>
      match truthyStr b with
      | Some x => x
      | None => c
      end
  end.

Definition missingKeyReply : string :=
  "Error: API key configuration is missing. Please check the setup.".

(** The body and the authorization header of the request. *)
Definition completionRequest `{Engine} (messageHistory : list Message)
  (currentQuery : string) (selectedData : option ExcelData) (apiKey : string) : request :=
  let systemMessage :=
    ("system",
     Text (systemContent (match selectedData with Some _ => true | None => false end))) in
  let enhancedQuery :=
    match selectedData with
    | Some d => (currentQuery ++ nl ++ nl ++ "Selected Excel Data:" ++ nl ++ dataContext d)%string
    | None => currentQuery
    end in
  let msgs :=
    [systemMessage] ++
    map (fun m => (roleName (m_role m), m_content m)) (lastTen messageHistory) ++
    [("user", Text enhancedQuery)] in
  Request "gpt-4-turbo" msgs ("Bearer " ++ apiKey)%string.

(** The reply of the [catch] block. *)
Definition errorReply (error : error) : string :=
  ("Error: " ++ firstTruthy (e_response_message error) (e_message error)
                            "Failed to get AI response")%string.

(** [getOpenAIResponse] *)
Definition getOpenAIResponse `{Engine} (messageHistory : list Message)
  (currentQuery : string) (selectedData : option ExcelData) : M Content :=
  tryCatch
    (apiKey <- gets (fun w => getApiKey (conf (w_env w))) ;;
     if (String.length apiKey =? 0)%nat then ret (Text missingKeyReply)
     else
       response <- post API_URL (completionRequest messageHistory currentQuery
                                                   selectedData apiKey) ;;
       firstContent response)
    (fun error => ret (Text (errorReply error))).

End OpenAIService.

(** ** components/App.tsx *)

Module App.

Import Js Num Regex Port ExcelService OpenAIService.
Local Open Scope exec_scope.
Local Open Scope float_scope.

(** *** The patterns of [handleSend] *)

(** [/\b(ws1)\b.*?\b(ws2)\b/i] *)
Definition nearLazy (ws1 ws2 : list string) : regex :=
  seqs [RWordB; wordsI 1 ws1; RWordB; lazyStar dot; RWordB; wordsI 2 ws2; RWordB].

(** [/\b(ws1)\b.*\b(ws2)\b/i], with the second group given as a pattern. *)
Definition nearGreedy (ws1 : list string) (g2 : regex) : regex :=
  seqs [RWordB; wordsI 1 ws1; RWordB; star dot; RWordB; RGroup 2 g2; RWordB].

(** [/\b(sum|add|total|calculate)\b.*?\b(column|row|cell|range|value|amount|cost|price|number|data)\b/i] *)
Definition sumPattern : regex :=
  nearLazy ["sum"; "add"; "total"; "calculate"]
           ["column"; "row"; "cell"; "range"; "value"; "amount"; "cost"; "price";
            "number"; "data"].

(** [/\b(sum|add|total)\b.*?\b(column|columns)\b/i] *)
Definition columnSumPattern1 : regex :=
  nearLazy ["sum"; "add"; "total"] ["column"; "columns"].

(** [/\b(sum|add|total)\b.*?\b(amount|cost|price|value|total)\b/i] *)
Definition columnSumPattern2 : regex :=
  nearLazy ["sum"; "add"; "total"] ["amount"; "cost"; "price"; "value"; "total"].

(** [/\b(sum|add|total)\b.*?\b(column|columns)?\s+([\w\s,]+)/i] *)
Definition columnTextPattern : regex :=
  seqs [RWordB; wordsI 1 ["sum"; "add"; "total"]; RWordB; lazyStar dot; RWordB;
        opt (wordsI 2 ["column"; "columns"]);
        plus (RChar isSpace);
        RGroup 3 (plus (RChar (fun c => isWordChar c || isSpace c || charEqb c ",")))].

(** [/\b(amount|cost|price|value|total|sales|revenue|profit|quantity)\b/gi] *)
Definition specificColumnPattern : regex :=
  seqs [RWordB;
        wordsI 1 ["amount"; "cost"; "price"; "value"; "total"; "sales"; "revenue";
                  "profit"; "quantity"];
        RWordB].

(** [/,|and/] *)
Definition separatorPattern : regex := RAlt (lit ",") (lit "and").

(** [/\b(create|make|build|generate)\b.*\b(pivot|pivot\s*table)\b/i] *)
Definition pivotPattern : regex :=
  nearGreedy ["create"; "make"; "build"; "generate"]
             (RAlt (litI "pivot")
                   (seqs [litI "pivot"; star (RChar isSpace); litI "table"])).

(** [/\b(create|make|build|generate|plot)\b.*\b(chart|graph|plot)\b/i] *)
Definition chartPattern : regex :=
  nearGreedy ["create"; "make"; "build"; "generate"; "plot"]
             (alts (map litI ["chart"; "graph"; "plot"])).

(** [/\b(apply|use|add|create)\b.*\b(formula|function)\b/i] *)
Definition formulaPattern : regex :=
  nearGreedy ["apply"; "use"; "add"; "create"]
             (alts (map litI ["formula"; "function"])).

Definition isLetter (c : ascii) : bool := isUpper c || isLower c.

(** [/=([A-Z]+\([^)]+\))/i] *)
Definition formulaCallPattern : regex :=
  seqs [lit "=";
        RGroup 1 (seqs [plus (RChar isLetter); lit "(";
                        plus (RChar (fun c => negb (charEqb c ")"))); lit ")"])].

(** The character class of the second formula pattern under the [i]
    flag: letters, digits, [+ - * / ^ ( ) & < > =], the double quote (34)
    and the space (32). *)
Definition isFormulaChar (c : ascii) : bool :=
  isLetter c || isDigit c ||
  existsb (fun n => (code c =? n)%N) [43; 45; 42; 47; 94; 40; 41; 38; 60; 62; 61; 34; 32]%N.

(** The second formula pattern: [=] and a group of one or more
    characters of the class above. *)
Definition formulaExprPattern : regex :=
  seqs [lit "="; RGroup 1 (plus (RChar isFormulaChar))].

(** [/\b(next|below|following)\b.*?\b(row|line)\b/i] *)
Definition nextRowPattern : regex :=
  nearLazy ["next"; "below"; "following"] ["row"; "line"].

(** *** The conditions of the rules, as [handleSend] writes them *)

Definition truthy {A} (o : option A) : bool :=
  match o with
  | Some _ => true
  | None => false
  end.

Definition sumCond (input : string) (selectedData : option ExcelData) : bool :=
  test sumPattern input && truthy selectedData.

Definition columnSumCond (input : string) (selectedData : option ExcelData) : bool :=
  (test columnSumPattern1 input || test columnSumPattern2 input) && truthy selectedData.

Definition pivotCond (input : string) (selectedData : option ExcelData) : bool :=
  test pivotPattern input && truthy selectedData.

Definition chartCond (input : string) (selectedData : option ExcelData) : bool :=
  test chartPattern input && truthy selectedData.

Definition formulaCond (input : string) (selectedData : option ExcelData) : bool :=
  test formulaPattern input && truthy selectedData.

Definition amountCostCond (input : string) (selectedData : option ExcelData) : bool :=
  includes (toLowerCase input) "amount" && includes (toLowerCase input) "cost"
  && truthy selectedData.

Definition nextRowCond (input : string) : bool :=
  test nextRowPattern input
  || includes (toLowerCase input) "next row"
  || includes (toLowerCase input) "row below".

(** *** The React state *)

Definition appendMessage (m : Message) : M unit :=
  modify (fun w =>
            let u := w_ui w in
            setUi (Ui (messages u ++ [m]) (error_ u) (isLoading u) (input_ u)) w).

Definition setError (e : option string) : M unit :=
  modify (fun w =>
            let u := w_ui w in
            setUi (Ui (messages u) e (isLoading u) (input_ u)) w).

Definition setIsLoading (b : bool) : M unit :=
  modify (fun w =>
            let u := w_ui w in
            setUi (Ui (messages u) (error_ u) b (input_ u)) w).

Definition setInput (s : string) : M unit :=
  modify (fun w =>
            let u := w_ui w in
            setUi (Ui (messages u) (error_ u) (isLoading u) s) w).

Definition say (content : Content) : M unit := appendMessage (Msg Assistant content).

(** [getChartTypeFromInput] *)
Definition getChartTypeFromInput (input : string) : ChartType :=
  let input_lower := toLowerCase input in
  if includes input_lower "bar chart" || includes input_lower "bar graph" then barClustered
  else if includes input_lower "line chart" || includes input_lower "line graph" then line
  else if includes input_lower "pie chart" then pie
  else if includes input_lower "scatter" || includes input_lower "scatter plot" then xyscatter
  else columnClustered.

(** [getChartTypeName] *)
Definition getChartTypeName (chartType : ChartType) : string :=
  match chartType with
  | barClustered => "bar"
  | line => "line"
  | pie => "pie"
  | xyscatter => "scatter"
  | columnClustered => "column"
  | otherChartType _ => "column"
  end.

(** [a.join(sep)] on values: [null] prints as the empty string. *)
Definition joinValues `{Engine} (sep : string) (l : list scalar) : string :=
  join sep (map (fun v => match v with SNull => "" | _ => toStringScalar v end) l).


(** *** The actions of the rules

    Each action yields whether it sets [actionPerformed]. *)

Definition sumDoneMessage : string :=
  "I've calculated the sum of the selected cells and placed it in the cell below the selection.".

Definition sumAllDoneMessage : string :=
  "I've calculated the sum of all selected cells and placed it in the cell below the selection.".

Definition pivotDoneMessage : string :=
  "I've created a pivot table based on your selected data in a new worksheet named 'PivotTable'.".

Definition nextRowStartMessage : string :=
  "I'll calculate the sums and put them in the next row...".

Definition nextRowDoneMessage : string :=
  "âœ… I've calculated the sums for each column and placed them in the row below your selection.".

Definition nextRowFailedMessage : string :=
  "âŒ Sorry, I couldn't calculate the sums. Please make sure you've selected a range with numeric data.".

(** Rule 1: the sum of the selection. *)
Definition sumRule : M bool :=
  tryCatch
    (success <- calculateAndInsertSum None ;;
     if success then say sumDoneMessage ;; ret true else ret false)
    (fun actionError => ret false).

(** [typeof value === 'number' ||
     (typeof value === 'string' && !isNaN(parseFloat(value)))] *)
Definition isNumeric (value : option scalar) : bool :=
  match value with
  | Some (SNum _) => true
  | Some (SStr s) => negb (isNaN (parseFloat s))
  | _ => false
  end.

(** The headers of the columns that hold a numeric value below the
    header row. *)
Definition numericHeaders (vals : grid) (headers : list scalar) : list scalar :=
  flat_map
    (fun colIndex =>
       match headers !! colIndex with
       | Some header =>
           if existsb (fun row => isNumeric (at2 vals row colIndex))
                      (seq 1 (length vals - 1))
           then [header] else []
       | None => []
       end)
    (seq 0 (length headers)).

(** [columnsToSum] of rule 2: the listed keywords found in the input,
    else the names in the text after the trigger, else headers of the
    selection. *)
Definition columnsToSumOf (input : string) (selectedData : option ExcelData)
  : list scalar :=
  let columnText :=
    match exec columnTextPattern input with
    | Some columnMatches =>
        match group 3 columnMatches with
        | Some t => t
        | None => ""
        end
    | None => ""
    end in
  let columnsToSum := map SStr (execAll specificColumnPattern input) in
  let columnsToSum :=
    if ((length columnsToSum =? 0) && (0 <? String.length columnText))%nat
    then columnsToSum ++
         map SStr (List.filter (fun col => (0 <? String.length col)%nat)
                               (map trim (split separatorPattern columnText)))
    else columnsToSum in
  match selectedData with
  | Some d =>
      if ((length columnsToSum =? 0) && (0 <? length (ed_values d)))%nat
      then
        match ed_values d with
        | headers :: _ =>
            if (length headers <=? 3)%nat then columnsToSum ++ headers
            else columnsToSum ++ numericHeaders (ed_values d) headers
        | [] => columnsToSum
        end
      else columnsToSum
  | None => columnsToSum
  end.

(** Rule 2: the sums of the named columns, and the sum of the selection
    when they fail. *)
Definition columnSumRule `{Engine} (input : string) (selectedData : option ExcelData)
  : M bool :=
  tryCatch
    (let columnsToSum := columnsToSumOf input selectedData in
     if (0 <? length columnsToSum)%nat then
       success <- sumSpecificColumns columnsToSum ;;
       if success then
         say ("I've calculated the sum for the following columns: "
              ++ joinValues ", " columnsToSum
              ++ ". The results have been placed in the cells below each column.")%string ;;
         ret true
       else
         success <- calculateAndInsertSum None ;;
         if success then say sumAllDoneMessage ;; ret true else ret false
     else ret false)
    (fun actionError => ret false).

(** [selectedData.range] *)
Definition rangeOf (selectedData : option ExcelData) : M string :=
  match selectedData with
  | Some d => ret (ed_range d)
  | None => throw typeError
  end.

(** Rule 3: the pivot table. *)
Definition pivotRule `{Engine} (selectedData : option ExcelData) : M bool :=
  tryCatch
    (dataRange <- rangeOf selectedData ;;
     success <- createSamplePivotTable dataRange ;;
     if success then say pivotDoneMessage ;; ret true else ret false)
    (fun actionError => ret false).

(** Rule 4: the chart. *)
Definition chartRule (input : string) (selectedData : option ExcelData) : M bool :=
  tryCatch
    (let chartType := getChartTypeFromInput input in
     dataRange <- rangeOf selectedData ;;
     success <- createChart chartType dataRange (Some "Chart from selected data") ;;
     if success then
       say ("I've created a " ++ getChartTypeName chartType
            ++ " chart using your selected data.")%string ;;
       ret true
     else ret false)
    (fun actionError => ret false).

(** Rule 5: the formula. *)
Definition formulaRule (input : string) : M bool :=
  tryCatch
    (let formulaMatch :=
       match exec formulaCallPattern input with
       | Some m => Some m
       | None => exec formulaExprPattern input
       end in
     match formulaMatch with
     | Some m =>
         let formula := f_text m in
         success <- applyFormulaToSelection formula ;;
         if success then
           say ("I've applied the formula " ++ formula ++ " to your selected cells.")%string ;;
           ret true
         else ret false
     | None => ret false
     end)
    (fun actionError => ret false).

(** The columns of rule 6: the last header that contains the word. *)
Definition amountCostColumns `{Engine} (headers : list scalar) : option nat * option nat :=
  fold_left
    (fun (acc : option nat * option nat) (i : nat) =>
       match headers !! i with
       | Some h =>
           let header := toLowerCase (toStringScalar h) in
           (if includes header "amount" then Some i else fst acc,
            if includes header "cost" then Some i else snd acc)
       | None => acc
       end)
    (seq 0 (length headers)) (None, None).

(** The sum of a column of the snapshot in rule 6. *)
Definition snapshotColumnSum (vals : grid) (col : option nat) : number :=
  match col with
  | Some c =>
      fold_left
        (fun (sum : number) (row : nat) =>
           match at2 vals row c with
           | Some (SNum val) => sum + val
           | Some (SStr val) =>
               let num := parseFloat val in
               if negb (isNaN num) then sum + num else sum
           | _ => sum
           end)
        (seq 1 (length vals - 1)) 0
  | None => 0
  end.

(** [`${String.fromCharCode(65 + col)}${targetRow}`] *)
Definition cellAddress (col targetRow : nat) : string :=
  (fromCharCode (65 + col) ++ natToString targetRow)%string.

(** Rule 6: the sums of the amount and the cost columns. *)
Definition amountCostRule `{Engine} (selectedData : option ExcelData) : M bool :=
  tryCatch
    (match selectedData with
     | None => throw typeError
     | Some d =>
         match ed_values d !! 0%nat with
         | None => throw typeError
         | Some headers =>
             let '(amountCol, costCol) := amountCostColumns headers in
             let amountSum := snapshotColumnSum (ed_values d) amountCol in
             let costSum := snapshotColumnSum (ed_values d) costCol in
             let targetRow := (ed_rowCount d + 1)%nat in
             success1 <-
               match amountCol with
               | Some c => writeValueToCell (SNum amountSum) (cellAddress c targetRow)
               | None => ret false
               end ;;
             success2 <-
               match costCol with
               | Some c => writeValueToCell (SNum costSum) (cellAddress c targetRow)
               | None => ret false
               end ;;
             if success1 || success2 then
               say ("I've calculated the sums: Amount = " ++ numberToString amountSum
                    ++ ", Cost = " ++ numberToString costSum
                    ++ ". The results are now in row " ++ natToString targetRow ++ ".")%string ;;
               ret true
             else ret false
         end
     end)
    (fun err => ret false).

(** Rule 7: the sums of the columns into the next row. *)
Definition nextRowRule : M bool :=
  tryCatch
    (say nextRowStartMessage ;;
     success <- sumIntoNextRow ;;
     if success then say nextRowDoneMessage ;; ret true
     else say nextRowFailedMessage ;; ret false)
    (fun actionError => ret false).

(** The chain [if ... else if ...] of rules 1 to 5. *)
Definition firstChain `{Engine} (input : string) (selectedData : option ExcelData)
  : M bool :=
  if sumCond input selectedData then sumRule
  else if columnSumCond input selectedData then columnSumRule input selectedData
  else if pivotCond input selectedData then pivotRule selectedData
  else if chartCond input selectedData then chartRule input selectedData
  else if formulaCond input selectedData then formulaRule input
  else ret false.

(** The statement [if ... else if ...] of rules 6 and 7, which follows
    the chain whatever it did. *)
Definition secondChain `{Engine} (input : string) (selectedData : option ExcelData)
  (actionPerformed : bool) : M bool :=
  if amountCostCond input selectedData then
    performed <- amountCostRule selectedData ;;
    ret (actionPerformed || performed)
  else if nextRowCond input then
    performed <- nextRowRule ;;
    ret (actionPerformed || performed)
  else ret actionPerformed.

(** [handleSend] *)
Definition handleSend `{Engine} : M unit :=
  input <- gets (fun w => input_ (w_ui w)) ;;
  messages <- gets (fun w => messages (w_ui w)) ;;
  if (String.length (trim input) =? 0)%nat then ret tt
  else
    tryFinally
      (tryCatch
         (setIsLoading true ;;
          setError None ;;
          appendMessage (Msg User input) ;;
          setInput "" ;;
          selectedData <- extractDataFromSelection ;;
          actionPerformed <- firstChain input selectedData ;;
          actionPerformed <- secondChain input selectedData actionPerformed ;;
          if negb actionPerformed then
            response <- getOpenAIResponse messages input selectedData ;;
            say response
          else ret tt)
         (fun err =>
            setError (Some ("Error: " ++ match truthyStr (e_message err) with
                                         | Some m => m
                                         | None => "Something went wrong"
                                         end)%string)))
      (setIsLoading false).

End App.

(** * Properties *)

(** ** The embedding at work *)

Example toLowerCase_ex : Js.toLowerCase "Total Cost" = "total cost".
Proof. reflexivity. Qed.

Example includes_ex : Js.includes "total cost" "cost" = true /\ Js.includes "abc" "" = true.
Proof. split; reflexivity. Qed.

Example natToString_ex : Js.natToString 0 = "0" /\ Js.natToString 1205 = "1205".
Proof. split; reflexivity. Qed.

Section NumExamples.
Import Num.
Local Open Scope float_scope.

Example parseFloat_ex1 : parseFloat "20" = 20 /\ parseFloat "5.5" = 5.5 /\ parseFloat " -3.25e2xyz" = -325.
Proof. repeat split; reflexivity. Qed.

Example parseFloat_ex2 : isNaN (parseFloat "abc") = true /\ isNaN (parseFloat "") = true
  /\ isNaN (parseFloat ".") = true /\ parseFloat "12abc" = 12 /\ parseFloat "2024-01-05" = 2024.
Proof. repeat split; reflexivity. Qed.

Example parseFloat_ex3 : parseFloat "1e" = 1 /\ parseFloat "1e+" = 1 /\ parseFloat ".5" = 0.5
  /\ parseFloat "5." = 5 /\ parseFloat "1e400" = infinity /\ parseFloat "-Infinityx" = neg_infinity.
Proof. repeat split; reflexivity. Qed.

Example stringIsNaN_ex : stringIsNaN "" = false /\ stringIsNaN "12abc" = true
  /\ stringIsNaN " 0x1F " = false /\ stringIsNaN "1e3" = false /\ stringIsNaN "Infinityx" = true.
Proof. repeat split; reflexivity. Qed.

End NumExamples.

Section RegexExamples.
Import Regex.

Example test_ex1 :
  test (seqs [RWordB; wordsI 1 ["sum"; "add"]; RWordB; lazyStar dot; RWordB;
              wordsI 2 ["column"; "row"]; RWordB]) "Please SUM the Column" = true.
Proof. reflexivity. Qed.

Example test_ex2 :
  test (seqs [RWordB; wordsI 1 ["sum"; "add"]; RWordB; lazyStar dot; RWordB;
              wordsI 2 ["column"; "row"]; RWordB]) "summary of columns" = false.
Proof. reflexivity. Qed.

Example split_ex : split (RAlt (lit ",") (lit "and")) "a, b and c" = ["a"; " b "; " c"].
Proof. reflexivity. Qed.

Example execAll_ex : execAll (seqs [RWordB; wordsI 1 ["cost"; "total"]; RWordB])
                             "Total cost, costs and COST" = ["Total"; "cost"; "COST"].
Proof. reflexivity. Qed.

End RegexExamples.

Example address_ex1 : Address.print "Sheet1" 2 1 3 2 = "Sheet1!B3:C5"
  /\ Address.parse "Sheet1!B3:C5" = Some (2, 1, 3, 2)%nat.
Proof. split; reflexivity. Qed.

Example address_ex2 : Address.parse "A4" = Some (3, 0, 1, 1)%nat
  /\ Address.parse "AA10" = Some (9, 26, 1, 1)%nat /\ Address.parse "[4" = None
  /\ Address.letters 27 = "AB".
Proof. repeat split; reflexivity. Qed.


(** ** Aggregation (specification, section 4.4)

    [sumCells] follows the words of the specification: a cell that is a
    number counts as it is, a string counts when its decimal parse is a
    number, every other cell is ignored. *)

Module AggregationSpec.

Import Num.
Local Open Scope float_scope.

Definition coerce (c : scalar) : option number :=
  match c with
  | SNum x => Some x
  | SStr s => if isNaN (parseFloat s) then None else Some (parseFloat s)
  | SBool _ => None
  | SNull => None
  end.

Definition sumCells (cells : list scalar) : number :=
  fold_left (fun sum c => match coerce c with
                          | Some x => sum + x
                          | None => sum
                          end) cells 0.

(** The cells of column [col], from the rows that have one. *)
Definition columnCells (rows : grid) (col : nat) : list scalar :=
  omap (fun row : list scalar => row !! col) rows.

End AggregationSpec.

(** Splits a conjunction into its parts, and nothing else. *)
Ltac conjuncts := repeat match goal with |- _ /\ _ => split end.

Section Aggregation.

Import Num ExcelService App AggregationSpec.
Local Open Scope float_scope.

(** The step of the summing loops of the source. *)
Definition loopStep (sum : number) (val : option scalar) : number :=
  match val with
  | Some (SNum x) => sum + x
  | Some (SStr s) => if negb (isNaN (parseFloat s)) then sum + parseFloat s else sum
  | _ => sum
  end.

Definition specStep (sum : number) (c : scalar) : number :=
  match coerce c with
  | Some x => sum + x
  | None => sum
  end.

Lemma loopStep_Some sum c : loopStep sum (Some c) = specStep sum c.
Proof.
  unfold loopStep, specStep, coerce.
  destruct c as [x|s|b|]; try reflexivity.
  destruct (isNaN (parseFloat s)); reflexivity.
Qed.

Lemma loopStep_None sum : loopStep sum None = sum.
Proof. reflexivity. Qed.

(** An index loop over a list is a fold over its elements. *)
Lemma fold_index_elements (pre row : list scalar) (sum : number) :
  fold_left (fun s col => loopStep s ((pre ++ row) !! col)) (seq (length pre) (length row)) sum
  = fold_left specStep row sum.
Proof.
  revert pre sum. induction row as [|c row IH]; intros pre sum; [reflexivity|].
  cbn [length seq fold_left].
  rewrite (lookup_app_r pre (c :: row) (length pre)) by lia.
  rewrite Nat.sub_diag. cbn [lookup list_lookup].
  rewrite loopStep_Some.
  specialize (IH (pre ++ [c]) (specStep sum c)).
  rewrite length_app in IH. cbn [length] in IH.
  rewrite Nat.add_1_r in IH. rewrite <- app_assoc in IH. exact IH.
Qed.

Lemma at2_app_r (pre rows : grid) (r : list scalar) (col : nat) :
  at2 (pre ++ r :: rows) (length pre) col = r !! col.
Proof.
  unfold at2. rewrite (lookup_app_r pre (r :: rows) (length pre)) by lia.
  rewrite Nat.sub_diag. reflexivity.
Qed.

(** A row-index loop over a grid is a fold over the cells of the column. *)
Lemma fold_rows_column (pre rows : grid) (col : nat) (sum : number) :
  fold_left (fun s row => loopStep s (at2 (pre ++ rows) row col))
            (seq (length pre) (length rows)) sum
  = fold_left specStep (columnCells rows col) sum.
Proof.
  revert pre sum. induction rows as [|r rows IH]; intros pre sum; [reflexivity|].
  cbn [length seq fold_left]. rewrite at2_app_r.
  specialize (IH (pre ++ [r])).
  rewrite length_app in IH. cbn [length] in IH.
  rewrite Nat.add_1_r in IH. rewrite <- app_assoc in IH. cbn [app] in IH.
  rewrite IH. unfold columnCells. cbn [omap list_omap].
  destruct (r !! col) as [c|] eqn:E.
  - cbn [fold_left]. rewrite loopStep_Some. reflexivity.
  - reflexivity.
Qed.

Lemma selectionSum_sumCells (vals : grid) :
  selectionSum vals = sumCells (concat vals).
Proof.
  unfold selectionSum, sumCells. generalize 0 as sum.
  induction vals as [|row vals IH]; intros sum; [reflexivity|].
  cbn [fold_left concat]. rewrite fold_left_app. rewrite <- IH. f_equal.
  exact (fold_index_elements [] row sum).
Qed.

Lemma namedColumnSum_sumCells (vals : grid) (col : nat) :
  namedColumnSum vals col = sumCells (columnCells (drop 1 vals) col).
Proof.
  unfold namedColumnSum, sumCells.
  destruct vals as [|h rows]; [reflexivity|].
  cbn [length drop Nat.sub]. rewrite Nat.sub_0_r.
  exact (fold_rows_column [h] rows col 0).
Qed.

Lemma snapshotColumnSum_sumCells (vals : grid) (col : nat) :
  snapshotColumnSum vals (Some col) = sumCells (columnCells (drop 1 vals) col).
Proof.
  unfold snapshotColumnSum, sumCells.
  destruct vals as [|h rows]; [reflexivity|].
  cbn [length drop Nat.sub]. rewrite Nat.sub_0_r.
  exact (fold_rows_column [h] rows col 0).
Qed.

Lemma columnSumsOf_lookup (vals : grid) (ncols col : nat) :
  (col < ncols)%nat ->
  columnSumsOf vals ncols !! col = Some (sumCells (columnCells vals col)).
Proof.
  intros Hlt. unfold columnSumsOf.
  rewrite list_lookup_fmap.
  rewrite (lookup_seq_lt 0 ncols col Hlt). cbn [fmap option_fmap option_map].
  f_equal. exact (fold_rows_column [] vals col 0).
Qed.

Lemma columnSumsOf_length (vals : grid) (ncols : nat) :
  length (columnSumsOf vals ncols) = ncols.
Proof. unfold columnSumsOf. rewrite length_map, length_seq. reflexivity. Qed.

(** C8: the summing loops add the cells that are numbers, add the strings
    that parse as decimal numbers, and leave the sum as it is for every
    other cell (strings that do not parse, booleans, empty cells), none of
    which is an error; [sumCells [10; "20"; "abc"; null; 5.5]] is [35.5];
    and the sums of the whole selection, of a named column, of a column of
    the next-row sum and of the amount and cost columns are all
    [sumCells] of the cells they visit. *)
Theorem sumCells_coercion :
  (forall cells x, sumCells (cells ++ [SNum x]) = sumCells cells + x)
  /\ (forall cells s, isNaN (parseFloat s) = false ->
        sumCells (cells ++ [SStr s]) = sumCells cells + parseFloat s)
  /\ (forall cells s, isNaN (parseFloat s) = true ->
        sumCells (cells ++ [SStr s]) = sumCells cells)
  /\ (forall cells b, sumCells (cells ++ [SBool b]) = sumCells cells)
  /\ (forall cells, sumCells (cells ++ [SNull]) = sumCells cells)
  /\ sumCells [SNum 10; SStr "20"; SStr "abc"; SNull; SNum 5.5] = 35.5
  /\ (forall vals, selectionSum vals = sumCells (concat vals))
  /\ (forall vals col, namedColumnSum vals col = sumCells (columnCells (drop 1 vals) col))
  /\ (forall vals ncols col, (col < ncols)%nat ->
        columnSumsOf vals ncols !! col = Some (sumCells (columnCells vals col)))
  /\ (forall vals col,
        snapshotColumnSum vals (Some col) = sumCells (columnCells (drop 1 vals) col)).
Proof.
  conjuncts.
  - intros cells x. unfold sumCells. rewrite fold_left_app. reflexivity.
  - intros cells s Hs. unfold sumCells. rewrite fold_left_app.
    cbn [fold_left coerce]. rewrite Hs. reflexivity.
  - intros cells s Hs. unfold sumCells. rewrite fold_left_app.
    cbn [fold_left coerce]. rewrite Hs. reflexivity.
  - intros cells b. unfold sumCells. rewrite fold_left_app. reflexivity.
  - intros cells. unfold sumCells. rewrite fold_left_app. reflexivity.
  - vm_compute. reflexivity.
  - exact selectionSum_sumCells.
  - exact namedColumnSum_sumCells.
  - exact columnSumsOf_lookup.
  - exact snapshotColumnSum_sumCells.
Qed.

End Aggregation.

(** ** Column resolution (specification, section 4.2) *)

Module ResolverSpec.

Import Js.

(** The stringified header equals the name, whatever the case. *)
Definition equalsIgnoreCase `{Engine} (name : string) (h : scalar) : bool :=
  match optToString h with
  | Some hs => String.eqb (toLowerCase hs) (toLowerCase name)
  | None => false
  end.

(** The stringified header contains the name, whatever the case. *)
Definition containsIgnoreCase `{Engine} (name : string) (h : scalar) : bool :=
  match optToString h with
  | Some hs => includes (toLowerCase hs) (toLowerCase name)
  | None => false
  end.

(** [i] is the leftmost index of [l] whose element satisfies [p]. *)
Definition leftmost (p : scalar -> bool) (l : list scalar) (i : nat) : Prop :=
  (exists h, l !! i = Some h /\ p h = true)
  /\ forall j h, (j < i)%nat -> l !! j = Some h -> p h = false.

(** No element of [l] satisfies [p]. *)
Definition nowhere (p : scalar -> bool) (l : list scalar) : Prop :=
  forall j h, l !! j = Some h -> p h = false.

End ResolverSpec.

Section Resolution.

Import Js ExcelService ResolverSpec.
Context `{Engine}.

Lemma findIndexFrom_ext {A} (p q : A -> result bool) (l : list A) (k : nat) :
  (forall x, p x = q x) -> findIndexFrom p l k = findIndexFrom q l k.
Proof.
  intros Hpq. revert k. induction l as [|x l IH]; intros k; [reflexivity|].
  cbn [findIndexFrom]. rewrite Hpq. destruct (q x) as [[|]|e]; auto.
Qed.

Lemma findIndexFrom_leftmost (p : scalar -> bool) (l : list scalar) (k i : nat) :
  leftmost p l i ->
  findIndexFrom (fun h => Ok (p h)) l k = Ok (Some (k + i)%nat).
Proof.
  revert k i. induction l as [|x l IH]; intros k i [[h [Hi Hp]] Hmin].
  - rewrite lookup_nil in Hi. discriminate.
  - cbn [findIndexFrom]. destruct i as [|i].
    + cbn in Hi. injection Hi as ->. rewrite Hp. rewrite Nat.add_0_r. reflexivity.
    + rewrite (Hmin 0%nat x) by (cbn; (lia || reflexivity)).
      rewrite (IH (S k) i).
      * f_equal. f_equal. lia.
      * split.
        -- exists h. split; [exact Hi | exact Hp].
        -- intros j h' Hj Hl. apply (Hmin (S j) h'); [lia | exact Hl].
Qed.

Lemma findIndexFrom_nowhere (p : scalar -> bool) (l : list scalar) (k : nat) :
  nowhere p l -> findIndexFrom (fun h => Ok (p h)) l k = Ok None.
Proof.
  revert k. induction l as [|x l IH]; intros k Hno; [reflexivity|].
  cbn [findIndexFrom]. rewrite (Hno 0%nat x) by reflexivity.
  apply IH. intros j h Hl. apply (Hno (S j) h). exact Hl.
Qed.

Lemma exactMatch_string (name : string) (h : scalar) :
  exactMatch (SStr name) h = Ok (equalsIgnoreCase name h).
Proof. reflexivity. Qed.

Lemma containsMatch_string (name : string) (h : scalar) :
  containsMatch (SStr name) h = Ok (containsIgnoreCase name h).
Proof.
  unfold containsMatch, containsIgnoreCase. cbn [nameToLowerCase].
  destruct (optToString h); reflexivity.
Qed.

Lemma findColumn_exact (headers : list scalar) (name : string) (i : nat) :
  leftmost (equalsIgnoreCase name) headers i ->
  findColumn headers (SStr name) = Ok (Some i).
Proof.
  intros Hl. unfold findColumn, findIndex.
  rewrite (findIndexFrom_ext _ (fun h => Ok (equalsIgnoreCase name h)) _ _
             (exactMatch_string name)).
  rewrite (findIndexFrom_leftmost _ _ 0 i Hl). reflexivity.
Qed.

Lemma findColumn_contains (headers : list scalar) (name : string) (i : nat) :
  nowhere (equalsIgnoreCase name) headers ->
  leftmost (containsIgnoreCase name) headers i ->
  findColumn headers (SStr name) = Ok (Some i).
Proof.
  intros Hno Hl. unfold findColumn, findIndex.
  rewrite (findIndexFrom_ext _ (fun h => Ok (equalsIgnoreCase name h)) _ _
             (exactMatch_string name)).
  rewrite (findIndexFrom_nowhere _ _ 0 Hno).
  rewrite (findIndexFrom_ext _ (fun h => Ok (containsIgnoreCase name h)) _ _
             (containsMatch_string name)).
  rewrite (findIndexFrom_leftmost _ _ 0 i Hl). reflexivity.
Qed.

Lemma findColumn_notFound (headers : list scalar) (name : string) :
  nowhere (equalsIgnoreCase name) headers ->
  nowhere (containsIgnoreCase name) headers ->
  findColumn headers (SStr name) = Ok None.
Proof.
  intros Hno Hno'. unfold findColumn, findIndex.
  rewrite (findIndexFrom_ext _ (fun h => Ok (equalsIgnoreCase name h)) _ _
             (exactMatch_string name)).
  rewrite (findIndexFrom_nowhere _ _ 0 Hno).
  rewrite (findIndexFrom_ext _ (fun h => Ok (containsIgnoreCase name h)) _ _
             (containsMatch_string name)).
  rewrite (findIndexFrom_nowhere _ _ 0 Hno'). reflexivity.
Qed.

(** A name that is not found is skipped: the loop goes on with the
    next names, the results and the workbook as they were. *)
Lemma sumOneColumn_skip (selectedRange : range) (vals : grid) (headers : list scalar)
  (results : list scalar) (colName : scalar) (rest : list scalar) (w : world) :
  findColumn headers colName = Ok None ->
  foldM (sumOneColumn selectedRange vals headers) (colName :: rest) results w
  = foldM (sumOneColumn selectedRange vals headers) rest results w.
Proof.
  intros Hnf. cbn [foldM]. unfold bind at 1. unfold sumOneColumn at 1.
  rewrite Hnf. reflexivity.
Qed.

(** C7: the column of a requested name is the leftmost header that
    equals the name whatever the case; without one, the leftmost header
    that contains the name whatever the case; without one either the name
    is not found, and the loop of [sumSpecificColumns] skips it and goes
    on with the other names.  With the headers [Amount] and [Total Cost],
    [amount] is column 0 and [cost] is column 1. *)
Theorem column_resolution :
  (forall headers name i,
      leftmost (equalsIgnoreCase name) headers i ->
      findColumn headers (SStr name) = Ok (Some i))
  /\ (forall headers name i,
        nowhere (equalsIgnoreCase name) headers ->
        leftmost (containsIgnoreCase name) headers i ->
        findColumn headers (SStr name) = Ok (Some i))
  /\ (forall headers name,
        nowhere (equalsIgnoreCase name) headers ->
        nowhere (containsIgnoreCase name) headers ->
        findColumn headers (SStr name) = Ok None)
  /\ (forall selectedRange vals headers results name rest w,
        findColumn headers (SStr name) = Ok None ->
        foldM (sumOneColumn selectedRange vals headers) (SStr name :: rest) results w
        = foldM (sumOneColumn selectedRange vals headers) rest results w)
  /\ findColumn [SStr "Amount"; SStr "Total Cost"] (SStr "amount") = Ok (Some 0%nat)
  /\ findColumn [SStr "Amount"; SStr "Total Cost"] (SStr "cost") = Ok (Some 1%nat).
Proof.
  split; [exact findColumn_exact|].
  split; [exact findColumn_contains|].
  split; [exact findColumn_notFound|].
  split; [intros; apply sumOneColumn_skip; assumption|].
  split; reflexivity.
Qed.

End Resolution.

(** ** The completion service (specification, sections 6 and 7) *)

Section Completion.

Import ExcelService OpenAIService.
Context `{Engine}.

Lemma length_zero_empty (s : string) : (String.length s =? 0)%nat = true <-> s = "".
Proof.
  destruct s as [|c s]; cbn; split; intros E; try reflexivity; discriminate.
Qed.

(** Without a key the fixed reply is returned and nothing else happens:
    the world, and with it the trace of calls, is as it was. *)
Lemma getOpenAIResponse_noKey history query sd (w : world) :
  getApiKey (conf (w_env w)) = "" ->
  getOpenAIResponse history query sd w = (Ok (Text missingKeyReply), w).
Proof.
  intros Hk. unfold getOpenAIResponse, tryCatch, bind, gets.
  rewrite Hk. reflexivity.
Qed.

(** With a key the request is posted, and an exception of the call is
    turned into the reply of the [catch] block. *)
Lemma getOpenAIResponse_postThrows history query sd (w w' : world) (e : error) :
  getApiKey (conf (w_env w)) <> "" ->
  post API_URL (completionRequest history query sd (getApiKey (conf (w_env w)))) w
  = (Throw e, w') ->
  getOpenAIResponse history query sd w = (Ok (Text (errorReply e)), w').
Proof.
  intros Hk Hp. unfold getOpenAIResponse, tryCatch, bind, gets.
  destruct (String.length (getApiKey (conf (w_env w))) =? 0)%nat eqn:E.
  - apply length_zero_empty in E. contradiction.
  - rewrite Hp. reflexivity.
Qed.

(** A response without a first choice or without its message ends in
    the [catch] block as well. *)
Lemma getOpenAIResponse_malformed history query sd (w w' : world) (r : response) :
  getApiKey (conf (w_env w)) <> "" ->
  post API_URL (completionRequest history query sd (getApiKey (conf (w_env w)))) w
  = (Ok r, w') ->
  (forall content, (r_choices r ≫= (fun l => l !! 0%nat)) <> Some (Some content)) ->
  getOpenAIResponse history query sd w = (Ok (Text (errorReply typeError)), w').
Proof.
  intros Hk Hp Hbad. unfold getOpenAIResponse, tryCatch, bind, gets.
  destruct (String.length (getApiKey (conf (w_env w))) =? 0)%nat eqn:E.
  - apply length_zero_empty in E. contradiction.
  - rewrite Hp. unfold firstContent.
    destruct (r_choices r) as [l|]; [|reflexivity].
    cbn in Hbad. destruct (l !! 0%nat) as [[c|]|]; try reflexivity.
    exfalso. exact (Hbad c eq_refl).
Qed.

(** The content of the message of the first choice is returned as it
    is, a string or not. *)
Lemma getOpenAIResponse_content history query sd (w w' : world) (r : response)
  (content : Content) :
  getApiKey (conf (w_env w)) <> "" ->
  post API_URL (completionRequest history query sd (getApiKey (conf (w_env w)))) w
  = (Ok r, w') ->
  (r_choices r ≫= (fun l => l !! 0%nat)) = Some (Some content) ->
  getOpenAIResponse history query sd w = (Ok content, w').
Proof.
  intros Hk Hp Hc. unfold getOpenAIResponse, tryCatch, bind, gets.
  destruct (String.length (getApiKey (conf (w_env w))) =? 0)%nat eqn:E.
  - apply length_zero_empty in E. contradiction.
  - rewrite Hp. unfold firstContent.
    destruct (r_choices r) as [l|]; [|discriminate].
    cbn in Hc. rewrite Hc. reflexivity.
Qed.

(** The key is absent when neither the environment variable nor the
    global configuration holds a string that is not empty. *)
Lemma getApiKey_absent (c : config) :
  getApiKey c = "" <->
  truthyStr (env_OPENAI_API_KEY c) = None /\ truthyStr (global_apiKey c) = None.
Proof.
  unfold getApiKey, truthyStr.
  destruct (env_OPENAI_API_KEY c) as [[|a k]|]; destruct (global_apiKey c) as [[|a' k']|];
    cbn; split; try (intros [? ?]); try intros ?; try discriminate; auto.
Qed.

Lemma getOpenAIResponse_total history query sd (w : world) :
  exists s, fst (getOpenAIResponse history query sd w) = Ok s.
Proof.
  unfold getOpenAIResponse, tryCatch.
  match goal with |- context [match ?b w with _ => _ end] => destruct (b w) as [[s|e] w'] end.
  - exists s. reflexivity.
  - exists (Text (errorReply e)). reflexivity.
Qed.

(** The reply of the [catch] block, case by case. *)
Lemma errorReply_cases (e : error) :
  (forall m, truthyStr (e_response_message e) = Some m ->
             errorReply e = ("Error: " ++ m)%string)
  /\ (forall m, truthyStr (e_response_message e) = None ->
                truthyStr (e_message e) = Some m ->
                errorReply e = ("Error: " ++ m)%string)
  /\ (truthyStr (e_response_message e) = None -> truthyStr (e_message e) = None ->
      errorReply e = "Error: Failed to get AI response").
Proof.
  unfold errorReply, firstTruthy. split; [|split].
  - intros m ->. reflexivity.
  - intros m -> ->. reflexivity.
  - intros -> ->. reflexivity.
Qed.

(** What [getOpenAIResponse] returns is a string, unless the call went
    through and the message of the first choice carries something else. *)
Lemma getOpenAIResponse_returns history query sd (w : world) (r : Content) :
  fst (getOpenAIResponse history query sd w) = Ok r ->
  (exists s : string, r = Text s)
  \/ (exists rs w',
        getApiKey (conf (w_env w)) <> ""
        /\ post API_URL (completionRequest history query sd (getApiKey (conf (w_env w)))) w
           = (Ok rs, w')
        /\ (r_choices rs ≫= (fun l => l !! 0%nat)) = Some (Some r)).
Proof.
  destruct (String.eqb_spec (getApiKey (conf (w_env w))) "") as [Hk | Hk].
  { rewrite (getOpenAIResponse_noKey _ _ _ _ Hk). intros [= <-]. left. eexists. reflexivity. }
  destruct (post API_URL (completionRequest history query sd (getApiKey (conf (w_env w)))) w)
    as [[rs|e] w'] eqn:Hp.
  2: { rewrite (getOpenAIResponse_postThrows _ _ _ _ _ _ Hk Hp). intros [= <-].
       left. eexists. reflexivity. }
  destruct (r_choices rs ≫= (fun l => l !! 0%nat)) as [[c|]|] eqn:Hc.
  - rewrite (getOpenAIResponse_content _ _ _ _ _ _ _ Hk Hp Hc). intros [= <-].
    right. exists rs, w'. auto.
  - rewrite (getOpenAIResponse_malformed _ _ _ _ _ rs Hk Hp); [|rewrite Hc; discriminate].
    intros [= <-]. left. eexists. reflexivity.
  - rewrite (getOpenAIResponse_malformed _ _ _ _ _ rs Hk Hp); [|rewrite Hc; discriminate].
    intros [= <-]. left. eexists. reflexivity.
Qed.

(** C9, as amended: the completion service fails closed.  It never
    throws.  The key is absent when neither the environment nor the
    global configuration gives one, and then the fixed explanatory reply
    is returned without any call (the world, with the trace, is
    unchanged).  When the call throws, the reply is [Error: ] followed by
    the message of the response of the error, else by the message of the
    error, else by [Failed to get AI response]; a response without a
    first choice or without its message ends in the same way.  When the
    call goes through, the content of the message of the first choice is
    returned as it is.  So what is returned is a string in every case
    but this last one, where it is a string when the service sent one. *)
Theorem completion_fails_closed :
  forall history query sd (w : world),
    let outcome := getOpenAIResponse history query sd w in
    let apiKey := getApiKey (conf (w_env w)) in
    let posted := post API_URL (completionRequest history query sd apiKey) w in
    (exists r, fst outcome = Ok r)
    /\ (apiKey = "" <->
        truthyStr (env_OPENAI_API_KEY (conf (w_env w))) = None
        /\ truthyStr (global_apiKey (conf (w_env w))) = None)
    /\ (apiKey = "" ->
        outcome
        = (Ok (Text "Error: API key configuration is missing. Please check the setup."), w))
    /\ (forall e w',
          apiKey <> "" -> posted = (Throw e, w') ->
          outcome = (Ok (Text (errorReply e)), w'))
    /\ (forall r w',
          apiKey <> "" -> posted = (Ok r, w') ->
          (forall content, (r_choices r ≫= (fun l => l !! 0%nat)) <> Some (Some content)) ->
          outcome = (Ok (Text (errorReply typeError)), w'))
    /\ (forall r w' content,
          apiKey <> "" -> posted = (Ok r, w') ->
          (r_choices r ≫= (fun l => l !! 0%nat)) = Some (Some content) ->
          outcome = (Ok content, w'))
    /\ (forall e,
          (forall m, truthyStr (e_response_message e) = Some m ->
                     errorReply e = ("Error: " ++ m)%string)
          /\ (forall m, truthyStr (e_response_message e) = None ->
                        truthyStr (e_message e) = Some m ->
                        errorReply e = ("Error: " ++ m)%string)
          /\ (truthyStr (e_response_message e) = None -> truthyStr (e_message e) = None ->
              errorReply e = "Error: Failed to get AI response"))
    /\ (forall r,
          fst outcome = Ok r ->
          (exists s : string, r = Text s)
          \/ (exists rs w',
                apiKey <> "" /\ posted = (Ok rs, w')
                /\ (r_choices rs ≫= (fun l => l !! 0%nat)) = Some (Some r))).
Proof.
  intros history query sd w. cbv zeta.
  split; [apply getOpenAIResponse_total|].
  split; [apply getApiKey_absent|].
  split; [apply getOpenAIResponse_noKey|].
  split; [intros; apply getOpenAIResponse_postThrows; assumption|].
  split; [intros r w' Hk Hp Hbad; exact (getOpenAIResponse_malformed _ _ _ _ _ r Hk Hp Hbad)|].
  split; [intros r w' content Hk Hp Hc;
          exact (getOpenAIResponse_content _ _ _ _ _ r content Hk Hp Hc)|].
  split; [apply errorReply_cases|].
  apply getOpenAIResponse_returns.
Qed.

End Completion.

(** ** Stepping through port calls *)

Section Steps.

Import Port.

Definition logged (e : event) (w : world) : world := setTrace (e :: w_trace w) w.

(** A port call either returns or throws; both record the call. *)
Lemma call_cases (e : event) (w : world) :
  call e w = (Ok tt, logged e w) \/ exists err, call e w = (Throw err, logged e w).
Proof.
  unfold call, logged. destruct (fails (w_env w) (e :: w_trace w)) as [err|].
  - right. exists err. reflexivity.
  - left. reflexivity.
Qed.

Lemma call_inv (e : event) (w w' : world) (r : result unit) :
  call e w = (r, w') -> w' = logged e w.
Proof.
  destruct (call_cases e w) as [E | [err E]]; rewrite E; intros [= _ <-]; reflexivity.
Qed.

Lemma call_ok_inv (e : event) (w w' : world) (u : unit) :
  call e w = (Ok u, w') -> w' = logged e w.
Proof. apply call_inv. Qed.

End Steps.

(** Case analysis on the next port call of a computation in the goal or
    in a hypothesis. *)
(** An array of one entry fits a range of one cell. *)
Lemma fits_cell {A} (sh : string) (r c : nat) (x : A) :
  Port.fits (Range sh r c 1 1) [[x]] = true.
Proof. reflexivity. Qed.

Ltac unfold_exec :=
  cbv beta iota delta [bind tryCatch ret throw gets modify Port.run Port.sync when].

Ltac step_goal :=
  match goal with
  | |- context [call ?e ?w] =>
      let E := fresh "E" in
      let err := fresh "err" in
      destruct (call_cases e w) as [E | [err E]]; rewrite E; cbv beta iota;
      rewrite ?fits_cell; cbv beta iota
  end.

Ltac step_in H :=
  match type of H with
  | context [call ?e ?w] =>
      let E := fresh "E" in
      let err := fresh "err" in
      destruct (call_cases e w) as [E | [err E]]; rewrite E in H; cbv beta iota in H;
      rewrite ?fits_cell in H; cbv beta iota in H
  end.

(** The test of the size of an array, both ways. *)
Ltac step_fits :=
  match goal with
  | |- context [if Port.fits ?rg ?g then _ else _] =>
      let Efit := fresh "Efit" in
      destruct (Port.fits rg g) eqn:Efit; cbv beta iota
  end.

(** ** Worksheet creation (specification, section 4.5) *)

Section WorksheetCreation.

Import Js Port ExcelService.

(** The end of [createWorksheet] for the sheet [s]: it is returned when
    its activation and the last [sync] succeed; when one of them throws,
    the outer [catch] returns [null]. *)
Definition finished (s : string) (w : world) : result (option string) * world :=
  match activateAndSync s w with
  | (Ok r, w') => (Ok r, w')
  | (Throw _, w') => (Ok None, w')
  end.

Lemma createWorksheet_first name w w0 w1 s w2 :
  call ERun w = (Ok tt, w0) -> sync w0 = (Ok tt, w1) ->
  reuseOrAdd (sheetNames (sheets (w_book w1))) name w1 = (Ok s, w2) ->
  createWorksheet name w = finished s w2.
Proof.
  intros Hrun Hsync H1.
  cbv beta iota delta [createWorksheet run tryCatch bind ret worksheetNames gets finished].
  rewrite Hrun. cbv beta iota. rewrite Hsync. cbv beta iota. rewrite H1. reflexivity.
Qed.

Lemma createWorksheet_second name w w0 w1 e1 w2 s w3 :
  call ERun w = (Ok tt, w0) -> sync w0 = (Ok tt, w1) ->
  reuseOrAdd (sheetNames (sheets (w_book w1))) name w1 = (Throw e1, w2) ->
  addUnique name w2 = (Ok s, w3) ->
  createWorksheet name w = finished s w3.
Proof.
  intros Hrun Hsync H1 H2.
  cbv beta iota delta [createWorksheet run tryCatch bind ret worksheetNames gets finished].
  rewrite Hrun. cbv beta iota. rewrite Hsync. cbv beta iota. rewrite H1. cbv beta iota.
  rewrite H2. reflexivity.
Qed.

Lemma createWorksheet_third name w w0 w1 e1 w2 e2 w3 s w4 :
  call ERun w = (Ok tt, w0) -> sync w0 = (Ok tt, w1) ->
  reuseOrAdd (sheetNames (sheets (w_book w1))) name w1 = (Throw e1, w2) ->
  addUnique name w2 = (Throw e2, w3) ->
  addAtStart name w3 = (Ok s, w4) ->
  createWorksheet name w = finished s w4.
Proof.
  intros Hrun Hsync H1 H2 H3.
  cbv beta iota delta [createWorksheet run tryCatch bind ret worksheetNames gets finished].
  rewrite Hrun. cbv beta iota. rewrite Hsync. cbv beta iota. rewrite H1. cbv beta iota.
  rewrite H2. cbv beta iota. rewrite H3. reflexivity.
Qed.

Lemma createWorksheet_exhausted name w w0 w1 e1 w2 e2 w3 e3 w4 :
  call ERun w = (Ok tt, w0) -> sync w0 = (Ok tt, w1) ->
  reuseOrAdd (sheetNames (sheets (w_book w1))) name w1 = (Throw e1, w2) ->
  addUnique name w2 = (Throw e2, w3) ->
  addAtStart name w3 = (Throw e3, w4) ->
  createWorksheet name w = (Ok None, w4).
Proof.
  intros Hrun Hsync H1 H2 H3.
  cbv beta iota delta [createWorksheet run tryCatch bind ret worksheetNames gets finished].
  rewrite Hrun. cbv beta iota. rewrite Hsync. cbv beta iota. rewrite H1. cbv beta iota.
  rewrite H2. cbv beta iota. rewrite H3. reflexivity.
Qed.








End WorksheetCreation.

(** ** Reading back what was written *)

Section Sheets.

Import Port.

Lemma cellValue_putValue_eq (r c : nat) (v : scalar) (sh : sheet) :
  cellValue (putValue r c v sh) r c = v.
Proof. unfold cellValue, putValue. rewrite lookup_insert_eq. reflexivity. Qed.

Lemma cellValue_putValue_ne (r c r' c' : nat) (v : scalar) (sh : sheet) :
  (r, c) <> (r', c') -> cellValue (putValue r c v sh) r' c' = cellValue sh r' c'.
Proof.
  intros Hne. unfold cellValue, putValue. rewrite lookup_insert_ne by exact Hne. reflexivity.
Qed.

(** A row written from column [c] on leaves the columns before [c] and
    the other rows as they were. *)
Lemma cellValue_writeRow_other (row : list scalar) (r c r' c' : nat) (sh : sheet) :
  r' <> r \/ (c' < c)%nat ->
  cellValue (writeRow r c row sh) r' c' = cellValue sh r' c'.
Proof.
  revert c sh. induction row as [|v row IH]; intros c sh Ho; [reflexivity|].
  cbn [writeRow]. rewrite IH by (destruct Ho; [left; assumption | right; lia]).
  apply cellValue_putValue_ne. intros [= -> ->]. destruct Ho; [congruence | lia].
Qed.

Lemma cellValue_writeRow_in (row : list scalar) (r c j : nat) (v : scalar) (sh : sheet) :
  row !! j = Some v -> cellValue (writeRow r c row sh) r (c + j) = v.
Proof.
  revert c j sh. induction row as [|v0 row IH]; intros c j sh Hj.
  - rewrite lookup_nil in Hj. discriminate.
  - cbn [writeRow]. destruct j as [|j].
    + cbn in Hj. injection Hj as ->. rewrite Nat.add_0_r.
      rewrite cellValue_writeRow_other by (right; lia).
      apply cellValue_putValue_eq.
    + cbn in Hj. replace (c + S j)%nat with (S c + j)%nat by lia.
      apply IH. exact Hj.
Qed.

(** A grid written from row [r] on leaves the rows before [r]. *)
Lemma cellValue_writeGrid_above (g : grid) (r c r' c' : nat) (sh : sheet) :
  (r' < r)%nat -> cellValue (writeGrid r c g sh) r' c' = cellValue sh r' c'.
Proof.
  revert r sh. induction g as [|row g IH]; intros r sh Hlt; [reflexivity|].
  cbn [writeGrid]. rewrite IH by lia.
  apply cellValue_writeRow_other. left. lia.
Qed.

Lemma cellValue_writeGrid_in (g : grid) (r c i j : nat) (v : scalar) (sh : sheet) :
  at2 g i j = Some v -> cellValue (writeGrid r c g sh) (r + i) (c + j) = v.
Proof.
  revert r i sh. induction g as [|row g IH]; intros r i sh Hv.
  - unfold at2 in Hv. rewrite lookup_nil in Hv. discriminate.
  - cbn [writeGrid]. destruct i as [|i].
    + unfold at2 in Hv. cbn in Hv. rewrite Nat.add_0_r.
      rewrite cellValue_writeGrid_above by lia.
      apply cellValue_writeRow_in. exact Hv.
    + replace (r + S i)%nat with (S r + i)%nat by lia.
      apply IH. exact Hv.
Qed.

(** A grid is [rows] by [cols]. *)
Definition rectangular (g : grid) (rows cols : nat) : Prop :=
  length g = rows /\ forall row, row ∈ g -> length row = cols.

Lemma readRange_rectangular (sh : sheet) (r c rows cols : nat) :
  rectangular (readRange sh r c rows cols) rows cols.
Proof.
  unfold rectangular, readRange. split.
  - rewrite length_map, length_seq. reflexivity.
  - intros row Hin. apply list_elem_of_fmap in Hin. destruct Hin as [i [-> _]].
    rewrite length_map, length_seq. reflexivity.
Qed.

(** Round trip: a rectangular grid written at a cell is read back from
    the range of its size at that cell. *)
Lemma readRange_writeGrid (g : grid) (r c rows cols : nat) (sh : sheet) :
  rectangular g rows cols ->
  readRange (writeGrid r c g sh) r c rows cols = g.
Proof.
  intros [Hrows Hcols]. apply list_eq. intros i. unfold readRange.
  rewrite list_lookup_fmap.
  destruct (decide (i < rows)%nat) as [Hi|Hi].
  - rewrite (lookup_seq_lt 0 rows i Hi). cbn [fmap option_fmap option_map].
    destruct (lookup_lt_is_Some_2 g i ltac:(lia)) as [row Hrow].
    rewrite Hrow. f_equal.
    assert (Hlen : length row = cols).
    { apply Hcols. apply list_elem_of_lookup. exists i. exact Hrow. }
    apply list_eq. intros j. rewrite list_lookup_fmap.
    destruct (decide (j < cols)%nat) as [Hj|Hj].
    + rewrite (lookup_seq_lt 0 cols j Hj). cbn [fmap option_fmap option_map].
      destruct (lookup_lt_is_Some_2 row j ltac:(lia)) as [v Hv].
      rewrite Hv. f_equal. cbn [Nat.add].
      apply cellValue_writeGrid_in. unfold at2. rewrite Hrow. exact Hv.
    + rewrite (lookup_seq_ge 0 cols j) by lia. cbn.
      symmetry. apply lookup_ge_None. lia.
  - rewrite (lookup_seq_ge 0 rows i) by lia. cbn.
    symmetry. apply lookup_ge_None. lia.
Qed.

End Sheets.

(** ** The pivot table cascade (specification, section 4.5) *)

Section PivotFallback.

Import Js Port ExcelService.
Context `{Engine}.

Lemma lookupSheet_updateSheet (name s : string) (f : sheet -> sheet)
  (l : list (string * sheet)) :
  lookupSheet s (updateSheet name f l)
  = if String.eqb s name then f <$> lookupSheet s l else lookupSheet s l.
Proof.
  unfold lookupSheet, updateSheet.
  induction l as [|[n sh] l IH]; cbn [map List.find fst snd].
  - destruct (String.eqb s name); reflexivity.
  - destruct (String.eqb n name) eqn:En; cbn [fst snd].
    + apply String.eqb_eq in En. subst n.
      destruct (String.eqb name s) eqn:Es.
      * apply String.eqb_eq in Es. subst s. rewrite String.eqb_refl. reflexivity.
      * rewrite IH. reflexivity.
    + destruct (String.eqb n s) eqn:Es.
      * apply String.eqb_eq in Es. subst s. rewrite En. reflexivity.
      * exact IH.
Qed.

Lemma parse_A1 : Address.parse "A1" = Some (0, 0, 1, 1)%nat.
Proof. reflexivity. Qed.

Lemma parse_A3 : Address.parse "A3" = Some (2, 0, 1, 1)%nat.
Proof. reflexivity. Qed.

(** The values that [createPivotTable] loads are those of a range: a
    rectangular grid of the size of the source range. *)
Lemma pivotPrepare_rectangular dataRange destinationSheet (w0 w1 : world) (s : pivotSetup) :
  pivotPrepare dataRange destinationSheet w0 = (Ok (Some s), w1) ->
  rectangular (ps_values s) (rg_rows (ps_sourceRange s)) (rg_cols (ps_sourceRange s))
  /\ ps_pivotDestination s = Range (ps_pivotSheet s) 2 0 1 1.
Proof.
  unfold pivotPrepare, getActiveWorksheet, getRange, values. unfold_exec.
  intros Hp.
  step_in Hp; [|discriminate].
  step_in Hp; [|discriminate].
  destruct (Address.parse dataRange) as [[[[r c] rows] cols]|]; [|discriminate].
  step_in Hp; [|discriminate].
  match type of Hp with
  | context [lookupSheet ?n ?l] => destruct (lookupSheet n l) as [sh|]; [|discriminate]
  end.
  match type of Hp with
  | context [createWorksheet ?n ?w] => destruct (createWorksheet n w) as [[[ps|]|e] w'] end;
    try discriminate.
  step_in Hp; [|discriminate].
  step_in Hp; [|discriminate].
  rewrite parse_A3 in Hp. injection Hp as <- <-. cbn [ps_values ps_sourceRange rg_rows rg_cols].
  split; [apply readRange_rectangular | reflexivity].
Qed.

(** The arrays that fit a single cell. *)
Lemma fits_one_cell {A} (sh : string) (r c : nat) (g : list (list A)) :
  fits (Range sh r c 1 1) g = true <-> exists v, g = [[v]].
Proof.
  unfold fits. cbn [rg_rows rg_cols]. split.
  - intros Hf. apply andb_true_iff in Hf. destruct Hf as [Hl Hr].
    destruct g as [|row [|row' g']]; try discriminate.
    cbn [forallb] in Hr. rewrite andb_true_r in Hr.
    destruct row as [|v [|v' row']]; try discriminate.
    exists v. reflexivity.
  - intros [v ->]. reflexivity.
Qed.

(** The fallback, when it does not throw, was given the value of a
    single cell: it has written it at A1 of the new sheet and asked for
    a table with a header row. *)
Lemma fallbackTable_ok (sourceRange : range) (vals : grid) (pivotSheet : string)
  (w2 w3 : world) (b : bool) :
  fallbackTable sourceRange vals pivotSheet w2 = (Ok b, w3) ->
  b = true
  /\ (exists v, vals = [[v]])
  /\ (exists sh2, lookupSheet pivotSheet (sheets (w_book w2)) = Some sh2
                  /\ lookupSheet pivotSheet (sheets (w_book w3))
                     = Some (writeGrid 0 0 vals sh2))
  /\ w_trace w3
     = [ESync; ESetTableName "DataTable";
        ETablesAdd (Range pivotSheet 0 0 (1 + (rg_rows sourceRange - 1))
                          (1 + (rg_cols sourceRange - 1))) true;
        ESetValues (Range pivotSheet 0 0 1 1) vals;
        EGetRange pivotSheet "A1"] ++ w_trace w2.
Proof.
  unfold fallbackTable, getRange, setValues, onSheet, getResizedRange. unfold_exec.
  intros Hf.
  step_in Hf; [|discriminate].
  rewrite parse_A1 in Hf.
  step_in Hf; [|discriminate].
  destruct (fits (Range pivotSheet 0 0 1 1) vals) eqn:Efit; [|discriminate].
  cbn [rg_sheet rg_row rg_col rg_rows rg_cols logged setTrace w_book] in Hf.
  destruct (lookupSheet pivotSheet (sheets (w_book w2))) as [sh2|] eqn:Esh; [|discriminate].
  step_in Hf; [|discriminate].
  step_in Hf; [|discriminate].
  step_in Hf; [|discriminate].
  injection Hf as <- <-. split; [reflexivity|].
  split; [apply (fits_one_cell pivotSheet 0 0); exact Efit|].
  split; [|reflexivity].
  exists sh2. split; [reflexivity|].
  cbn [logged setTrace setBook w_book sheets].
  rewrite lookupSheet_updateSheet, String.eqb_refl, Esh. reflexivity.
Qed.

(** A grid of any other size does not fit the cell A1: the assignment
    is rejected, the fallback throws and the workbook is as it was. *)
Lemma fallbackTable_rejected (sourceRange : range) (vals : grid) (pivotSheet : string)
  (w2 : world) :
  (forall v, vals <> [[v]]) ->
  (exists e, fst (fallbackTable sourceRange vals pivotSheet w2) = Throw e)
  /\ w_book (snd (fallbackTable sourceRange vals pivotSheet w2)) = w_book w2.
Proof.
  intros Hne.
  assert (Efit : fits (Range pivotSheet 0 0 1 1) vals = false).
  { destruct (fits (Range pivotSheet 0 0 1 1) vals) eqn:E; [|reflexivity].
    apply fits_one_cell in E. destruct E as [v Hv]. destruct (Hne v Hv). }
  unfold fallbackTable, getRange, setValues. unfold_exec.
  step_goal; [|split; [eexists; reflexivity | reflexivity]].
  rewrite parse_A1.
  step_goal; [|split; [eexists; reflexivity | reflexivity]].
  rewrite Efit. split; [eexists; reflexivity | reflexivity].
Qed.

(** A rectangle that is not of one row and one column is not the value
    of a single cell. *)
Lemma rectangular_not_one_cell (g : grid) (rows cols : nat) :
  rectangular g rows cols -> (rows, cols) <> (1, 1)%nat -> forall v, g <> [[v]].
Proof.
  intros [Hl Hr] Hne v ->. apply Hne. cbn in Hl. subst rows. f_equal.
  symmetry. apply (Hr [v]). apply list_elem_of_here.
Qed.

(** C4: when the destination sheet has been created and the construction
    of the pivot table throws, [createPivotTable] runs the fallback and
    reports what it reports: success when the fallback goes through,
    failure when the fallback throws as well.  The fallback assigns the
    whole grid of the source to the single cell A1 of the new sheet.
    For a source that is not of one row and one column the assignment
    is rejected: the fallback throws, the operation reports failure, and
    the workbook is as the construction of the pivot table left it, so
    nothing is copied.  A fallback that goes through was given a source
    of one cell; it has copied its value to A1 (reading the range of the
    size of the source at A1 gives the source values back) and has asked
    for a table with a header row. *)
Theorem pivot_fallback
  (dataRange destinationSheet : string)
  (rowFields columnFields valueFields : option (list string))
  (w w0 w1 w2 : world) (s : pivotSetup) (e : error) :
  call ERun w = (Ok tt, w0) ->
  pivotPrepare dataRange destinationSheet w0 = (Ok (Some s), w1) ->
  pivotConstruction (ps_sourceRange s) (ps_values s) (ps_pivotSheet s)
                    (ps_pivotDestination s) rowFields columnFields valueFields w1
  = (Throw e, w2) ->
  let fallback := fallbackTable (ps_sourceRange s) (ps_values s) (ps_pivotSheet s) w2 in
  let outcome :=
    createPivotTable dataRange destinationSheet rowFields columnFields valueFields w in
  outcome
  = (match fst fallback with
     | Ok b => Ok b
     | Throw _ => Ok false
     end, snd fallback)
  /\ ((rg_rows (ps_sourceRange s), rg_cols (ps_sourceRange s)) <> (1, 1)%nat ->
      fst outcome = Ok false
      /\ w_book (snd outcome) = w_book w2)
  /\ (forall b w3,
        fallback = (Ok b, w3) ->
        b = true
        /\ (rg_rows (ps_sourceRange s), rg_cols (ps_sourceRange s)) = (1, 1)%nat
        /\ (exists sh3,
              lookupSheet (ps_pivotSheet s) (sheets (w_book w3)) = Some sh3
              /\ readRange sh3 0 0 (rg_rows (ps_sourceRange s)) (rg_cols (ps_sourceRange s))
                 = ps_values s)
        /\ w_trace w3
           = [ESync; ESetTableName "DataTable";
              ETablesAdd (Range (ps_pivotSheet s) 0 0
                                (1 + (rg_rows (ps_sourceRange s) - 1))
                                (1 + (rg_cols (ps_sourceRange s) - 1))) true;
              ESetValues (Range (ps_pivotSheet s) 0 0 1 1) (ps_values s);
              EGetRange (ps_pivotSheet s) "A1"] ++ w_trace w2).
Proof.
  intros Hrun Hprep Hcons fallback outcome.
  destruct (pivotPrepare_rectangular _ _ _ _ _ Hprep) as [Hrect _].
  assert (Hout : outcome
                 = (match fst fallback with
                    | Ok b => Ok b
                    | Throw _ => Ok false
                    end, snd fallback)).
  { subst outcome.
    cbv beta iota delta [createPivotTable run tryCatch bind ret].
    rewrite Hrun. cbv beta iota. rewrite Hprep. cbv beta iota. rewrite Hcons.
    cbv beta iota. subst fallback.
    destruct (fallbackTable (ps_sourceRange s) (ps_values s) (ps_pivotSheet s) w2)
      as [[b|e'] w3]; reflexivity. }
  split; [exact Hout|]. split.
  - intros Hsize. rewrite Hout. cbn [fst snd]. subst fallback.
    destruct (fallbackTable_rejected (ps_sourceRange s) (ps_values s) (ps_pivotSheet s) w2
                (rectangular_not_one_cell _ _ _ Hrect Hsize)) as [[e' He] Hb].
    rewrite He. split; [reflexivity | exact Hb].
  - intros b w3 Hf. subst fallback.
    apply fallbackTable_ok in Hf. destruct Hf as (Hb & [v Hv] & (sh2 & _ & Hsh3) & Ht).
    split; [exact Hb|].
    assert (Hsize : (rg_rows (ps_sourceRange s), rg_cols (ps_sourceRange s)) = (1, 1)%nat).
    { destruct Hrect as [Hl Hr]. rewrite Hv in Hl, Hr. cbn in Hl. rewrite <- Hl. f_equal.
      symmetry. apply (Hr [v]). apply list_elem_of_here. }
    split; [exact Hsize|]. split; [|exact Ht].
    exists (writeGrid 0 0 (ps_values s) sh2). split; [exact Hsh3|].
    apply readRange_writeGrid. exact Hrect.
Qed.

End PivotFallback.

(** ** The cells of the workbook *)

Section Cells.

Import Port.

(** The cell at a row and a column of a sheet, when it holds something. *)
Definition cellAt (w : world) (s : string) (r c : nat) : option cell :=
  match lookupSheet s (sheets (w_book w)) with
  | Some sh => sh !! (r, c)
  | None => None
  end.

Lemma cellAt_logged (e : event) (w : world) (s : string) (r c : nat) :
  cellAt (logged e w) s r c = cellAt w s r c.
Proof. reflexivity. Qed.

(** The world after [onSheet name f] went through. *)
Definition edited (name : string) (f : sheet -> sheet) (w : world) : world :=
  setBook (Workbook (updateSheet name f (sheets (w_book w)))
                    (active (w_book w)) (selection (w_book w))) w.

Lemma onSheet_cases (name : string) (f : sheet -> sheet) (w : world) :
  (exists sh, lookupSheet name (sheets (w_book w)) = Some sh
              /\ onSheet name f w = (Ok tt, edited name f w))
  \/ (lookupSheet name (sheets (w_book w)) = None
      /\ onSheet name f w = (Throw (portError "ItemNotFound"), w)).
Proof.
  unfold onSheet, edited.
  destruct (lookupSheet name (sheets (w_book w))) as [sh|].
  - left. exists sh. split; reflexivity.
  - right. split; reflexivity.
Qed.

Lemma cellAt_edited_other (name : string) (f : sheet -> sheet) (w : world)
  (s : string) (r c : nat) :
  s <> name -> cellAt (edited name f w) s r c = cellAt w s r c.
Proof.
  intros Hne. unfold cellAt, edited. cbn [setBook w_book sheets].
  rewrite lookupSheet_updateSheet.
  destruct (String.eqb s name) eqn:E; [|reflexivity].
  apply String.eqb_eq in E. contradiction.
Qed.

Lemma cellAt_edited_same (name : string) (f : sheet -> sheet) (w : world) (r c : nat) :
  cellAt (edited name f w) name r c
  = match lookupSheet name (sheets (w_book w)) with
    | Some sh => f sh !! (r, c)
    | None => None
    end.
Proof.
  unfold cellAt, edited. cbn [setBook w_book sheets].
  rewrite lookupSheet_updateSheet, String.eqb_refl.
  destruct (lookupSheet name (sheets (w_book w))); reflexivity.
Qed.

Lemma lookup_putValue (r c r' c' : nat) (v : scalar) (sh : sheet) :
  putValue r c v sh !! (r', c')
  = if decide ((r, c) = (r', c')) then Some (Cell v (formatOf sh r c) None)
    else sh !! (r', c').
Proof. unfold putValue. apply lookup_insert. Qed.

Lemma lookup_putFormat (r c r' c' : nat) (fmt : string) (sh : sheet) :
  putFormat r c fmt sh !! (r', c')
  = if decide ((r, c) = (r', c'))
    then Some (Cell (cellValue sh r c) (Some fmt)
                    (match sh !! (r, c) with Some x => c_formula x | None => None end))
    else sh !! (r', c').
Proof. unfold putFormat. apply lookup_insert. Qed.

End Cells.

(** Worlds and ranges brought to their constructors. *)
Ltac norm_in H :=
  cbn [logged edited setTrace setBook w_book w_env w_trace w_ui sheets active selection
       rg_sheet rg_row rg_col rg_rows rg_cols fst snd] in H.

Ltac norm :=
  cbn [logged edited setTrace setBook w_book w_env w_trace w_ui sheets active selection
       rg_sheet rg_row rg_col rg_rows rg_cols fst snd].

(** ** The next-row sum *)

Section NextRow.

Import Num Port ExcelService AggregationSpec.
Local Open Scope float_scope.

(** The cell that the loop of [sumIntoNextRow] writes for a column. *)
Definition targetCell (value : number) : cell := Cell (SNum value) (Some "0.00") None.


(** One column of the writing loop: nothing but the target cell of the
    column changes; nothing at all changes when the sum is zero; and when
    the step goes through with a sum that is not zero, the target cell
    holds the sum in the two-decimal format. *)
Lemma writeColumnSum_spec (sel : range) (tr col : nat) (sum : number)
  (w1 w2 : world) (res : result unit) :
  writeColumnSum sel tr col sum w1 = (res, w2) ->
  active (w_book w2) = active (w_book w1)
  /\ (forall s r c,
        (s, r, c) <> (active (w_book w1), tr, (rg_col sel + col)%nat) ->
        cellAt w2 s r c = cellAt w1 s r c)
  /\ (PrimFloat.eqb sum 0 = true -> forall s r c, cellAt w2 s r c = cellAt w1 s r c)
  /\ (res = Ok tt -> PrimFloat.eqb sum 0 = false ->
      cellAt w2 (active (w_book w1)) tr (rg_col sel + col)%nat = Some (targetCell sum)).
Proof.
  unfold writeColumnSum, getActiveWorksheet, getCell, setValues, setNumberFormat.
  unfold_exec. intros Hw.
  step_in Hw; [|injection Hw as <- <-; conjuncts; auto; discriminate].
  step_in Hw; [|injection Hw as <- <-; conjuncts; auto; discriminate].
  norm_in Hw.
  set (a := active (w_book w1)) in *.
  set (tc := (rg_col sel + col)%nat) in *.
  destruct (PrimFloat.eqb sum 0) eqn:Ez; cbn [negb] in Hw.
  { injection Hw as <- <-. conjuncts; auto. discriminate. }
  step_in Hw; [|injection Hw as <- <-; conjuncts; auto; discriminate].
  norm_in Hw. unfold onSheet in Hw. norm_in Hw. fold a in Hw.
  destruct (lookupSheet a (sheets (w_book w1))) as [sh|] eqn:Hsh.
  2: { injection Hw as <- <-. conjuncts; auto; discriminate. }
  step_in Hw.
  { norm_in Hw. rewrite lookupSheet_updateSheet, String.eqb_refl, Hsh in Hw.
    cbn [fmap option_fmap option_map] in Hw. injection Hw as <- <-.
    split; [reflexivity|]. split; [|split; [discriminate|]].
    - intros s r c Hne. unfold cellAt at 1. norm.
      rewrite lookupSheet_updateSheet.
      destruct (String.eqb s a) eqn:Es.
      + apply String.eqb_eq in Es. subst s.
        rewrite lookupSheet_updateSheet, String.eqb_refl, Hsh.
        cbn [fmap option_fmap option_map writeGrid writeRow].
        rewrite lookup_putFormat, decide_False by congruence.
        rewrite lookup_putValue, decide_False by congruence.
        unfold cellAt. fold a. rewrite Hsh. reflexivity.
      + apply String.eqb_neq in Es.
        rewrite lookupSheet_updateSheet.
        destruct (String.eqb s a) eqn:Es'; [apply String.eqb_eq in Es'; contradiction|].
        reflexivity.
    - intros _ _. unfold cellAt. norm.
      rewrite !lookupSheet_updateSheet, String.eqb_refl, Hsh.
      cbn [fmap option_fmap option_map writeGrid writeRow].
      rewrite lookup_putFormat, decide_True by reflexivity.
      rewrite cellValue_putValue_eq.
      rewrite lookup_putValue, decide_True by reflexivity. reflexivity. }
  injection Hw as <- <-. split; [reflexivity|]. split; [|split; discriminate].
  intros s r c Hne. unfold cellAt at 1. norm.
  rewrite lookupSheet_updateSheet. unfold cellAt.
  destruct (String.eqb s a) eqn:Es; [|reflexivity].
  apply String.eqb_eq in Es. subst s. fold a. rewrite Hsh.
  cbn [fmap option_fmap option_map].
  rewrite lookup_putValue, decide_False by congruence. reflexivity.
Qed.

(** The cells that the loop over the pairs [l] of a column and its sum
    may write. *)
Definition isTarget (sel : range) (tr : nat) (l : list (nat * number))
  (s : string) (r c : nat) : Prop :=
  s = rg_sheet sel /\ r = tr
  /\ exists cs, cs ∈ l /\ c = (rg_col sel + fst cs)%nat /\ PrimFloat.eqb (snd cs) 0 = false.

Lemma writeLoop_spec (sel : range) (tr : nat) (l : list (nat * number)) :
  forall (w1 w2 : world) (res : result unit),
    forEach l (fun cs => writeColumnSum sel tr (fst cs) (snd cs)) w1 = (res, w2) ->
    active (w_book w1) = rg_sheet sel ->
    NoDup (l.*1) ->
    active (w_book w2) = rg_sheet sel
    /\ (forall s r c, ~ isTarget sel tr l s r c -> cellAt w2 s r c = cellAt w1 s r c)
    /\ (res = Ok tt ->
        forall cs, cs ∈ l -> PrimFloat.eqb (snd cs) 0 = false ->
                   cellAt w2 (rg_sheet sel) tr (rg_col sel + fst cs)%nat
                   = Some (targetCell (snd cs))).
Proof.
  induction l as [|cs l IH]; intros w1 w2 res Hrun Ha Hnd.
  - cbn in Hrun. injection Hrun as <- <-. split; [exact Ha|]. split; [reflexivity|].
    intros _ cs Hin. inversion Hin.
  - cbn [forEach] in Hrun. unfold bind in Hrun.
    destruct (writeColumnSum sel tr (fst cs) (snd cs) w1) as [[[]|e] wm] eqn:Hstep.
    + apply writeColumnSum_spec in Hstep. rewrite Ha in Hstep.
      destruct Hstep as (Ham & Hframe & Hzero & Hpos).
      apply NoDup_cons in Hnd. destruct Hnd as [Hnotin Hnd].
      destruct (IH wm w2 res Hrun Ham Hnd) as (Ha2 & Hframe2 & Hpos2).
      split; [exact Ha2|]. split.
      * intros s r c Hnt. rewrite Hframe2.
        -- destruct (PrimFloat.eqb (snd cs) 0) eqn:Ez; [apply Hzero; reflexivity|].
           apply Hframe. intros [= -> -> ->]. apply Hnt.
           split; [reflexivity|]. split; [reflexivity|].
           exists cs. split; [left|]. split; [reflexivity | exact Ez].
        -- intros (Hs & Hr & cs' & Hin & Hc & Hz). apply Hnt.
           split; [exact Hs|]. split; [exact Hr|].
           exists cs'. split; [right; exact Hin|]. split; assumption.
      * intros Hres cs' Hin Hz. apply elem_of_cons in Hin. destruct Hin as [-> | Hin].
        -- rewrite Hframe2; [apply Hpos; [reflexivity | exact Hz]|].
           intros (_ & _ & cs2 & Hin2 & Hc2 & _). apply Hnotin.
           apply list_elem_of_fmap. exists cs2. split; [|exact Hin2].
           exact (proj1 (Nat.add_cancel_l _ _ _) Hc2).
        -- apply Hpos2; assumption.
    + injection Hrun as <- <-.
      apply writeColumnSum_spec in Hstep. rewrite Ha in Hstep.
      destruct Hstep as (Ham & Hframe & Hzero & Hpos).
      split; [exact Ham|]. split; [|discriminate].
      intros s r c Hnt.
      destruct (PrimFloat.eqb (snd cs) 0) eqn:Ez; [apply Hzero; reflexivity|].
      apply Hframe. intros [= -> -> ->]. apply Hnt.
      split; [reflexivity|]. split; [reflexivity|].
      exists cs. split; [left|]. split; [reflexivity | exact Ez].
Qed.

Lemma imap_pairs_fst {A} (l : list A) (k : nat) :
  (imap (fun i x => ((k + i)%nat, x)) l).*1 = seq k (length l).
Proof.
  revert k. induction l as [|x l IH]; intros k; [reflexivity|].
  cbn [imap fmap list_fmap length seq fst]. rewrite Nat.add_0_r. f_equal.
  rewrite <- (IH (S k)). f_equal. apply imap_ext. intros i y _. cbn. f_equal. lia.
Qed.

(** The selection and its values, as [sumIntoNextRow] loads them. *)
Definition selectedValues (w : world) : option (range * grid) :=
  match selection (w_book w) with
  | Some (r, c, rows, cols) =>
      match lookupSheet (active (w_book w)) (sheets (w_book w)) with
      | Some sh => Some (Range (active (w_book w)) r c rows cols, readRange sh r c rows cols)
      | None => None
      end
  | None => None
  end.

(** The cell below the selection in column [col] of the selection is
    written: the sum of that column is not zero. *)
Definition written (sel : range) (vals : grid) (s : string) (r c : nat) : Prop :=
  s = rg_sheet sel /\ r = (rg_row sel + rg_rows sel)%nat
  /\ exists col, c = (rg_col sel + col)%nat /\ (col < rg_cols sel)%nat
                 /\ PrimFloat.eqb (sumCells (columnCells vals col)) 0 = false.

Lemma readRange_first_row (sh : sheet) (r c rows cols : nat) (row0 : list scalar) (rest : grid) :
  readRange sh r c rows cols = row0 :: rest -> length row0 = cols.
Proof.
  intros E. destruct (readRange_rectangular sh r c rows cols) as [_ Hc].
  apply Hc. rewrite E. left.
Qed.

Lemma sumIntoNextRow_spec (w : world) :
  (exists b, fst (sumIntoNextRow w) = Ok b)
  /\ (selectedValues w = None ->
      forall s r c, cellAt (snd (sumIntoNextRow w)) s r c = cellAt w s r c)
  /\ (forall sel vals,
        selectedValues w = Some (sel, vals) ->
        (forall s r c, ~ written sel vals s r c ->
                       cellAt (snd (sumIntoNextRow w)) s r c = cellAt w s r c)
        /\ (fst (sumIntoNextRow w) = Ok true ->
            forall col, (col < rg_cols sel)%nat ->
                        PrimFloat.eqb (sumCells (columnCells vals col)) 0 = false ->
                        cellAt (snd (sumIntoNextRow w)) (rg_sheet sel)
                               (rg_row sel + rg_rows sel) (rg_col sel + col)
                        = Some (targetCell (sumCells (columnCells vals col))))).
Proof.
  unfold sumIntoNextRow, getSelectedRange, values, selectedValues. unfold_exec.
  step_goal.
  2: { split; [eexists; reflexivity|]. split; [reflexivity|].
       intros sel vals _. split; [reflexivity | discriminate]. }
  step_goal.
  2: { split; [eexists; reflexivity|]. split; [reflexivity|].
       intros sel vals _. split; [reflexivity | discriminate]. }
  norm.
  destruct (selection (w_book w)) as [[[[r0 c0] rows] cols]|].
  2: { split; [eexists; reflexivity|]. split; [reflexivity|]. discriminate. }
  step_goal.
  2: { split; [eexists; reflexivity|]. split; [reflexivity|].
       intros sel vals _. split; [reflexivity | discriminate]. }
  norm.
  destruct (lookupSheet (active (w_book w)) (sheets (w_book w))) as [sh|] eqn:Hsh.
  2: { split; [eexists; reflexivity|]. split; [reflexivity|]. discriminate. }
  set (sel := Range (active (w_book w)) r0 c0 rows cols).
  destruct (readRange sh r0 c0 rows cols) as [|row0 rest] eqn:Hvals.
  { split; [eexists; reflexivity|]. split; [reflexivity|].
    intros sel' vals' _. split; [reflexivity | discriminate]. }
  rewrite <- Hvals.
  pose proof (readRange_first_row _ _ _ _ _ _ _ Hvals) as Hlen. rewrite Hlen.
  set (vals := readRange sh r0 c0 rows cols).
  set (l := imap (fun col s => (col, s)) (columnSumsOf vals cols)).
  set (w3 := logged ESync (logged EGetSelectedRange (logged ERun w))).
  destruct (forEach l (fun cs => writeColumnSum sel (r0 + rows) (fst cs) (snd cs)) w3)
    as [res w4] eqn:Hloop.
  assert (Hnd : NoDup (l.*1)).
  { subst l. rewrite (imap_ext _ (fun i x => ((0 + i)%nat, x))) by reflexivity.
    rewrite imap_pairs_fst. apply NoDup_seq. }
  destruct (writeLoop_spec sel (r0 + rows) l w3 w4 res Hloop eq_refl Hnd)
    as (Ha4 & Hframe & Hpos).
  assert (Hin : forall col sum, (col, sum) ∈ l <->
                                (col < cols)%nat /\ sum = sumCells (columnCells vals col)).
  { intros col sum. subst l. rewrite elem_of_lookup_imap. split.
    - intros (i & y & [= -> ->] & Hy).
      assert (i < cols)%nat as Hi.
      { apply lookup_lt_Some in Hy. rewrite columnSumsOf_length in Hy. exact Hy. }
      rewrite (columnSumsOf_lookup vals cols i Hi) in Hy. injection Hy as <-. auto.
    - intros [Hi ->]. exists col, (sumCells (columnCells vals col)).
      split; [reflexivity|]. apply columnSumsOf_lookup. exact Hi. }
  assert (Hframe' : forall s r c, ~ written sel vals s r c -> cellAt w4 s r c = cellAt w s r c).
  { intros s r c Hnw. rewrite Hframe; [reflexivity|].
    intros (Hs & Hr & [col sum] & Hcs & Hc & Hz). apply Hnw.
    apply Hin in Hcs. destruct Hcs as [Hi ->]. cbn [fst snd] in *.
    split; [exact Hs|]. split; [exact Hr|]. exists col. auto. }
  destruct res as [[]|e].
  2: { split; [eexists; reflexivity|]. split; [discriminate|].
       intros sel' vals' [= <- <-]. split; [exact Hframe' | discriminate]. }
  step_goal.
  2: { split; [eexists; reflexivity|]. split; [discriminate|].
       intros sel' vals' [= <- <-]. split; [exact Hframe' | discriminate]. }
  split; [eexists; reflexivity|]. split; [discriminate|].
  intros sel' vals' [= <- <-]. split; [exact Hframe'|].
  intros _ col Hi Hz. norm.
  apply (Hpos eq_refl (col, sumCells (columnCells vals col))); [|exact Hz].
  apply Hin. auto.
Qed.

(** C10: [sumIntoNextRow] writes only below the selection, and only under
    the columns whose sum is not zero.  Every cell that is not the cell
    below the selection of a column with a sum other than zero is left as
    it was: in particular every cell outside the row below the selection,
    every cell of another sheet, and the cell under each column whose
    cells sum to zero (a column of text among them).  When the operation
    reports success, the cell under each column with a sum other than zero
    holds that sum in the two-decimal format.  The operation never throws,
    and without a selection it changes no cell. *)
Theorem sumIntoNextRow_frame (w : world) :
  (exists b, fst (sumIntoNextRow w) = Ok b)
  /\ (selectedValues w = None ->
      forall s r c, cellAt (snd (sumIntoNextRow w)) s r c = cellAt w s r c)
  /\ (forall sel vals,
        selectedValues w = Some (sel, vals) ->
        let w' := snd (sumIntoNextRow w) in
        let targetRow := (rg_row sel + rg_rows sel)%nat in
        (forall s r c, ~ written sel vals s r c -> cellAt w' s r c = cellAt w s r c)
        /\ (forall s r c, r <> targetRow -> cellAt w' s r c = cellAt w s r c)
        /\ (forall s r c, s <> rg_sheet sel -> cellAt w' s r c = cellAt w s r c)
        /\ (forall col,
              PrimFloat.eqb (sumCells (columnCells vals col)) 0 = true ->
              cellAt w' (rg_sheet sel) targetRow (rg_col sel + col)
              = cellAt w (rg_sheet sel) targetRow (rg_col sel + col))
        /\ (fst (sumIntoNextRow w) = Ok true ->
            forall col, (col < rg_cols sel)%nat ->
                        PrimFloat.eqb (sumCells (columnCells vals col)) 0 = false ->
                        cellAt w' (rg_sheet sel) targetRow (rg_col sel + col)
                        = Some (targetCell (sumCells (columnCells vals col))))).
Proof.
  destruct (sumIntoNextRow_spec w) as (Htotal & Hnone & Hsome).
  split; [exact Htotal|]. split; [exact Hnone|].
  intros sel vals Hsel w' targetRow.
  destruct (Hsome sel vals Hsel) as [Hframe Hpos].
  split; [exact Hframe|].
  split; [intros s r c Hr; apply Hframe; intros (_ & Hr' & _); contradiction|].
  split; [intros s r c Hs; apply Hframe; intros (Hs' & _); contradiction|].
  split; [|exact Hpos].
  intros col Hz. apply Hframe.
  intros (_ & _ & col' & Hc & _ & Hz').
  apply Nat.add_cancel_l in Hc. subst col'. rewrite Hz in Hz'. discriminate.
Qed.

End NextRow.

(** ** Classification (specification, section 4.1)

    The ordered table of rules 1 to 5, in the words of the
    specification, against the chain of [handleSend]. *)

Module ClassifierSpec.

Import ExcelService App.

Inductive rule : Type := Sum | ColumnSum | PivotTable | Chart | Formula.

(** The rules in their order of precedence. *)
Definition ordered : list rule := [Sum; ColumnSum; PivotTable; Chart; Formula].

Definition rank (r : rule) : nat :=
  match r with
  | Sum => 1
  | ColumnSum => 2
  | PivotTable => 3
  | Chart => 4
  | Formula => 5
  end.

Definition predicate (r : rule) (input : string) (selectedData : option ExcelData) : bool :=
  match r with
  | Sum => sumCond input selectedData
  | ColumnSum => columnSumCond input selectedData
  | PivotTable => pivotCond input selectedData
  | Chart => chartCond input selectedData
  | Formula => formulaCond input selectedData
  end.

Definition action `{Engine} (r : rule) (input : string) (selectedData : option ExcelData)
  : M bool :=
  match r with
  | Sum => sumRule
  | ColumnSum => columnSumRule input selectedData
  | PivotTable => pivotRule selectedData
  | Chart => chartRule input selectedData
  | Formula => formulaRule input
  end.

(** The first rule of the table whose predicate matches. *)
Definition firstMatch (input : string) (selectedData : option ExcelData) : option rule :=
  List.find (fun r => predicate r input selectedData) ordered.

End ClassifierSpec.

Section Classification.

Import Js ExcelService App ClassifierSpec.
Context `{Engine}.

Lemma firstChain_firstMatch (input : string) (selectedData : option ExcelData) :
  firstChain input selectedData
  = match firstMatch input selectedData with
    | Some r => action r input selectedData
    | None => ret false
    end.
Proof.
  unfold firstChain, firstMatch, ordered. cbn [List.find predicate].
  destruct (sumCond input selectedData); [reflexivity|].
  destruct (columnSumCond input selectedData); [reflexivity|].
  destruct (pivotCond input selectedData); [reflexivity|].
  destruct (chartCond input selectedData); [reflexivity|].
  destruct (formulaCond input selectedData); reflexivity.
Qed.

Lemma firstMatch_earliest (input : string) (selectedData : option ExcelData) (r : rule) :
  firstMatch input selectedData = Some r <->
  predicate r input selectedData = true
  /\ forall r', (rank r' < rank r)%nat -> predicate r' input selectedData = false.
Proof.
  unfold firstMatch, ordered. cbn [List.find predicate]. split.
  - intros Hf.
    destruct (sumCond input selectedData) eqn:E1.
    { injection Hf as <-. split; [exact E1|]. intros [] Hr; cbn in Hr; lia. }
    destruct (columnSumCond input selectedData) eqn:E2.
    { injection Hf as <-. split; [exact E2|]. intros [] Hr; cbn in Hr; try lia; assumption. }
    destruct (pivotCond input selectedData) eqn:E3.
    { injection Hf as <-. split; [exact E3|]. intros [] Hr; cbn in Hr; try lia; assumption. }
    destruct (chartCond input selectedData) eqn:E4.
    { injection Hf as <-. split; [exact E4|]. intros [] Hr; cbn in Hr; try lia; assumption. }
    destruct (formulaCond input selectedData) eqn:E5; [|discriminate].
    injection Hf as <-. split; [exact E5|]. intros [] Hr; cbn in Hr; try lia; assumption.
  - intros [Hp Hmin].
    pose proof (Hmin Sum) as H1. pose proof (Hmin ColumnSum) as H2.
    pose proof (Hmin PivotTable) as H3. pose proof (Hmin Chart) as H4.
    cbn [predicate rank] in H1, H2, H3, H4.
    destruct r; cbn [predicate rank] in *.
    + rewrite Hp. reflexivity.
    + rewrite H1 by lia. rewrite Hp. reflexivity.
    + rewrite H1, H2 by lia. rewrite Hp. reflexivity.
    + rewrite H1, H2, H3 by lia. rewrite Hp. reflexivity.
    + rewrite H1, H2, H3, H4 by lia. rewrite Hp. reflexivity.
Qed.

(** Without a snapshot no rule from 1 to 6 matches. *)
Lemma rules_need_snapshot (input : string) :
  firstMatch input None = None
  /\ firstChain input None = ret false
  /\ amountCostCond input None = false.
Proof.
  assert (Hf : firstMatch input None = None).
  { unfold firstMatch, ordered. cbn [List.find predicate].
    unfold sumCond, columnSumCond, pivotCond, chartCond, formulaCond. cbn [truthy].
    rewrite !andb_false_r. reflexivity. }
  split; [exact Hf|]. split.
  - rewrite firstChain_firstMatch, Hf. reflexivity.
  - unfold amountCostCond. cbn [truthy]. apply andb_false_r.
Qed.

(** C2, amended: rules 1 to 5 are first-match-wins: the chain runs the
    action of the first rule of the ordered table whose predicate matches,
    which is the rule that matches while no rule before it does, and runs
    nothing when none matches.  What follows the chain does not depend on
    what the chain did: rule 6 runs whenever the text contains both
    [amount] and [cost], whatever the case, and there is a snapshot; rule 7
    is the [else] branch of rule 6: it runs when the next-row phrase
    matches and rule 6 does not run, and nothing runs when neither does. *)
Theorem classification_precedence :
  forall (input : string) (selectedData : option ExcelData),
    firstChain input selectedData
    = match firstMatch input selectedData with
      | Some r => action r input selectedData
      | None => ret false
      end
    /\ (forall r,
          firstMatch input selectedData = Some r <->
          predicate r input selectedData = true
          /\ forall r', (rank r' < rank r)%nat -> predicate r' input selectedData = false)
    /\ amountCostCond input selectedData
       = (includes (toLowerCase input) "amount" && includes (toLowerCase input) "cost"
          && match selectedData with Some _ => true | None => false end)
    /\ (forall actionPerformed,
          amountCostCond input selectedData = true ->
          secondChain input selectedData actionPerformed
          = bind (amountCostRule selectedData)
                 (fun performed => ret (actionPerformed || performed)))
    /\ (forall actionPerformed,
          amountCostCond input selectedData = false -> nextRowCond input = true ->
          secondChain input selectedData actionPerformed
          = bind nextRowRule (fun performed => ret (actionPerformed || performed)))
    /\ (forall actionPerformed,
          amountCostCond input selectedData = false -> nextRowCond input = false ->
          secondChain input selectedData actionPerformed = ret actionPerformed).
Proof.
  intros input selectedData.
  split; [apply firstChain_firstMatch|].
  split; [intros r; apply firstMatch_earliest|].
  split; [reflexivity|].
  unfold secondChain.
  split; [intros ap ->; reflexivity|].
  split; [intros ap -> ->; reflexivity|].
  intros ap -> ->; reflexivity.
Qed.

End Classification.

(** ** The guards of the column sums *)

Section Guards.

Import Port ExcelService.
Context `{Engine}.

(** With fewer than two rows selected, [sumSpecificColumns] reports
    failure and changes no cell. *)
Lemma sumSpecificColumns_needs_data (columnNames : list scalar) (w : world)
  (sel : range) (vals : grid) :
  selectedValues w = Some (sel, vals) ->
  (length vals <= 1)%nat ->
  fst (sumSpecificColumns columnNames w) = Ok false
  /\ forall s r c, cellAt (snd (sumSpecificColumns columnNames w)) s r c = cellAt w s r c.
Proof.
  unfold selectedValues, sumSpecificColumns, getSelectedRange, values. unfold_exec.
  intros Hsel Hlen.
  step_goal; [|split; reflexivity].
  step_goal; [|split; reflexivity].
  norm.
  destruct (selection (w_book w)) as [[[[r0 c0] rows] cols]|]; [|discriminate].
  step_goal; [|split; reflexivity].
  norm.
  destruct (lookupSheet (active (w_book w)) (sheets (w_book w))) as [sh|]; [|discriminate].
  injection Hsel as <- <-.
  destruct (length (readRange sh r0 c0 rows cols) <=? 1)%nat eqn:Hle.
  - split; reflexivity.
  - apply Nat.leb_gt in Hle. lia.
Qed.

End Guards.

(** ** Worked examples *)

Section Examples.

Import Js Num Port ExcelService OpenAIService App.

(** An engine for the worked examples.  Its [numberToString] agrees with
    [Number::toString] on NaN, the infinities and the integers, which are
    the numbers the examples print. *)
Definition sampleNumberToString (x : float) : string :=
  match Prim2SF x with
  | S754_nan => "NaN"
  | S754_infinity false => "Infinity"
  | S754_infinity true => "-Infinity"
  | S754_zero _ => "0"
  | S754_finite s m e =>
      let z := if (0 <=? e)%Z then (Zpos m * 2 ^ e)%Z else (Zpos m / 2 ^ (- e))%Z in
      ((if s then "-" else "") ++ nToString (Z.to_N z))%string
  end.

#[local] Instance sampleEngine : Engine :=
  {| numberToString := sampleNumberToString; jsonStringify := fun _ => "[...]" |}.

(** An environment in which the calls that satisfy [p] throw. *)
Definition failWhen (p : event -> bool) (t : list event) : option error :=
  match t with
  | e :: _ => if p e then Some (portError "forced") else None
  | [] => None
  end.

Definition sampleReply : netResult := Resolved (Response (Some [Some (Text "Sure.")])).

Definition sampleEnv (fails : list event -> option error) : env :=
  Env fails (fun _ => sampleReply) 1700000000000%N (Config (Some "sk-test") None).

Definition greeting : Message :=
  Msg Assistant "Hello! I'm your Excel Assistant. Select some cells and ask me anything about Excel formulas, charts, or data analysis.".

(** A workbook with one sheet that holds the grid [g] from row [r] and
    column [c] on, a selection, and a text in the input box. *)
Definition sampleWorld (fails : list event -> option error) (g : grid) (r c : nat)
  (sel : option (nat * nat * nat * nat)) (input : string) : world :=
  World (sampleEnv fails)
        (Workbook [("Sheet1", writeGrid r c g ∅)] "Sheet1" sel)
        (Ui [greeting] None false input) [].

(** An environment in which no call throws. *)
Definition never (t : list event) : option error := None.

Definition ledger : grid :=
  [[SStr "Date"; SStr "Amount"; SStr "Notes"];
   [SStr "Jan 5"; SNum 10; SStr "rent"];
   [SStr "Jan 6"; SNum 20; SStr "food"];
   [SStr "Jan 7"; SNum 30; SStr "fuel"]].


(** The completion requests among the calls. *)
Definition posts (w : world) : list event :=
  List.filter (fun e => match e with EPost _ _ => true | _ => false end) (w_trace w).

(** The assistant said [content]. *)
Definition said (content : string) (w : world) : bool :=
  existsb (fun m => match m_role m, m_content m with
                    | Assistant, Text s => String.eqb s content
                    | _, _ => false
                    end) (messages (w_ui w)).

Definition sumColumnWorld : world :=
  sampleWorld never ledger 0 0 (Some (0, 0, 4, 3)%nat) "sum the amount column".

Definition ledgerSnapshot : ExcelData := MkExcelData "Sheet1!A1:C4" ledger true 3 4.

(** C1: on the input [sum the amount column], with the headers [Date],
    [Amount], [Notes] and the amounts 10, 20 and 30 selected at A1:C4, the
    snapshot is there and both the predicate of rule 1 and that of rule 2
    match, so the chain runs rule 1, the sum of the whole selection: 60 is
    written in the two-decimal format below the first column of the
    selection (row 4, column 0), the cell below the Amount column (row 4,
    column 1) stays empty, the reply is that of the whole-selection sum,
    and no completion request is made.  Rule 2 would have taken the name
    [amount] from the text, and [sumSpecificColumns] on that name writes
    the 60 below the Amount column. *)
Theorem sum_the_amount_column_is_rule1 :
  let input := "sum the amount column" in
  let w' := snd (handleSend sumColumnWorld) in
  fst (extractDataFromSelection sumColumnWorld) = Ok (Some ledgerSnapshot)
  /\ sumCond input (Some ledgerSnapshot) = true
  /\ columnSumCond input (Some ledgerSnapshot) = true
  /\ columnsToSumOf input (Some ledgerSnapshot) = [SStr "amount"]
  /\ cellAt w' "Sheet1" 4 0 = Some (targetCell 60%float)
  /\ cellAt w' "Sheet1" 4 1 = None
  /\ messages (w_ui w')
     = [greeting; Msg User input; Msg Assistant sumDoneMessage]
  /\ posts w' = []
  /\ cellAt (snd (sumSpecificColumns [SStr "amount"] sumColumnWorld)) "Sheet1" 4 1
     = Some (targetCell 60%float).
Proof. cbv zeta. conjuncts; vm_compute; reflexivity. Qed.

(** An environment in which the first call of the turn throws. *)
Definition transientFailure (t : list event) : option error :=
  match t with
  | [_] => Some (portError "busy")
  | _ => None
  end.

Definition noSnapshotWorld : world :=
  sampleWorld transientFailure ledger 0 0 (Some (0, 0, 4, 3)%nat) "next row".

(** C3: on the input [next row], when the first read of the selection
    throws, the snapshot is [null], and rule 7 runs all the same: the
    assistant announces the sums, [sumIntoNextRow] reads the selection
    itself and writes the sum of the Amount column below it, and the
    assistant confirms. *)
Theorem nextRow_runs_without_snapshot :
  let w' := snd (handleSend noSnapshotWorld) in
  fst (extractDataFromSelection noSnapshotWorld) = Ok None
  /\ nextRowCond "next row" = true
  /\ said nextRowStartMessage w' = true
  /\ said nextRowDoneMessage w' = true
  /\ cellAt w' "Sheet1" 4 1 = Some (targetCell 60%float)
  /\ posts w' = [].
Proof. cbv zeta. conjuncts; vm_compute; reflexivity. Qed.

Definition costs : grid :=
  [[SStr "Amount"; SStr "Cost"]; [SNum 10; SNum 1]; [SNum 20; SNum 2]].

Definition offsetWorld : world :=
  sampleWorld never costs 2 1 (Some (2, 1, 3, 2)%nat) "amount and cost".

(** C6: with the headers [Amount] and [Cost] and two data rows selected
    at B3:C5, on the input [amount and cost] rule 6 runs and writes the
    two sums to the addresses A4 and B4: the cells below the selection
    (row 5, columns 1 and 2) stay empty, the cell at row 3, column 0 left
    of the selection receives the sum of the amounts, and the first amount
    of the selection, at row 3, column 1, is replaced by the sum of the
    costs. *)
Theorem amountCost_targets_ignore_position :
  let w' := snd (handleSend offsetWorld) in
  fst (extractDataFromSelection offsetWorld)
  = Ok (Some (MkExcelData "Sheet1!B3:C5" costs false 2 3))
  /\ amountCostCond "amount and cost" (Some (MkExcelData "Sheet1!B3:C5" costs false 2 3)) = true
  /\ cellAt w' "Sheet1" 5 1 = None
  /\ cellAt w' "Sheet1" 5 2 = None
  /\ cellAt w' "Sheet1" 3 0 = Some (targetCell 30%float)
  /\ cellAt offsetWorld "Sheet1" 3 1 = Some (Cell (SNum 10%float) None None)
  /\ cellAt w' "Sheet1" 3 1 = Some (targetCell 3%float)
  /\ said "I've calculated the sums: Amount = 30, Cost = 3. The results are now in row 4." w'
     = true.
Proof. cbv zeta. conjuncts; vm_compute; reflexivity. Qed.

(** With the same selection at A1 the two sums are below their columns. *)
Example amountCost_targets_at_A1 :
  let w' := snd (handleSend (sampleWorld never costs 0 0 (Some (0, 0, 3, 2)%nat)
                                         "amount and cost")) in
  cellAt w' "Sheet1" 3 0 = Some (targetCell 30%float)
  /\ cellAt w' "Sheet1" 3 1 = Some (targetCell 3%float).
Proof. cbv zeta. conjuncts; vm_compute; reflexivity. Qed.

Definition bothWorld : world :=
  sampleWorld never costs 0 0 (Some (0, 0, 3, 2)%nat) "amount and cost in the next row".

(** C2, as stated, fails: on the input [amount and cost in the next row]
    with a selection, the next-row phrase matches and rule 6 runs, and
    rule 7 does not: the assistant never announces the next-row sums, and
    the only reply is that of rule 6. *)
Lemma nextRow_skipped_after_amountCost :
  let input := "amount and cost in the next row" in
  let w' := snd (handleSend bothWorld) in
  nextRowCond input = true
  /\ Regex.test nextRowPattern input = true
  /\ said nextRowStartMessage w' = false
  /\ said "I've calculated the sums: Amount = 30, Cost = 3. The results are now in row 4." w'
     = true
  /\ messages (w_ui w')
     = [greeting; Msg User input;
        Msg Assistant
            "I've calculated the sums: Amount = 30, Cost = 3. The results are now in row 4."].
Proof. cbv zeta. conjuncts; vm_compute; reflexivity. Qed.

Definition isPivotTablesAdd (e : event) : bool :=
  match e with
  | EPivotTablesAdd _ _ _ _ => true
  | _ => false
  end.

Definition pivotFailsWorld : world :=
  sampleWorld (failWhen isPivotTablesAdd) costs 0 0 (Some (0, 0, 3, 2)%nat)
              "create a pivot table".

Definition costsSetup : pivotSetup :=
  PivotSetup (Range "Sheet1" 0 0 3 2) costs "PivotTable" (Range "PivotTable" 2 0 1 1).

(** C4 at work: the construction of the pivot table is made to throw
    for a source of three rows and two columns.  The fallback assigns
    the six values to the cell A1 and is rejected: the operation reports
    failure, and the new sheet is there, active and empty. *)
Lemma pivot_fallback_rejects_costs :
  let outcome :=
    createPivotTable "Sheet1!A1:B3" "PivotTable" None None None pivotFailsWorld in
  fst outcome = Ok false
  /\ lookupSheet "PivotTable" (sheets (w_book (snd outcome))) = Some ∅
  /\ active (w_book (snd outcome)) = "PivotTable"
  /\ In (ESetValues (Range "PivotTable" 0 0 1 1) costs) (w_trace (snd outcome)).
Proof.
  cbv zeta.
  pose (w0 := snd (call ERun pivotFailsWorld)).
  pose (w1 := snd (pivotPrepare "Sheet1!A1:B3" "PivotTable" w0)).
  pose (w2 := snd (pivotConstruction (ps_sourceRange costsSetup) (ps_values costsSetup)
                                     (ps_pivotSheet costsSetup)
                                     (ps_pivotDestination costsSetup) None None None w1)).
  destruct (pivot_fallback "Sheet1!A1:B3" "PivotTable" None None None
                           pivotFailsWorld w0 w1 w2 costsSetup (portError "forced"))
    as (Hc & Hfail & _).
  - vm_compute. reflexivity.
  - vm_compute. reflexivity.
  - vm_compute. reflexivity.
  - destruct Hfail as [Hres Hbook]; [cbn; intros [=]|].
    split; [exact Hres|]. rewrite Hbook.
    split; [vm_compute; reflexivity|]. split; [vm_compute; reflexivity|].
    rewrite Hc. vm_compute. left. reflexivity.
Defined.

Definition isAddNamed (e : event) : bool :=
  match e with
  | EWorksheetsAdd (Some _) => true
  | _ => false
  end.

(** C5 at work: when adding a sheet by name is made to throw, the sheet
    is first tried under its name, then under the name suffixed with the
    clock, then at position 0, where it is created, and activated. *)
Example createWorksheet_forced_failures :
  let w := sampleWorld (failWhen isAddNamed) costs 0 0 (Some (0, 0, 3, 2)%nat) "" in
  fst (createWorksheet "Report" w) = Ok (Some "Report")
  /\ rev (w_trace (snd (createWorksheet "Report" w)))
     = [ERun; ESync; EWorksheetsAdd (Some "Report");
        EWorksheetsAdd (Some "Report_1700000000000");
        EWorksheetsAddAt "Report" "Before" 0; EActivate "Report"; ESync]
  /\ sheetNames (sheets (w_book (snd (createWorksheet "Report" w)))) = ["Report"; "Sheet1"].
Proof. cbv zeta. conjuncts; vm_compute; reflexivity. Qed.

(** C10 at work: only the Amount column has a sum other than zero. *)
Example sumIntoNextRow_ledger :
  let w := sampleWorld never ledger 0 0 (Some (0, 0, 4, 3)%nat) "" in
  let w' := snd (sumIntoNextRow w) in
  fst (sumIntoNextRow w) = Ok true
  /\ cellAt w' "Sheet1" 4 0 = None
  /\ cellAt w' "Sheet1" 4 1 = Some (targetCell 60%float)
  /\ cellAt w' "Sheet1" 4 2 = None.
Proof. cbv zeta. conjuncts; vm_compute; reflexivity. Qed.

(** Rule 6 has no guard on the number of rows: with the header row alone
    it writes two zeros below it. *)
Example amountCost_writes_with_one_row :
  let w := sampleWorld never [[SStr "Amount"; SStr "Cost"]] 0 0 (Some (0, 0, 1, 2)%nat)
                       "amount cost" in
  let w' := snd (handleSend w) in
  cellAt w' "Sheet1" 1 0 = Some (targetCell 0%float)
  /\ cellAt w' "Sheet1" 1 1 = Some (targetCell 0%float).
Proof. cbv zeta. conjuncts; vm_compute; reflexivity. Qed.

(** Without any selection the snapshot is [null] too; rule 7 still runs,
    fails, and says so. *)
Example nextRow_without_selection :
  let w := sampleWorld never ledger 0 0 None "next row" in
  let w' := snd (handleSend w) in
  fst (extractDataFromSelection w) = Ok None
  /\ said nextRowStartMessage w' = true
  /\ said nextRowFailedMessage w' = true
  /\ rev (map (fun e => match e with EPost _ _ => ESync | _ => e end) (w_trace w'))
     = [ERun; EGetSelectedRange; ERun; EGetSelectedRange; ESync].
Proof. cbv zeta. conjuncts; vm_compute; reflexivity. Qed.

(** With dates written as [2024-01-05] the whole-selection sum of rule 1
    takes their leading number in: 3 * 2024 + 60. *)
Example sum_with_iso_dates :
  let g := [[SStr "Date"; SStr "Amount"; SStr "Notes"];
            [SStr "2024-01-05"; SNum 10; SStr "rent"];
            [SStr "2024-01-06"; SNum 20; SStr "food"];
            [SStr "2024-01-07"; SNum 30; SStr "fuel"]] in
  let w' := snd (handleSend (sampleWorld never g 0 0 (Some (0, 0, 4, 3)%nat)
                                         "sum the amount column")) in
  cellAt w' "Sheet1" 4 0 = Some (targetCell 6132%float)
  /\ cellAt w' "Sheet1" 4 1 = None.
Proof. cbv zeta. conjuncts; vm_compute; reflexivity. Qed.

End Examples.

(** * Further properties of the executor and of the dispatch *)

(** ** Worlds and frames *)

Section Worlds.
Import Port.

Lemma w_book_logged e w : w_book (logged e w) = w_book w.
Proof. reflexivity. Qed.
Lemma w_ui_logged e w : w_ui (logged e w) = w_ui w.
Proof. reflexivity. Qed.
Lemma w_env_logged e w : w_env (logged e w) = w_env w.
Proof. reflexivity. Qed.
Lemma w_trace_logged e w : w_trace (logged e w) = e :: w_trace w.
Proof. reflexivity. Qed.
Lemma w_ui_edited n f w : w_ui (edited n f w) = w_ui w.
Proof. reflexivity. Qed.
Lemma w_env_edited n f w : w_env (edited n f w) = w_env w.
Proof. reflexivity. Qed.
Lemma w_trace_edited n f w : w_trace (edited n f w) = w_trace w.
Proof. reflexivity. Qed.
Lemma active_edited n f w : active (w_book (edited n f w)) = active (w_book w).
Proof. reflexivity. Qed.
Lemma selection_edited n f w : selection (w_book (edited n f w)) = selection (w_book w).
Proof. reflexivity. Qed.
Lemma sheets_edited n f w :
  sheets (w_book (edited n f w)) = updateSheet n f (sheets (w_book w)).
Proof. reflexivity. Qed.

Lemma cellAt_edited (name : string) (f : sheet -> sheet) (w : world) (s : string) (r c : nat) :
  cellAt (edited name f w) s r c
  = if String.eqb s name
    then match lookupSheet name (sheets (w_book w)) with
         | Some sh => f sh !! (r, c)
         | None => None
         end
    else cellAt w s r c.
Proof.
  destruct (String.eqb s name) eqn:E.
  - apply String.eqb_eq in E. subst s. apply cellAt_edited_same.
  - apply String.eqb_neq in E. apply cellAt_edited_other. exact E.
Qed.

(** Every cell but the one at row [r] and column [c] of sheet [s] is as
    it was. *)
Definition unchangedBut (s : string) (r c : nat) (w w' : world) : Prop :=
  forall s' r' c', (s', r', c') <> (s, r, c) -> cellAt w' s' r' c' = cellAt w s' r' c'.

(** Every cell is as it was. *)
Definition unchanged (w w' : world) : Prop :=
  forall s r c, cellAt w' s r c = cellAt w s r c.

Lemma unchanged_refl (w : world) : unchanged w w.
Proof. intros s r c. reflexivity. Qed.

Lemma unchanged_logged (e : event) (w w' : world) : unchanged w w' -> unchanged w (logged e w').
Proof. intros Hu s r c. rewrite cellAt_logged. apply Hu. Qed.

Lemma unchangedBut_weaken (s : string) (r c : nat) (w w' : world) : unchanged w w' -> unchangedBut s r c w w'.
Proof. intros Hu s' r' c' _. apply Hu. Qed.

Lemma unchangedBut_logged (s : string) (r c : nat) (e : event) (w w' : world) :
  unchangedBut s r c w w' -> unchangedBut s r c w (logged e w').
Proof. intros Hu s' r' c' Hne. rewrite cellAt_logged. apply Hu. exact Hne. Qed.

Lemma unchangedBut_edited (s : string) (r c : nat) (f : sheet -> sheet) (w w' : world) :
  (forall sh r' c', (r', c') <> (r, c) -> f sh !! (r', c') = sh !! (r', c')) ->
  unchangedBut s r c w w' -> unchangedBut s r c w (edited s f w').
Proof.
  intros Hf Hu s' r' c' Hne. rewrite cellAt_edited.
  destruct (String.eqb s' s) eqn:E; [|apply Hu; exact Hne].
  apply String.eqb_eq in E. subst s'.
  rewrite <- (Hu s r' c' Hne). unfold cellAt.
  destruct (lookupSheet s (sheets (w_book w'))) as [sh|]; [|reflexivity].
  apply Hf. intros [= -> ->]. apply Hne. reflexivity.
Qed.

Lemma putValue_other (r c : nat) (v : scalar) (sh : sheet) (r' c' : nat) :
  (r', c') <> (r, c) -> putValue r c v sh !! (r', c') = sh !! (r', c').
Proof. intros Hne. rewrite lookup_putValue, decide_False by congruence. reflexivity. Qed.

Lemma putFormat_other (r c : nat) (fmt : string) (sh : sheet) (r' c' : nat) :
  (r', c') <> (r, c) -> putFormat r c fmt sh !! (r', c') = sh !! (r', c').
Proof. intros Hne. rewrite lookup_putFormat, decide_False by congruence. reflexivity. Qed.

Lemma putFormula_other (r c : nat) (f : string) (sh : sheet) (r' c' : nat) :
  (r', c') <> (r, c) -> putFormula r c f sh !! (r', c') = sh !! (r', c').
Proof.
  intros Hne. unfold putFormula. rewrite lookup_insert_ne by congruence. reflexivity.
Qed.

(** The cell written by a value and then a format. *)
Lemma cellAt_value_format (s : string) (r c : nat) (v : scalar) (fmt : string)
  (e1 e2 : event) (w : world) (sh : sheet) :
  lookupSheet s (sheets (w_book w)) = Some sh ->
  cellAt (edited s (putFormat r c fmt) (logged e2 (edited s (putValue r c v) (logged e1 w)))) s r c
  = Some (Cell v (Some fmt) None).
Proof.
  intros Hsh. rewrite cellAt_edited, String.eqb_refl.
  rewrite w_book_logged, sheets_edited, lookupSheet_updateSheet, String.eqb_refl.
  rewrite w_book_logged, Hsh. cbn [fmap option_fmap option_map].
  rewrite lookup_putFormat, decide_True by reflexivity.
  rewrite cellValue_putValue_eq, lookup_putValue, decide_True by reflexivity. reflexivity.
Qed.

End Worlds.

Create Rewrite HintDb world.
#[global] Hint Rewrite w_book_logged w_ui_logged w_env_logged w_trace_logged
  w_ui_edited w_env_edited w_trace_edited active_edited selection_edited : world.

Ltac step_sheet :=
  match goal with
  | |- context [Port.onSheet ?n ?f ?w] =>
      let sh := fresh "sh" in
      let Hsh := fresh "Hsh" in
      let E := fresh "E" in
      destruct (onSheet_cases n f w) as [(sh & Hsh & E) | (Hsh & E)];
      rewrite E; cbv beta iota
  end.

Ltac step_sheet_in H :=
  match type of H with
  | context [Port.onSheet ?n ?f ?w] =>
      let sh := fresh "sh" in
      let Hsh := fresh "Hsh" in
      let E := fresh "E" in
      destruct (onSheet_cases n f w) as [(sh & Hsh & E) | (Hsh & E)];
      rewrite E in H; cbv beta iota in H
  end.

(** Frames of worlds built from [logged] and [edited]. *)
Ltac frame :=
  repeat first
    [ apply unchanged_refl
    | apply unchanged_logged
    | apply unchangedBut_logged
    | apply unchangedBut_edited;
      [ intros; cbn [Port.writeGrid Port.writeRow];
        first [apply putValue_other | apply putFormat_other | apply putFormula_other];
        assumption | ]
    | apply unchangedBut_weaken ].

(** ** The header test *)

Section Headers.
Import ExcelService.

Definition isString (v : scalar) : bool := match v with SStr _ => true | _ => false end.
Definition isNumber (v : scalar) : bool := match v with SNum _ => true | _ => false end.

(** How many of the values satisfy [p]. *)
Definition howMany (p : scalar -> bool) (l : list scalar) : nat := length (List.filter p l).

Lemma howMany_take_S (p : scalar -> bool) (l : list scalar) (k : nat) :
  howMany p (take (S k) l)
  = (howMany p (take k l) + match l !! k with Some v => if p v then 1 else 0 | None => 0 end)%nat.
Proof.
  unfold howMany. revert k. induction l as [|x l IH]; intros k.
  - rewrite !take_nil, lookup_nil. cbn. lia.
  - destruct k as [|k].
    + cbn. rewrite take_0. cbn. destruct (p x); reflexivity.
    + change (take (S (S k)) (x :: l)) with (x :: take (S k) l).
      change (take (S k) (x :: l)) with (x :: take k l).
      cbn [List.filter lookup list_lookup]. specialize (IH k).
      change ((x :: l) !! S k) with (l !! k).
      destruct (p x); cbn [length]; rewrite IH; reflexivity.
Qed.

Lemma headerCounts (firstRow secondRow : list scalar) (k : nat) :
  fold_left
    (fun (acc : nat * nat) (i : nat) =>
       (match typeof (firstRow !! i) with TString => S (fst acc) | _ => fst acc end,
        match typeof (secondRow !! i) with TNumber => S (snd acc) | _ => snd acc end))
    (seq 0 k) (0, 0)%nat
  = (howMany isString (take k firstRow), howMany isNumber (take k secondRow)).
Proof.
  induction k as [|k IH].
  - rewrite !take_0. reflexivity.
  - rewrite seq_S, fold_left_app, IH. cbn [fold_left fst snd Nat.add].
    rewrite !howMany_take_S. f_equal.
    + destruct (firstRow !! k) as [[]|]; cbn; lia.
    + destruct (secondRow !! k) as [[]|]; cbn; lia.
Qed.

Lemma howMany_all (p : scalar -> bool) (l : list scalar) :
  forallb p l = true -> howMany p l = length l.
Proof.
  unfold howMany. induction l as [|x l IH]; [reflexivity|].
  cbn. destruct (p x); [|discriminate]. cbn. intros Hl. rewrite IH by exact Hl. reflexivity.
Qed.

Lemma howMany_le (p : scalar -> bool) (l : list scalar) : (howMany p l <= length l)%nat.
Proof.
  unfold howMany. induction l as [|x l IH]; [reflexivity|].
  cbn. destruct (p x); cbn; lia.
Qed.

(** X1: the header test.  A grid of at most one row has no headers.
    Otherwise the first row is a header row exactly when its strings
    strictly outnumber the numbers that the second row holds at the
    positions of the first row; so a second row made of numbers only, as
    long as the first, never gives headers. *)
Theorem determineIfHasHeaders_strict :
  (forall values, (length values <= 1)%nat -> determineIfHasHeaders values = false)
  /\ (forall firstRow secondRow rest,
        determineIfHasHeaders (firstRow :: secondRow :: rest)
        = (howMany isNumber (take (length firstRow) secondRow)
           <? howMany isString firstRow)%nat)
  /\ (forall firstRow secondRow rest,
        length secondRow = length firstRow ->
        forallb isNumber secondRow = true ->
        determineIfHasHeaders (firstRow :: secondRow :: rest) = false).
Proof.
  assert (Hcount : forall firstRow secondRow rest,
             determineIfHasHeaders (firstRow :: secondRow :: rest)
             = (howMany isNumber (take (length firstRow) secondRow)
                <? howMany isString firstRow)%nat).
  { intros firstRow secondRow rest. unfold determineIfHasHeaders.
    rewrite headerCounts. cbn [fst snd]. rewrite firstn_all. reflexivity. }
  split; [|split; [exact Hcount|]].
  - intros [|r1 [|r2 rest]] Hlen; try reflexivity. cbn in Hlen. lia.
  - intros firstRow secondRow rest Hlen Hnum. rewrite Hcount.
    rewrite <- Hlen, firstn_all, (howMany_all _ _ Hnum), Hlen.
    apply Nat.ltb_ge. apply howMany_le.
Qed.
End Headers.

(** ** The candidates of the smart defaults *)

Section PivotDefaults.
Import Num ExcelService.

(** Column [i] goes to the value fields: among the sampled rows its
    numeric values outnumber the others. *)
Definition isValueField (vals : grid) (i : nat) : bool :=
  let '(numericCount, textCount) := sampleCounts vals (Nat.min 5 (length vals)) i in
  (textCount <? numericCount)%nat.

Lemma potentialFields_filter (vals : grid) (k : nat) :
  fold_left
    (fun (acc : list nat * list nat) (i : nat) =>
       let '(numericCount, textCount) := sampleCounts vals (Nat.min 5 (length vals)) i in
       if (textCount <? numericCount)%nat
       then (fst acc, snd acc ++ [i])
       else (fst acc ++ [i], snd acc))
    (seq 0 k) ([], [])
  = (List.filter (fun i => negb (isValueField vals i)) (seq 0 k),
     List.filter (isValueField vals) (seq 0 k)).
Proof.
  induction k as [|k IH]; [reflexivity|].
  rewrite seq_S, fold_left_app, IH. cbn [fold_left fst snd Nat.add].
  rewrite !List.filter_app. cbn [List.filter].
  pose proof (eq_refl (isValueField vals k)) as Ek. unfold isValueField at 2 in Ek.
  destruct (sampleCounts vals (Nat.min 5 (length vals)) k) as [n t].
  rewrite Ek. destruct (t <? n)%nat; cbn [negb]; rewrite ?app_nil_r; reflexivity.
Qed.

Lemma at2_take (vals : grid) (n row i : nat) :
  (row < n)%nat -> at2 (take n vals) row i = at2 vals row i.
Proof. intros Hlt. unfold at2. rewrite lookup_take_lt by exact Hlt. reflexivity. Qed.

Lemma sampleCounts_ext (vals vals' : grid) (sampleSize i : nat) :
  (forall row, (row < sampleSize)%nat -> at2 vals row i = at2 vals' row i) ->
  sampleCounts vals sampleSize i = sampleCounts vals' sampleSize i.
Proof.
  intros Hext. unfold sampleCounts.
  assert (Hin : forall row, In row (seq 1 (sampleSize - 1)) -> (row < sampleSize)%nat).
  { intros row Hin. apply in_seq in Hin. lia. }
  revert Hin. generalize (seq 1 (sampleSize - 1)). generalize ((0, 0)%nat).
  intros acc l. revert acc. induction l as [|row l IH]; intros acc Hin; [reflexivity|].
  cbn [fold_left]. rewrite (Hext row) by (apply Hin; left; reflexivity).
  apply IH. intros r Hr. apply Hin. right. exact Hr.
Qed.

Lemma sampleCounts_header_only (vals : grid) (sampleSize i : nat) :
  (sampleSize <= 1)%nat -> sampleCounts vals sampleSize i = (0, 0)%nat.
Proof.
  intros Hle. unfold sampleCounts.
  replace (sampleSize - 1)%nat with 0%nat by lia. reflexivity.
Qed.

Lemma potentialFields_header_only (vals : grid) (headerRow : list scalar) :
  (length vals <= 1)%nat ->
  potentialFields vals headerRow = (seq 0 (length headerRow), []).
Proof.
  intros Hlen. unfold potentialFields. rewrite potentialFields_filter.
  assert (Hv : forall i, isValueField vals i = false).
  { intros i. unfold isValueField. rewrite sampleCounts_header_only by lia. reflexivity. }
  f_equal.
  - rewrite (List.filter_ext _ (fun _ => true)) by (intros i; rewrite Hv; reflexivity).
    induction (seq 0 (length headerRow)) as [|x l IH]; [reflexivity|]. cbn. f_equal. exact IH.
  - rewrite (List.filter_ext _ (fun _ => false)) by (intros i; apply Hv).
    induction (seq 0 (length headerRow)) as [|x l IH]; [reflexivity|]. exact IH.
Qed.

(** X2: the candidates of the smart defaults.  Every column of the header
    row is either a value field, when among the sampled rows its numeric
    cells outnumber the others, or a row field; the indices are below the
    number of headers and none occurs twice; only the first five rows of
    the grid matter; and with the header row alone every column is a row
    field and none a value field. *)
Theorem potentialFields_partition (vals : grid) (headerRow : list scalar) :
  let rowFields := fst (potentialFields vals headerRow) in
  let valueFields := snd (potentialFields vals headerRow) in
  (forall i, (i < length headerRow)%nat ->
             (i ∈ valueFields <-> isValueField vals i = true)
             /\ (i ∈ rowFields <-> isValueField vals i = false))
  /\ (forall i, i ∈ rowFields ++ valueFields -> (i < length headerRow)%nat)
  /\ NoDup (rowFields ++ valueFields)
  /\ potentialFields vals headerRow = potentialFields (take 5 vals) headerRow
  /\ ((length vals <= 1)%nat ->
      rowFields = seq 0 (length headerRow) /\ valueFields = []).
Proof.
  unfold potentialFields. rewrite potentialFields_filter. cbn [fst snd].
  assert (Hmem : forall (p : nat -> bool) i n, i ∈ List.filter p (seq 0 n) <-> (i < n)%nat /\ p i = true).
  { intros p i n. rewrite list_elem_of_In, filter_In, in_seq. intuition lia. }
  split; [|split; [|split; [|split]]].
  - intros i Hi. rewrite !Hmem, negb_true_iff. split; split; try tauto; intros [_ Hv]; exact Hv.
  - intros i Hin. apply elem_of_app in Hin. rewrite !Hmem in Hin. tauto.
  - apply NoDup_app. split; [|split].
    + apply NoDup_ListNoDup, List.NoDup_filter, List.seq_NoDup.
    + intros i H1 H2. rewrite Hmem in H1, H2.
      destruct H1 as [_ H1], H2 as [_ H2]. rewrite H2 in H1. discriminate.
    + apply NoDup_ListNoDup, List.NoDup_filter, List.seq_NoDup.
  - rewrite potentialFields_filter.
    assert (Hv : forall i, isValueField (take 5 vals) i = isValueField vals i).
    { intros i. unfold isValueField. rewrite length_take.
      replace (Nat.min 5 (Nat.min 5 (length vals))) with (Nat.min 5 (length vals)) by lia.
      rewrite (sampleCounts_ext (take 5 vals) vals); [reflexivity|].
      intros row Hrow. apply at2_take. lia. }
    f_equal; apply List.filter_ext; intros i; rewrite Hv; reflexivity.
  - intros Hlen. pose proof (potentialFields_header_only vals headerRow Hlen) as Hp.
    unfold potentialFields in Hp. rewrite potentialFields_filter in Hp.
    injection Hp as -> ->. split; reflexivity.
Qed.

End PivotDefaults.

(** ** The columns of rule 6 *)

Section AmountCost.
Import Js ExcelService App.
Context `{Engine}.

(** The header mentions [word], as rule 6 tests it. *)
Definition mentions (word : string) (h : scalar) : bool :=
  includes (toLowerCase (toStringScalar h)) word.

(** [i] is the last index of a header that satisfies [p]. *)
Definition lastWhere (p : scalar -> bool) (headers : list scalar) (i : nat) : Prop :=
  (exists h, headers !! i = Some h /\ p h = true)
  /\ forall j h, (i < j)%nat -> headers !! j = Some h -> p h = false.

Definition nowhereIn (p : scalar -> bool) (headers : list scalar) : Prop :=
  forall j h, headers !! j = Some h -> p h = false.

(** The scan of rule 6 for one word, over the first [k] headers. *)
Definition scanLast (p : scalar -> bool) (headers : list scalar) (k : nat) : option nat :=
  fold_left
    (fun (acc : option nat) (i : nat) =>
       match headers !! i with
       | Some h => if p h then Some i else acc
       | None => acc
       end)
    (seq 0 k) None.

Lemma amountCostColumns_scan (headers : list scalar) (k : nat) :
  fold_left
    (fun (acc : option nat * option nat) (i : nat) =>
       match headers !! i with
       | Some h =>
           let header := toLowerCase (toStringScalar h) in
           (if includes header "amount" then Some i else fst acc,
            if includes header "cost" then Some i else snd acc)
       | None => acc
       end)
    (seq 0 k) (None, None)
  = (scanLast (mentions "amount") headers k, scanLast (mentions "cost") headers k).
Proof.
  unfold scanLast. induction k as [|k IH]; [reflexivity|].
  rewrite !seq_S, !fold_left_app, IH. cbn [fold_left fst snd Nat.add].
  destruct (headers !! k) as [h|]; reflexivity.
Qed.

Lemma scanLast_spec (p : scalar -> bool) (headers : list scalar) (k : nat) :
  match scanLast p headers k with
  | Some i => (i < k)%nat /\ (exists h, headers !! i = Some h /\ p h = true)
              /\ forall j h, (i < j < k)%nat -> headers !! j = Some h -> p h = false
  | None => forall j h, (j < k)%nat -> headers !! j = Some h -> p h = false
  end.
Proof.
  unfold scanLast. induction k as [|k IH].
  - cbn. intros j h Hj. lia.
  - rewrite seq_S, fold_left_app. cbn [fold_left Nat.add].
    destruct (headers !! k) as [h|] eqn:Hk.
    + destruct (p h) eqn:Hp.
      * split; [lia|]. split; [exists h; auto|]. intros j h' Hj. lia.
      * destruct (fold_left _ (seq 0 k) None) as [i|].
        -- destruct IH as (Hi & Hex & Hafter). split; [lia|]. split; [exact Hex|].
           intros j h' Hj Hh'. destruct (decide (j = k)) as [->|Hne].
           ++ rewrite Hk in Hh'. injection Hh' as <-. exact Hp.
           ++ apply (Hafter j h'); [lia | exact Hh'].
        -- intros j h' Hj Hh'. destruct (decide (j = k)) as [->|Hne].
           ++ rewrite Hk in Hh'. injection Hh' as <-. exact Hp.
           ++ apply (IH j h'); [lia | exact Hh'].
    + destruct (fold_left _ (seq 0 k) None) as [i|].
      * destruct IH as (Hi & Hex & Hafter). split; [lia|]. split; [exact Hex|].
        intros j h' Hj Hh'. destruct (decide (j = k)) as [->|Hne].
        -- rewrite Hk in Hh'. discriminate.
        -- apply (Hafter j h'); [lia | exact Hh'].
      * intros j h' Hj Hh'. destruct (decide (j = k)) as [->|Hne].
        -- rewrite Hk in Hh'. discriminate.
        -- apply (IH j h'); [lia | exact Hh'].
Qed.

Lemma scanLast_last (p : scalar -> bool) (headers : list scalar) :
  match scanLast p headers (length headers) with
  | Some i => lastWhere p headers i
  | None => nowhereIn p headers
  end.
Proof.
  pose proof (scanLast_spec p headers (length headers)) as Hs.
  destruct (scanLast p headers (length headers)) as [i|].
  - destruct Hs as (Hi & Hex & Hafter). split; [exact Hex|].
    intros j h Hj Hh. apply (Hafter j h); [|exact Hh].
    apply lookup_lt_Some in Hh. lia.
  - intros j h Hh. apply (Hs j h); [|exact Hh]. apply lookup_lt_Some in Hh. exact Hh.
Qed.

Lemma lastWhere_unique (p : scalar -> bool) (headers : list scalar) (i j : nat) :
  lastWhere p headers i -> lastWhere p headers j -> i = j.
Proof.
  intros [[hi [Hi Hpi]] Hai] [[hj [Hj Hpj]] Haj].
  destruct (lt_eq_lt_dec i j) as [[Hlt|Heq]|Hgt]; [|exact Heq|].
  - rewrite (Hai j hj Hlt Hj) in Hpj. discriminate.
  - rewrite (Haj i hi Hgt Hi) in Hpi. discriminate.
Qed.

(** X3: the columns of rule 6.  For each of the words [amount] and [cost]
    the scan of the headers ends with the rightmost header that contains
    the word, in lower case, and with no column exactly when no header
    contains it. *)
Theorem amountCostColumns_rightmost (headers : list scalar) :
  let amountCol := fst (amountCostColumns headers) in
  let costCol := snd (amountCostColumns headers) in
  (forall i, amountCol = Some i <-> lastWhere (mentions "amount") headers i)
  /\ (amountCol = None <-> nowhereIn (mentions "amount") headers)
  /\ (forall i, costCol = Some i <-> lastWhere (mentions "cost") headers i)
  /\ (costCol = None <-> nowhereIn (mentions "cost") headers).
Proof.
  unfold amountCostColumns. rewrite amountCostColumns_scan. cbn [fst snd].
  assert (Hgen : forall p,
             (forall i, scanLast p headers (length headers) = Some i <-> lastWhere p headers i)
             /\ (scanLast p headers (length headers) = None <-> nowhereIn p headers)).
  { intros p. pose proof (scanLast_last p headers) as Hs.
    destruct (scanLast p headers (length headers)) as [i0|]; split.
    - intros i. split.
      + intros [= <-]. exact Hs.
      + intros Hl. f_equal. exact (lastWhere_unique p headers _ _ Hs Hl).
    - split; [discriminate|]. intros Hn. destruct Hs as [[h [Hh Hp]] _].
      rewrite (Hn _ _ Hh) in Hp. discriminate.
    - intros i. split; [discriminate|]. intros [[h [Hh Hp]] _].
      rewrite (Hs _ _ Hh) in Hp. discriminate.
    - split; [intros _; exact Hs | reflexivity]. }
  destruct (Hgen (mentions "amount")) as [Ha1 Ha2].
  destruct (Hgen (mentions "cost")) as [Hc1 Hc2].
  conjuncts; assumption.
Qed.

End AmountCost.

(** ** The addresses of rule 6 *)

Section Addresses.
Import Js Num App.

Lemma chars_str (l : list ascii) : chars (str l) = l.
Proof. apply list_ascii_of_string_of_list_ascii. Qed.

Lemma chars_app (a b : string) : chars (a ++ b) = chars a ++ chars b.
Proof.
  unfold chars. induction a as [|c a IH]; [reflexivity|].
  change (String c a ++ b)%string with (String c (a ++ b)%string).
  cbn [list_ascii_of_string app]. f_equal. exact IH.
Qed.

Definition digitChar (d : N) : ascii := ascii_of_N (48 + d).

Lemma digitChar_code (d : N) : (d < 10)%N -> code (digitChar d) = (48 + d)%N.
Proof.
  intros Hd. unfold code, digitChar. apply N_ascii_embedding. lia.
Qed.

Lemma digitChar_isDigit (d : N) : (d < 10)%N -> isDigit (digitChar d) = true.
Proof.
  intros Hd. unfold isDigit. rewrite digitChar_code by exact Hd.
  apply andb_true_intro. split; apply N.leb_le; lia.
Qed.

Lemma digitsValue_snoc (ds : list ascii) (c : ascii) :
  digitsValue (ds ++ [c]) = (10 * digitsValue ds + (code c - 48))%N.
Proof. unfold digitsValue. rewrite fold_left_app. reflexivity. Qed.

Lemma digitsOfFuel_S (fuel : nat) (n : N) (acc : list ascii) :
  digitsOfFuel (S fuel) n acc
  = if (n <? 10)%N then digitChar (n mod 10) :: acc
    else digitsOfFuel fuel (n / 10) (digitChar (n mod 10) :: acc).
Proof. reflexivity. Qed.

(** The digits that [String(n)] prints are decimal digits and denote [n]. *)
Lemma digitsOfFuel_spec (k : nat) :
  forall (n : N) (acc : list ascii),
    (n < 2 ^ N.of_nat k)%N ->
    exists ds, digitsOfFuel (S k) n acc = ds ++ acc
               /\ ds <> [] /\ forallb isDigit ds = true /\ digitsValue ds = n.
Proof.
  induction k as [|k IH]; intros n acc Hn.
  - cbn in Hn. assert (n = 0%N) as -> by lia.
    exists [digitChar 0]. cbn. auto.
  - rewrite digitsOfFuel_S.
    assert (Hmod : (n mod 10 < 10)%N) by (apply N.mod_lt; lia).
    destruct (n <? 10)%N eqn:Hlt.
    + apply N.ltb_lt in Hlt. exists [digitChar (n mod 10)].
      split; [reflexivity|]. split; [discriminate|]. split.
      * cbn. rewrite digitChar_isDigit by exact Hmod. reflexivity.
      * unfold digitsValue. cbn [fold_left]. rewrite digitChar_code by exact Hmod.
        rewrite N.mod_small by exact Hlt. lia.
    + apply N.ltb_ge in Hlt.
      assert (Hdiv : (n / 10 < 2 ^ N.of_nat k)%N).
      { apply N.Div0.div_lt_upper_bound.
        rewrite Nat2N.inj_succ, N.pow_succ_r' in Hn. lia. }
      destruct (IH (n / 10)%N (digitChar (n mod 10) :: acc) Hdiv) as (ds & E & Hne & Hall & Hval).
      exists (ds ++ [digitChar (n mod 10)]). split; [|split; [|split]].
      * rewrite E, <- app_assoc. reflexivity.
      * destruct ds; discriminate.
      * rewrite forallb_app, Hall. cbn. rewrite digitChar_isDigit by exact Hmod. reflexivity.
      * rewrite digitsValue_snoc, Hval, digitChar_code by exact Hmod.
        pose proof (N.div_mod n 10 ltac:(lia)) as Hdm. clear - Hdm Hmod.
        set (q := (n / 10)%N) in *. set (r := (n mod 10)%N) in *. clearbody q r. lia.
Qed.

Lemma pos_lt_pow_size (p : positive) : (Npos p < 2 ^ N.of_nat (Pos.size_nat p))%N.
Proof.
  induction p as [p IH|p IH|]; cbn [Pos.size_nat].
  - rewrite Nat2N.inj_succ, N.pow_succ_r'. lia.
  - rewrite Nat2N.inj_succ, N.pow_succ_r'. lia.
  - cbn. lia.
Qed.

Lemma nToString_digits (n : N) :
  exists ds, chars (nToString n) = ds
             /\ ds <> [] /\ forallb isDigit ds = true /\ digitsValue ds = n.
Proof.
  unfold nToString. rewrite chars_str.
  assert (Hn : (n < 2 ^ N.of_nat (N.size_nat n))%N).
  { destruct n as [|p]; [cbn; lia | apply pos_lt_pow_size]. }
  destruct (digitsOfFuel_spec (N.size_nat n) n [] Hn) as (ds & E & Hne & Hall & Hval).
  exists ds. rewrite E, app_nil_r. auto.
Qed.

Lemma takeDigits_all (ds : list ascii) :
  forallb isDigit ds = true -> takeDigits ds = (ds, []).
Proof.
  induction ds as [|c ds IH]; [reflexivity|].
  cbn. destruct (isDigit c); [|discriminate]. cbn. intros Hall. rewrite IH by exact Hall.
  reflexivity.
Qed.

Lemma digit_not_letter (c : ascii) : isDigit c = true -> isUpper c || isLower c = false.
Proof.
  unfold isDigit, isUpper, isLower. intros Hd.
  apply andb_true_iff in Hd. destruct Hd as [H1 H2].
  apply N.leb_le in H1, H2. apply orb_false_iff. split; apply andb_false_iff.
  - left. apply N.leb_gt. lia.
  - left. apply N.leb_gt. lia.
Qed.

Lemma digit_not_bang (c : ascii) : isDigit c = true -> charEqb c "!" = false.
Proof.
  unfold isDigit, charEqb. intros Hd.
  apply andb_true_iff in Hd. destruct Hd as [H1 H2].
  apply N.leb_le in H1, H2. apply N.eqb_neq. cbn. lia.
Qed.

Lemma afterBang_digits (ds : list ascii) :
  forallb isDigit ds = true -> Address.afterBang ds = None.
Proof.
  induction ds as [|c ds IH]; [reflexivity|].
  cbn. intros Hall. apply andb_true_iff in Hall. destruct Hall as [Hc Hall].
  rewrite (digit_not_bang c Hc). apply IH. exact Hall.
Qed.

(** The addresses that rule 6 builds. *)
Lemma cellAddress_parse (col targetRow : nat) :
  (col < 26)%nat -> (0 < targetRow)%nat ->
  Address.parse (cellAddress col targetRow) = Some (targetRow - 1, col, 1, 1)%nat.
Proof.
  intros Hcol Hrow. unfold cellAddress, Address.parse, fromCharCode, natToString.
  cbv zeta. rewrite (N.mod_small (N.of_nat (65 + col)) 65536) by lia.
  replace (N.of_nat (65 + col) <? 128)%N with true by (symmetry; apply N.ltb_lt; lia).
  change (ascii_of_N (N.of_nat (65 + col))) with (ascii_of_nat (65 + col)).
  destruct (nToString_digits (N.of_nat targetRow)) as (ds & Eds & Hne & Hall & Hval).
  rewrite chars_app, chars_str, Eds.
  set (letter := ascii_of_nat (65 + col)).
  assert (Hcode : code letter = N.of_nat (65 + col)).
  { unfold code, letter. rewrite <- (N2Nat.id (N_of_ascii _)). f_equal.
    apply nat_ascii_embedding. lia. }
  assert (Hup : isUpper letter = true).
  { unfold isUpper. rewrite Hcode. apply andb_true_intro. split; apply N.leb_le; lia. }
  assert (Hbang : charEqb letter "!" = false).
  { unfold charEqb. rewrite Hcode. apply N.eqb_neq. cbn. lia. }
  cbn [app Address.afterBang]. rewrite Hbang, (afterBang_digits ds Hall).
  unfold Address.parseCell. cbn [app Address.takeLetters]. rewrite Hup. cbn [orb].
  destruct ds as [|d ds']; [contradiction|].
  assert (Hd : isDigit d = true).
  { cbn in Hall. apply andb_true_iff in Hall. tauto. }
  cbn [Address.takeLetters]. rewrite (digit_not_letter d Hd).
  rewrite (takeDigits_all (d :: ds') Hall), Hval, Nat2N.id.
  destruct (targetRow =? 0)%nat eqn:Ez; [apply Nat.eqb_eq in Ez; lia|].
  unfold Address.lettersValue. cbn [fold_left].
  unfold lowerChar. rewrite Hup, Hcode.
  assert (Hlow : code (ascii_of_N (N.of_nat (65 + col) + 32)) = (N.of_nat (65 + col) + 32)%N).
  { unfold code. apply N_ascii_embedding. lia. }
  rewrite Hlow.
  replace (26 * 0 + (N.to_nat (N.of_nat (65 + col) + 32) - 96) - 1)%nat with col by lia.
  reflexivity.
Qed.

End Addresses.

(** ** The snapshot *)

Section Snapshot.
Import Num Port ExcelService.

(** No port call throws in the environment of [w]. *)
Definition reliable (w : world) : Prop := forall t, fails (w_env w) t = None.

Lemma call_reliable (e : event) (w : world) :
  reliable w -> call e w = (Ok tt, logged e w).
Proof. intros Hr. unfold call. rewrite Hr. reflexivity. Qed.

Lemma reliable_logged (e : event) (w : world) : reliable w -> reliable (logged e w).
Proof. intros Hr. exact Hr. Qed.

(** The snapshot of a selection and its values. *)
Definition snapshotOf (sel : range) (vals : grid) : ExcelData :=
  MkExcelData (address sel) vals (determineIfHasHeaders vals) (rg_cols sel) (rg_rows sel).

Ltac leaf1 :=
  cbn [fst snd]; split; [reflexivity|]; split; [reflexivity|];
  split; [intros Hsel; first [discriminate | reflexivity]|];
  split; [|discriminate].

(** X4: the snapshot of the selection.  [extractDataFromSelection] leaves
    the workbook and the chat state as they are.  Without a selection it
    returns [null]; with one it returns [null] or the snapshot of the
    selection, and the snapshot when no port call fails; the values of a
    snapshot form a rectangle of [rowCount] rows and [columnCount]
    columns. *)
Theorem extractDataFromSelection_snapshot (w : world) :
  let outcome := extractDataFromSelection w in
  w_book (snd outcome) = w_book w
  /\ w_ui (snd outcome) = w_ui w
  /\ (selectedValues w = None -> fst outcome = Ok None)
  /\ (forall sel vals,
        selectedValues w = Some (sel, vals) ->
        (fst outcome = Ok None \/ fst outcome = Ok (Some (snapshotOf sel vals)))
        /\ (reliable w -> fst outcome = Ok (Some (snapshotOf sel vals))))
  /\ (forall d,
        fst outcome = Ok (Some d) ->
        rectangular (ed_values d) (ed_rowCount d) (ed_columnCount d)).
Proof.
  cbv zeta.
  unfold extractDataFromSelection, getSelectedRange, values, selectedValues, reliable.
  unfold_exec.
  destruct (call_cases ERun w) as [E | [err E]]; rewrite E; cbv beta iota.
  2: { leaf1. intros sel vals Hsel. split; [left; reflexivity|].
       intros Hr. unfold call in E. rewrite Hr in E. discriminate. }
  destruct (call_cases EGetSelectedRange (logged ERun w)) as [E1 | [err E1]];
    rewrite E1; cbv beta iota.
  2: { leaf1. intros sel vals Hsel. split; [left; reflexivity|].
       intros Hr. unfold call in E1. cbn [w_env logged setTrace] in E1. rewrite Hr in E1.
       discriminate. }
  autorewrite with world.
  destruct (selection (w_book w)) as [[[[r0 c0] rows] cols]|].
  2: { leaf1. discriminate. }
  destruct (call_cases ESync (logged EGetSelectedRange (logged ERun w))) as [E2 | [err E2]];
    rewrite E2; cbv beta iota.
  2: { leaf1. intros sel vals Hsel. split; [left; reflexivity|].
       intros Hr. unfold call in E2. cbn [w_env logged setTrace] in E2. rewrite Hr in E2.
       discriminate. }
  autorewrite with world. cbn [rg_sheet rg_row rg_col rg_rows rg_cols].
  destruct (lookupSheet (active (w_book w)) (sheets (w_book w))) as [sh|].
  2: { leaf1. discriminate. }
  cbn [fst snd]. split; [reflexivity|]. split; [reflexivity|].
  split; [discriminate|]. split.
  - intros sel vals [= <- <-]. split; [right|intros _]; reflexivity.
  - intros d [= <-]. cbn [ed_values ed_rowCount ed_columnCount]. apply readRange_rectangular.
Qed.

End Snapshot.

(** ** The sum of the selection *)

Section SelectionSum.
Import Num Port ExcelService AggregationSpec.

Ltac leaf2 :=
  cbn [fst snd];
  split; [eexists; reflexivity|];
  split;
  [ intros Hsel; first [discriminate | split; [reflexivity | frame]]
  | intros sel vals Hsel;
    first [ discriminate
          | try (injection Hsel as <- <-);
            cbn [rg_sheet rg_row rg_col rg_rows]; split; [frame | try discriminate] ] ].

(** X5: the sum of the selection.  [calculateAndInsertSum] without a
    target address never throws.  Without a selection it returns [false]
    and no cell changes.  With a selection only the cell below its first
    column can change, and on success that cell holds the sum of all the
    cells of the selection in the two-decimal format. *)
Theorem calculateAndInsertSum_spec (w : world) :
  (exists b, fst (calculateAndInsertSum None w) = Ok b)
  /\ (selectedValues w = None ->
      fst (calculateAndInsertSum None w) = Ok false
      /\ unchanged w (snd (calculateAndInsertSum None w)))
  /\ (forall sel vals,
        selectedValues w = Some (sel, vals) ->
        unchangedBut (rg_sheet sel) (rg_row sel + rg_rows sel) (rg_col sel)
                     w (snd (calculateAndInsertSum None w))
        /\ (fst (calculateAndInsertSum None w) = Ok true ->
            cellAt (snd (calculateAndInsertSum None w))
                   (rg_sheet sel) (rg_row sel + rg_rows sel) (rg_col sel)
            = Some (targetCell (sumCells (concat vals))))).
Proof.
  unfold calculateAndInsertSum, getSelectedRange, values, getActiveWorksheet, getCell,
    setValues, setNumberFormat, selectedValues.
  cbn [truthyStr]. unfold_exec.
  step_goal; [|leaf2].
  step_goal; [|leaf2].
  autorewrite with world.
  destruct (selection (w_book w)) as [[[[r0 c0] rows] cols]|]; [|leaf2].
  step_goal; [|leaf2].
  autorewrite with world. cbn [rg_sheet rg_row rg_col rg_rows rg_cols].
  destruct (lookupSheet (active (w_book w)) (sheets (w_book w))) as [sh|] eqn:Hsh0; [|leaf2].
  step_goal; [|leaf2].
  autorewrite with world.
  step_goal; [|leaf2].
  step_goal; [|leaf2].
  cbn [rg_sheet rg_row rg_col rg_rows rg_cols].
  step_sheet; [|leaf2].
  step_goal; [|leaf2].
  step_sheet; [|leaf2].
  step_goal; [|leaf2].
  leaf2.
  intros _. rewrite cellAt_logged, <- selectionSum_sumCells.
  apply (cellAt_value_format _ _ _ _ _ _ _ _ sh).
  autorewrite with world. exact Hsh0.
Qed.
End SelectionSum.

(** ** The formula of the selection *)

Section Formulas.
Import Js Num Port ExcelService.

(** The formula that [applyFormulaToSelection] assigns. *)
Definition withEquals (formula : string) : string :=
  if startsWith formula "=" then formula else ("=" ++ formula)%string.

Lemma withEquals_startsWith (formula : string) : startsWith (withEquals formula) "=" = true.
Proof.
  unfold withEquals. destruct (startsWith formula "=") eqn:E; [exact E|].
  reflexivity.
Qed.

Lemma withEquals_idempotent (formula : string) :
  withEquals (withEquals formula) = withEquals formula.
Proof.
  unfold withEquals at 1. rewrite withEquals_startsWith. reflexivity.
Qed.

(** The selected range, as [getSelectedRange] returns it. *)
Definition selectedRangeOf (w : world) : option range :=
  match selection (w_book w) with
  | Some (r, c, rows, cols) => Some (Range (active (w_book w)) r c rows cols)
  | None => None
  end.

Ltac leaf3 :=
  cbn [fst snd];
  split;
  [ intros Hsel; first [discriminate | split; [reflexivity | frame]]
  | intros sel Hsel;
    first [ discriminate
          | try (injection Hsel as <-);
            cbn [rg_sheet rg_row rg_col]; split; [frame | try discriminate] ] ].

(** X6: the formula that [applyFormulaToSelection] assigns.  It never
    throws.  The formula gets an equals sign in front unless it starts
    with one, so what is assigned always starts with [=], and the
    prefixing is idempotent.  Without a selection the result is [false]
    and no cell changes; with one only its top-left cell can change, and
    on success the calls are [run], the selection, the assignment and the
    [sync], and the cell holds the prefixed formula. *)
Theorem applyFormulaToSelection_equals (formula : string) (w : world) :
  let outcome := applyFormulaToSelection formula w in
  (exists b, fst outcome = Ok b)
  /\ startsWith (withEquals formula) "=" = true
  /\ withEquals (withEquals formula) = withEquals formula
  /\ (selectedRangeOf w = None -> fst outcome = Ok false /\ unchanged w (snd outcome))
  /\ (forall sel,
        selectedRangeOf w = Some sel ->
        unchangedBut (rg_sheet sel) (rg_row sel) (rg_col sel) w (snd outcome)
        /\ (fst outcome = Ok true ->
            w_trace (snd outcome)
            = [ESync; ESetFormulas sel (withEquals formula); EGetSelectedRange; ERun]
              ++ w_trace w
            /\ c_formula <$> cellAt (snd outcome) (rg_sheet sel) (rg_row sel) (rg_col sel)
               = Some (Some (withEquals formula)))).
Proof.
  cbv zeta.
  split; [|split; [apply withEquals_startsWith|split; [apply withEquals_idempotent|]]].
  { unfold applyFormulaToSelection, tryCatch.
    match goal with |- context [match ?b w with _ => _ end] => destruct (b w) as [[b0|e] w'] end;
      eexists; reflexivity. }
  unfold applyFormulaToSelection, getSelectedRange, setFormulas, selectedRangeOf.
  replace (if negb (startsWith formula "=") then ("=" ++ formula)%string else formula)
    with (withEquals formula)
    by (unfold withEquals; destruct (startsWith formula "="); reflexivity).
  unfold_exec.
  step_goal; [|leaf3].
  step_goal; [|leaf3].
  autorewrite with world.
  destruct (selection (w_book w)) as [[[[r0 c0] rows] cols]|]; [|leaf3].
  step_goal; [|leaf3].
  step_fits; [|leaf3].
  cbn [rg_sheet rg_row rg_col].
  step_sheet; [|leaf3].
  step_goal; [|leaf3].
  leaf3. intros _. split; [reflexivity|].
  rewrite cellAt_logged, cellAt_edited, String.eqb_refl, Hsh.
  unfold putFormula. rewrite lookup_insert_eq. reflexivity.
Qed.

End Formulas.

(** ** The target of an overlay write *)

Section OverlayTarget.
Import Num Port ExcelService App.
Context `{Engine}.

Ltac leaf4 := cbn [fst snd]; split; [eexists; reflexivity|]; split; [frame | try discriminate].

(** X7: the address that rule 6 builds and [writeValueToCell] resolves.
    For a column below 26 and a row number of at least 1, the letter of
    the column followed by the row number names the cell at that row and
    column of the active sheet: the write never throws, changes no other
    cell, and on success leaves the number there in the two-decimal
    format. *)
Theorem amountCost_write_target (x : float) (col targetRow : nat) (w : world) :
  (col < 26)%nat -> (0 < targetRow)%nat ->
  let outcome := writeValueToCell (SNum x) (cellAddress col targetRow) w in
  (exists b, fst outcome = Ok b)
  /\ unchangedBut (active (w_book w)) (targetRow - 1) col w (snd outcome)
  /\ (fst outcome = Ok true ->
      cellAt (snd outcome) (active (w_book w)) (targetRow - 1) col = Some (targetCell x)).
Proof.
  intros Hcol Hrow. cbv zeta.
  unfold writeValueToCell, getActiveWorksheet, getRange, setValues, setNumberFormat.
  rewrite (cellAddress_parse col targetRow Hcol Hrow). unfold_exec.
  step_goal; [|leaf4].
  step_goal; [|leaf4].
  autorewrite with world.
  step_goal; [|leaf4].
  step_goal; [|leaf4].
  cbn [rg_sheet rg_row rg_col].
  step_sheet; [|leaf4].
  step_goal; [|leaf4].
  step_sheet; [|leaf4].
  step_goal; [|leaf4].
  leaf4. intros _. rewrite cellAt_logged.
  autorewrite with world in Hsh.
  apply (cellAt_value_format _ _ _ _ _ _ _ _ sh). exact Hsh.
Qed.

End OverlayTarget.

(** ** The named columns *)

Section NamedColumns.
Import Num Port ExcelService AggregationSpec.
Context `{Engine}.

Variable sel : range.
Variable vals : grid.
Variable headers : list scalar.

(** The row that [sumSpecificColumns] writes, and the sum it writes for
    column [i]. *)
Definition namedRow : nat := (rg_row sel + length vals)%nat.
Definition namedTarget (i : nat) : cell := targetCell (namedColumnSum vals i).

Ltac leaf5 H :=
  injection H as <- <-; split; [reflexivity|]; split; [frame | try discriminate].

Lemma sumOneColumn_found (results : list scalar) (colName : scalar) (i : nat)
  (w1 w2 : world) (res : result (list scalar)) :
  findColumn headers colName = Ok (Some i) ->
  sumOneColumn sel vals headers results colName w1 = (res, w2) ->
  active (w_book w2) = active (w_book w1)
  /\ unchangedBut (active (w_book w1)) namedRow (rg_col sel + i) w1 w2
  /\ (forall r, res = Ok r ->
                cellAt w2 (active (w_book w1)) namedRow (rg_col sel + i) = Some (namedTarget i)).
Proof.
  intros Hf. unfold sumOneColumn. rewrite Hf.
  unfold lift, getActiveWorksheet, getCell, setValues, setNumberFormat. unfold_exec.
  intros Hs.
  step_in Hs; [|leaf5 Hs].
  step_in Hs; [|leaf5 Hs].
  autorewrite with world in Hs. cbn [rg_sheet rg_row rg_col] in Hs.
  step_in Hs; [|leaf5 Hs].
  step_sheet_in Hs; [|leaf5 Hs].
  step_in Hs; [|leaf5 Hs].
  step_sheet_in Hs; [|leaf5 Hs].
  step_in Hs; [|leaf5 Hs].
  leaf5 Hs. intros r _. rewrite cellAt_logged.
  autorewrite with world in Hsh.
  apply (cellAt_value_format _ _ _ _ _ _ _ _ sh). exact Hsh.
Qed.

Lemma sumOneColumn_other (results : list scalar) (colName : scalar)
  (w1 w2 : world) (res : result (list scalar)) :
  (forall i, findColumn headers colName <> Ok (Some i)) ->
  sumOneColumn sel vals headers results colName w1 = (res, w2) ->
  w2 = w1 /\ (forall r, res = Ok r -> r = results).
Proof.
  intros Hf. unfold sumOneColumn, lift, bind, ret, throw.
  destruct (findColumn headers colName) as [[i|]|e].
  - destruct (Hf i eq_refl).
  - intros [= <- <-]. split; [reflexivity|]. intros r [= <-]. reflexivity.
  - intros [= <- <-]. split; [reflexivity | discriminate].
Qed.

(** Some requested name is found in column [i]. *)
Definition requestedColumn (names : list scalar) (i : nat) : Prop :=
  exists name, name ∈ names /\ findColumn headers name = Ok (Some i).

Lemma requestedColumn_cons (name : scalar) (names : list scalar) (i : nat) :
  requestedColumn (name :: names) i
  <-> findColumn headers name = Ok (Some i) \/ requestedColumn names i.
Proof.
  unfold requestedColumn. split.
  - intros (n & Hin & Hf). apply elem_of_cons in Hin. destruct Hin as [-> | Hin].
    + left. exact Hf.
    + right. exists n. auto.
  - intros [Hf | (n & Hin & Hf)].
    + exists name. split; [left | exact Hf].
    + exists n. split; [right; exact Hin | exact Hf].
Qed.

Lemma foundColumn_dec (colName : scalar) :
  (exists i, findColumn headers colName = Ok (Some i))
  \/ (forall i, findColumn headers colName <> Ok (Some i)).
Proof.
  destruct (findColumn headers colName) as [[i|]|e].
  - left. exists i. reflexivity.
  - right. discriminate.
  - right. discriminate.
Qed.

(** The loop over the names: what it leaves alone. *)
Lemma namedLoop_frame (names : list scalar) :
  forall (results : list scalar) (w1 w2 : world) (res : result (list scalar)),
    foldM (sumOneColumn sel vals headers) names results w1 = (res, w2) ->
    active (w_book w2) = active (w_book w1)
    /\ forall s r c,
         (forall i, requestedColumn names i ->
                    (s, r, c) <> (active (w_book w1), namedRow, (rg_col sel + i)%nat)) ->
         cellAt w2 s r c = cellAt w1 s r c.
Proof.
  induction names as [|name names IH]; intros results w1 w2 res Hl.
  - cbn in Hl. injection Hl as <- <-. split; reflexivity.
  - cbn [foldM] in Hl. unfold bind in Hl.
    destruct (sumOneColumn sel vals headers results name w1) as [[r1|e] wm] eqn:Hs.
    + destruct (foundColumn_dec name) as [[i Hf] | Hf].
      * destruct (sumOneColumn_found _ _ _ _ _ _ Hf Hs) as (Ha & Hfr & _).
        destruct (IH _ _ _ _ Hl) as [Ha2 Hfr2]. split; [congruence|].
        intros s r c Hnot. rewrite Hfr2.
        -- apply Hfr. apply Hnot. apply requestedColumn_cons. left. exact Hf.
        -- intros j Hj. rewrite Ha. apply Hnot. apply requestedColumn_cons. right. exact Hj.
      * destruct (sumOneColumn_other _ _ _ _ _ Hf Hs) as [-> _].
        destruct (IH _ _ _ _ Hl) as [Ha2 Hfr2]. split; [exact Ha2|].
        intros s r c Hnot. apply Hfr2.
        intros j Hj. apply Hnot. apply requestedColumn_cons. right. exact Hj.
    + injection Hl as <- <-.
      destruct (foundColumn_dec name) as [[i Hf] | Hf].
      * destruct (sumOneColumn_found _ _ _ _ _ _ Hf Hs) as (Ha & Hfr & _).
        split; [exact Ha|]. intros s r c Hnot. apply Hfr. apply Hnot.
        apply requestedColumn_cons. left. exact Hf.
      * destruct (sumOneColumn_other _ _ _ _ _ Hf Hs) as [-> _]. split; reflexivity.
Qed.

(** The loop over the names, when it goes through: the cell under every
    column that was found holds the sum of the column. *)
Lemma namedLoop_written (names : list scalar) :
  forall (results results' : list scalar) (w1 w2 : world),
    foldM (sumOneColumn sel vals headers) names results w1 = (Ok results', w2) ->
    forall i,
      (requestedColumn names i
       \/ cellAt w1 (active (w_book w1)) namedRow (rg_col sel + i) = Some (namedTarget i)) ->
      cellAt w2 (active (w_book w1)) namedRow (rg_col sel + i) = Some (namedTarget i).
Proof.
  induction names as [|name names IH]; intros results results' w1 w2 Hl i Hi.
  - cbn in Hl. injection Hl as <- <-. destruct Hi as [(n & Hin & _) | Hi]; [|exact Hi].
    inversion Hin.
  - cbn [foldM] in Hl. unfold bind in Hl.
    destruct (sumOneColumn sel vals headers results name w1) as [[r1|e] wm] eqn:Hs;
      [|discriminate].
    destruct (foundColumn_dec name) as [[j Hf] | Hf].
    + destruct (sumOneColumn_found _ _ _ _ _ _ Hf Hs) as (Ha & Hfr & Hw).
      specialize (Hw r1 eq_refl). rewrite <- Ha. apply (IH _ _ _ _ Hl). rewrite Ha.
      destruct (decide (i = j)) as [->|Hne]; [right; exact Hw|].
      destruct Hi as [Hi | Hi].
      * apply requestedColumn_cons in Hi. destruct Hi as [Hi | Hi]; [congruence|].
        left. exact Hi.
      * right. rewrite Hfr; [exact Hi|]. intros [= E]. lia.
    + destruct (sumOneColumn_other _ _ _ _ _ Hf Hs) as [-> _].
      apply (IH _ _ _ _ Hl). destruct Hi as [Hi | Hi]; [|right; exact Hi].
      apply requestedColumn_cons in Hi. destruct Hi as [Hi | Hi]; [|left; exact Hi].
      destruct (Hf i Hi).
Qed.

(** No name is found: the loop does nothing. *)
Lemma namedLoop_none (names : list scalar) (results : list scalar) (w : world) :
  (forall name, name ∈ names -> findColumn headers name = Ok None) ->
  foldM (sumOneColumn sel vals headers) names results w = (Ok results, w).
Proof.
  induction names as [|name names IH]; intros Hnone; [reflexivity|].
  cbn [foldM]. unfold bind. unfold sumOneColumn at 1.
  rewrite (Hnone name) by left. cbn. apply IH.
  intros n Hn. apply Hnone. right. exact Hn.
Qed.

End NamedColumns.

Section NamedColumnSums.
Import Num Port ExcelService AggregationSpec.
Context `{Engine}.

Ltac leaf5b :=
  cbn [fst snd]; split; [intros; reflexivity|]; split; [discriminate|];
  intros _; split; [reflexivity | frame].

(** X8: the sums of the named columns.  [sumSpecificColumns] never throws.
    With a selection whose first row holds the headers, a cell can change
    only when it lies directly below the selection in a column that a
    requested name resolves to; on success each such cell holds the sum of
    its column over the rows after the header row, in the two-decimal
    format; and when no name resolves the result is [false] and no cell
    changes. *)
Theorem sumSpecificColumns_writes (columnNames : list scalar) (w : world) :
  let outcome := sumSpecificColumns columnNames w in
  (exists b, fst outcome = Ok b)
  /\ forall sel vals headers,
       selectedValues w = Some (sel, vals) -> vals !! 0%nat = Some headers ->
       let below := (rg_row sel + rg_rows sel)%nat in
       (forall s r c,
           (forall i, requestedColumn headers columnNames i ->
                      (s, r, c) <> (rg_sheet sel, below, (rg_col sel + i)%nat)) ->
           cellAt (snd outcome) s r c = cellAt w s r c)
       /\ (fst outcome = Ok true ->
           forall i, requestedColumn headers columnNames i ->
                     cellAt (snd outcome) (rg_sheet sel) below (rg_col sel + i)
                     = Some (targetCell (sumCells (columnCells (drop 1 vals) i))))
       /\ ((forall name, name ∈ columnNames -> findColumn headers name = Ok None) ->
           fst outcome = Ok false /\ unchanged w (snd outcome)).
Proof.
  cbv zeta. split.
  { unfold sumSpecificColumns, tryCatch.
    match goal with |- context [match ?b w with _ => _ end] => destruct (b w) as [[b0|e] w'] end;
      eexists; reflexivity. }
  intros sel vals headers Hsel Hh.
  unfold selectedValues in Hsel.
  unfold sumSpecificColumns, getSelectedRange, values. unfold_exec.
  step_goal; [|leaf5b].
  step_goal; [|leaf5b].
  autorewrite with world.
  destruct (selection (w_book w)) as [[[[r0 c0] rows] cols]|]; [|discriminate].
  step_goal; [|leaf5b].
  autorewrite with world. cbn [rg_sheet rg_row rg_col rg_rows rg_cols].
  destruct (lookupSheet (active (w_book w)) (sheets (w_book w))) as [sh|]; [|discriminate].
  injection Hsel as <- <-. cbn [rg_sheet rg_row rg_col rg_rows rg_cols].
  set (sel := Range (active (w_book w)) r0 c0 rows cols).
  set (vals := readRange sh r0 c0 rows cols) in *.
  assert (Hlen : length vals = rows).
  { subst vals. destruct (readRange_rectangular sh r0 c0 rows cols) as [Hl _]. exact Hl. }
  destruct (length vals <=? 1)%nat eqn:Hle; [leaf5b|].
  destruct vals as [|headers0 rest] eqn:Ev; [discriminate|].
  cbn in Hh. injection Hh as ->. rewrite <- Ev in *.
  set (w3 := logged ESync (logged EGetSelectedRange (logged ERun w))).
  destruct (foldM (sumOneColumn sel vals headers) columnNames [] w3) as [res w4] eqn:Hl.
  assert (Hrow : namedRow sel vals = (r0 + rows)%nat).
  { unfold namedRow. rewrite Hlen. reflexivity. }
  destruct (namedLoop_frame sel vals headers columnNames _ _ _ _ Hl) as [Ha Hfr].
  rewrite Hrow in Hfr. change (active (w_book w3)) with (active (w_book w)) in *.
  change (cellAt w3) with (cellAt w) in Hfr.
  assert (Hnone : (forall name, name ∈ columnNames -> findColumn headers name = Ok None) ->
                  res = Ok [] /\ w4 = w3).
  { intros Hn. rewrite (namedLoop_none sel vals headers columnNames [] w3 Hn) in Hl.
    injection Hl as <- <-. split; reflexivity. }
  destruct res as [results|e].
  2: { cbn [fst snd]. split; [exact Hfr|]. split; [discriminate|].
       intros Hn. destruct (Hnone Hn) as [? _]. discriminate. }
  pose proof (namedLoop_written sel vals headers columnNames _ _ _ _ Hl) as Hw.
  change (active (w_book w3)) with (active (w_book w)) in Hw.
  change (cellAt w3) with (cellAt w) in Hw. rewrite Hrow in Hw.
  step_goal.
  - cbn [fst snd]. split; [intros s r c Hnot; rewrite cellAt_logged; apply Hfr; exact Hnot|].
    split.
    + intros _ i Hi. rewrite cellAt_logged, <- namedColumnSum_sumCells.
      apply Hw. left. exact Hi.
    + intros Hn. destruct (Hnone Hn) as [[= ->] ->]. split; [reflexivity | frame].
  - cbn [fst snd]. split; [intros s r c Hnot; rewrite cellAt_logged; apply Hfr; exact Hnot|].
    split; [discriminate|].
    intros Hn. destruct (Hnone Hn) as [_ ->]. split; [reflexivity | frame].
Qed.

End NamedColumnSums.

(** ** Charts *)

Section Charts.
Import Js Num Port ExcelService.

(** The calls that set the title of a chart: none for a missing or an
    empty title. *)
Definition titleCalls (title : option string) : list event :=
  match truthyStr title with
  | Some t => [ESetChartTitle t]
  | None => []
  end.

Ltac leaf6 :=
  cbn [fst snd]; split; [eexists; reflexivity|]; split; [reflexivity|];
  split; [reflexivity | try discriminate].

(** X9: the calls of [createChart].  It never throws and changes no sheet,
    cell or selection.  An address that does not parse gives [false].  On
    success the calls are, in order: [run], the active sheet, the range,
    [charts.add] with the chart type and the range, the title when it is a
    string that is not empty, the position from A15 to H30, and the
    [sync]. *)
Theorem createChart_calls (chartType : ChartType) (dataRange : string)
  (title : option string) (w : world) :
  let outcome := createChart chartType dataRange title w in
  (exists b, fst outcome = Ok b)
  /\ w_book (snd outcome) = w_book w
  /\ (Address.parse dataRange = None -> fst outcome = Ok false)
  /\ (fst outcome = Ok true ->
      exists r c rows cols,
        Address.parse dataRange = Some (r, c, rows, cols)
        /\ w_trace (snd outcome)
           = [ESync; ESetChartPosition "A15" "H30"] ++ titleCalls title
             ++ [EChartsAdd chartType (Range (active (w_book w)) r c rows cols);
                 EGetRange (active (w_book w)) dataRange; EGetActiveWorksheet; ERun]
             ++ w_trace w).
Proof.
  cbv zeta. unfold createChart, getActiveWorksheet, getRange, titleCalls. unfold_exec.
  step_goal; [|leaf6].
  step_goal; [|leaf6].
  autorewrite with world.
  step_goal; [|leaf6].
  destruct (Address.parse dataRange) as [[[[r c] rows] cols]|]; [|leaf6].
  step_goal; [|leaf6].
  destruct (truthyStr title) as [t|].
  - step_goal; [|leaf6]. step_goal; [|leaf6]. step_goal; [|leaf6].
    cbn [fst snd]. split; [eexists; reflexivity|]. split; [reflexivity|].
    split; [discriminate|]. intros _. exists r, c, rows, cols. split; reflexivity.
  - step_goal; [|leaf6]. step_goal; [|leaf6].
    cbn [fst snd]. split; [eexists; reflexivity|]. split; [reflexivity|].
    split; [discriminate|]. intros _. exists r, c, rows, cols. split; reflexivity.
Qed.

End Charts.

(** ** The sheets after createWorksheet *)

Section Worksheets.
Import Js Num Port ExcelService.

Definition sheetsOf (w : world) : list (string * sheet) := sheets (w_book w).
Definition hasSheet (w : world) (s : string) : bool := includesName (sheetNames (sheetsOf w)) s.

(** The world after a sheet without cells was added. *)
Definition withSheet (atFront : bool) (name : string) (w : world) : world :=
  setBook (Workbook (if atFront then (name, ∅) :: sheetsOf w else sheetsOf w ++ [(name, ∅)])
                    (active (w_book w)) (selection (w_book w))) w.

Lemma addSheet_outcome (atFront : bool) (name : string) (w : world) :
  (hasSheet w name = false /\ addSheet atFront name w = (Ok name, withSheet atFront name w))
  \/ (hasSheet w name = true /\ exists e, addSheet atFront name w = (Throw e, w)).
Proof.
  unfold addSheet, hasSheet, sheetsOf, withSheet.
  destruct (includesName (sheetNames (sheets (w_book w))) name).
  - right. split; [reflexivity|]. eexists. reflexivity.
  - left. split; reflexivity.
Qed.

Lemma lookupSheet_None (name : string) (l : list (string * sheet)) :
  includesName (sheetNames l) name = false -> lookupSheet name l = None.
Proof.
  unfold includesName, sheetNames, lookupSheet.
  induction l as [|[n sh] l IH]; [reflexivity|].
  cbn [map existsb List.find fst]. intros Hn. apply orb_false_iff in Hn.
  destruct Hn as [Hne Hn]. rewrite String.eqb_sym, Hne. apply IH. exact Hn.
Qed.

Lemma lookupSheet_app (name : string) (l l' : list (string * sheet)) :
  lookupSheet name (l ++ l')
  = match lookupSheet name l with
    | Some sh => Some sh
    | None => lookupSheet name l'
    end.
Proof.
  unfold lookupSheet. induction l as [|[n sh] l IH]; [reflexivity|].
  cbn [app List.find fst]. destruct (String.eqb n name); [reflexivity | exact IH].
Qed.

Lemma unchanged_withSheet (atFront : bool) (name : string) (w : world) :
  hasSheet w name = false -> unchanged w (withSheet atFront name w).
Proof.
  intros Hno s r c. unfold cellAt, withSheet, sheetsOf. cbn [setBook w_book sheets].
  pose proof (lookupSheet_None name _ Hno) as Hnone. unfold sheetsOf in Hnone.
  destruct atFront.
  - unfold lookupSheet at 1. cbn [List.find fst snd].
    destruct (String.eqb name s) eqn:E.
    + apply String.eqb_eq in E. subst s. rewrite Hnone. apply lookup_empty.
    + reflexivity.
  - rewrite lookupSheet_app.
    destruct (lookupSheet s (sheets (w_book w))) as [sh|]; [reflexivity|].
    unfold lookupSheet. cbn [List.find fst snd].
    destruct (String.eqb name s); [apply lookup_empty | reflexivity].
Qed.

Lemma includesName_app (l l' : list string) (s : string) :
  includesName (l ++ l') s = includesName l s || includesName l' s.
Proof. unfold includesName. apply existsb_app. Qed.

Lemma hasSheet_withSheet (atFront : bool) (name : string) (w : world) :
  hasSheet (withSheet atFront name w) name = true.
Proof.
  unfold hasSheet, withSheet, sheetsOf. cbn [setBook w_book sheets].
  destruct atFront.
  - unfold includesName, sheetNames. cbn [map existsb fst]. rewrite String.eqb_refl. reflexivity.
  - unfold sheetNames. rewrite map_app, includesName_app.
    unfold includesName at 2. cbn [map existsb fst]. rewrite String.eqb_refl.
    apply orb_true_iff. right. reflexivity.
Qed.

(** What an attempt of [createWorksheet] may do to the workbook: nothing,
    or add one sheet without cells under a name that was free. *)
Inductive grown (w w' : world) : Prop :=
| grown_same : sheetsOf w' = sheetsOf w -> grown w w'
| grown_end (n : string) :
    hasSheet w n = false -> sheetsOf w' = sheetsOf w ++ [(n, ∅)] -> grown w w'
| grown_front (n : string) :
    hasSheet w n = false -> sheetsOf w' = (n, ∅) :: sheetsOf w -> grown w w'.

(** An attempt, or the end of the operation: the cells, the active sheet
    and the selection are as [P] says, and a sheet that is returned is in
    the workbook. *)
Definition attempt (m : M string) : Prop :=
  forall w res w',
    m w = (res, w') ->
    unchanged w w'
    /\ w_env w' = w_env w
    /\ match res with
       | Ok s => grown w w' /\ hasSheet w' s = true
       | Throw _ => sheetsOf w' = sheetsOf w
       end.

Lemma attempt_add (e : event) (atFront : bool) (name : string) :
  attempt (bind (call e) (fun _ => addSheet atFront name)).
Proof.
  intros w res w'. unfold bind.
  destruct (call_cases e w) as [E | [err E]]; rewrite E.
  - destruct (addSheet_outcome atFront name (logged e w)) as [[Hno Ea] | [Hyes [e' Ea]]];
      rewrite Ea; intros [= <- <-].
    + split; [|split; [reflexivity|split]].
      * intros s r c. rewrite (unchanged_withSheet atFront name (logged e w) Hno).
        apply cellAt_logged.
      * destruct atFront; [apply (grown_front _ _ name) | apply (grown_end _ _ name)];
          first [exact Hno | reflexivity].
      * apply hasSheet_withSheet.
    + split; [apply unchanged_logged, unchanged_refl|]. split; reflexivity.
  - intros [= <- <-]. split; [apply unchanged_logged, unchanged_refl|]. split; reflexivity.
Qed.

Lemma attempt_reuseOrAdd (name : string) (w : world) :
  forall res w',
    reuseOrAdd (sheetNames (sheetsOf w)) name w = (res, w') ->
    unchanged w w'
    /\ w_env w' = w_env w
    /\ match res with
       | Ok s => grown w w' /\ hasSheet w' s = true
                 /\ (hasSheet w name = true -> s = name /\ sheetsOf w' = sheetsOf w)
                 /\ (hasSheet w name = false -> s = name /\ sheetsOf w' = sheetsOf w ++ [(name, ∅)])
       | Throw _ => sheetsOf w' = sheetsOf w
       end.
Proof.
  intros res w'. unfold reuseOrAdd.
  destruct (includesName (sheetNames (sheetsOf w)) name) eqn:Hin.
  - unfold worksheetsGetItem, worksheetNames. unfold_exec.
    step_goal.
    + autorewrite with world. unfold sheetsOf in Hin. rewrite Hin. intros [= <- <-].
      split; [apply unchanged_logged, unchanged_refl|]. split; [reflexivity|].
      split; [apply grown_same; reflexivity|]. split; [exact Hin|].
      split; [intros _; split; reflexivity|].
      unfold hasSheet, sheetsOf. rewrite Hin. discriminate.
    + intros [= <- <-]. split; [apply unchanged_logged, unchanged_refl|]. split; reflexivity.
  - unfold worksheetsAdd. intros Hm.
    pose proof (attempt_add (EWorksheetsAdd (Some name)) false name w res w' Hm) as Ha.
    destruct Ha as (Hu & Hact & Hres). split; [exact Hu|]. split; [exact Hact|].
    destruct res as [s|e]; [|exact Hres].
    destruct Hres as [Hg Hs]. split; [exact Hg|]. split; [exact Hs|].
    unfold bind in Hm.
    destruct (call_cases (EWorksheetsAdd (Some name)) w) as [E | [err E]]; rewrite E in Hm;
      [|discriminate].
    destruct (addSheet_outcome false name (logged (EWorksheetsAdd (Some name)) w))
      as [[Hno Ea] | [Hyes [e' Ea]]]; rewrite Ea in Hm; [|discriminate].
    injection Hm as <- <-.
    split.
    + unfold hasSheet. rewrite Hin. discriminate.
    + intros _. split; reflexivity.
Qed.

Lemma attempt_addUnique (name : string) : attempt (addUnique name).
Proof.
  intros w res w'. unfold addUnique, worksheetsAdd.
  change (bind (gets (fun w0 => now (w_env w0))) ?k w) with (k (now (w_env w)) w).
  cbv beta. apply attempt_add.
Qed.

Lemma attempt_addAtStart (name : string) : attempt (addAtStart name).
Proof. intros w res w'. unfold addAtStart, worksheetsAddAt. apply attempt_add. Qed.

Lemma finished_spec (s : string) (w : world) :
  let outcome := finished s w in
  unchanged w (snd outcome)
  /\ sheetsOf (snd outcome) = sheetsOf w
  /\ (forall s', fst outcome = Ok (Some s') -> s' = s /\ active (w_book (snd outcome)) = s)
  /\ (exists r, fst outcome = Ok r)
  /\ (reliable w -> hasSheet w s = true -> fst outcome = Ok (Some s)).
Proof.
  cbv zeta. unfold finished, activateAndSync, activate, hasSheet, sheetsOf. unfold_exec.
  step_goal.
  2: { cbn [fst snd]. split; [apply unchanged_logged, unchanged_refl|].
       split; [reflexivity|]. split; [discriminate|]. split; [eexists; reflexivity|].
       intros Hr. unfold call in E. rewrite Hr in E. discriminate. }
  autorewrite with world.
  destruct (includesName (sheetNames (sheets (w_book w))) s).
  2: { cbn [fst snd]. split; [apply unchanged_logged, unchanged_refl|].
       split; [reflexivity|]. split; [discriminate|]. split; [eexists; reflexivity|].
       discriminate. }
  destruct (String.eqb (active (w_book w)) s) eqn:Ea.
  - apply String.eqb_eq in Ea. step_goal.
    + cbn [fst snd]. split; [apply unchanged_logged, unchanged_logged, unchanged_refl|].
      split; [reflexivity|]. split; [intros s' [= <-]; auto|].
      split; [eexists; reflexivity|]. reflexivity.
    + cbn [fst snd]. split; [apply unchanged_logged, unchanged_logged, unchanged_refl|].
      split; [reflexivity|]. split; [discriminate|]. split; [eexists; reflexivity|].
      intros Hr. unfold call in E0. cbn [w_env logged setTrace] in E0. rewrite Hr in E0.
      discriminate.
  - step_goal.
    + cbn [fst snd]. split; [intros s0 r c; reflexivity|].
      split; [reflexivity|]. split; [intros s' [= <-]; auto|].
      split; [eexists; reflexivity|]. reflexivity.
    + cbn [fst snd]. split; [intros s0 r c; reflexivity|].
      split; [reflexivity|]. split; [discriminate|]. split; [eexists; reflexivity|].
      intros Hr. unfold call in E0. cbn [w_env logged setTrace setBook] in E0.
      rewrite Hr in E0. discriminate.
Qed.

Lemma unchanged_trans (w1 w2 w3 : world) :
  unchanged w1 w2 -> unchanged w2 w3 -> unchanged w1 w3.
Proof. intros H12 H23 s r c. rewrite H23. apply H12. Qed.

Lemma grown_from (w0 w w' : world) :
  sheetsOf w = sheetsOf w0 -> grown w w' -> grown w0 w'.
Proof.
  intros E Hg. destruct Hg as [Hs | n Hn Hs | n Hn Hs].
  - apply grown_same. congruence.
  - apply (grown_end _ _ n); [unfold hasSheet in *|]; congruence.
  - apply (grown_front _ _ n); [unfold hasSheet in *|]; congruence.
Qed.

Lemma grown_to (w w1 w' : world) :
  sheetsOf w' = sheetsOf w1 -> grown w w1 -> grown w w'.
Proof.
  intros E Hg. destruct Hg as [Hs | n Hn Hs | n Hn Hs].
  - apply grown_same. congruence.
  - apply (grown_end _ _ n); congruence.
  - apply (grown_front _ _ n); congruence.
Qed.

Lemma reuseOrAdd_reliable (name : string) (w : world) :
  reliable w -> exists w', reuseOrAdd (sheetNames (sheetsOf w)) name w = (Ok name, w').
Proof.
  intros Hr. unfold reuseOrAdd.
  destruct (includesName (sheetNames (sheetsOf w)) name) eqn:Hin.
  - unfold worksheetsGetItem, worksheetNames. unfold_exec.
    rewrite (call_reliable _ _ Hr). autorewrite with world.
    unfold sheetsOf in Hin. rewrite Hin. eexists. reflexivity.
  - unfold worksheetsAdd, bind. rewrite (call_reliable _ _ Hr).
    destruct (addSheet_outcome false name (logged (EWorksheetsAdd (Some name)) w))
      as [[Hno Ea] | [Hyes [e' Ea]]]; rewrite Ea.
    + eexists. reflexivity.
    + unfold hasSheet, sheetsOf in Hyes. unfold sheetsOf in Hin.
      rewrite w_book_logged, Hin in Hyes. discriminate.
Qed.

(** X10: the workbook after [createWorksheet].  No cell of the workbook
    changes, and at most one sheet is added, empty, under a name that was
    free.  The sheet that is returned is in the workbook and active.  When
    no port call fails the result is the requested name, and the sheets
    are the old ones when the name existed, and the old ones followed by
    the new sheet otherwise. *)
Theorem createWorksheet_sheets (name : string) (w : world) :
  let outcome := createWorksheet name w in
  unchanged w (snd outcome)
  /\ grown w (snd outcome)
  /\ (forall s,
        fst outcome = Ok (Some s) ->
        hasSheet (snd outcome) s = true /\ active (w_book (snd outcome)) = s)
  /\ (reliable w ->
      fst outcome = Ok (Some name)
      /\ sheetsOf (snd outcome)
         = if hasSheet w name then sheetsOf w else sheetsOf w ++ [(name, ∅)]).
Proof.
  cbv zeta.
  destruct (call_cases ERun w) as [Hrun | [err Hrun]].
  2: { cbv beta iota delta [createWorksheet run tryCatch bind ret]. rewrite Hrun.
       cbn [fst snd]. split; [apply unchanged_logged, unchanged_refl|].
       split; [apply grown_same; reflexivity|]. split; [discriminate|].
       intros Hr. unfold call in Hrun. rewrite Hr in Hrun. discriminate. }
  destruct (call_cases ESync (logged ERun w)) as [Hsync | [err Hsync]].
  2: { cbv beta iota delta [createWorksheet run sync tryCatch bind ret].
       rewrite Hrun. cbv beta iota. rewrite Hsync.
       cbn [fst snd]. split; [apply unchanged_logged, unchanged_logged, unchanged_refl|].
       split; [apply grown_same; reflexivity|]. split; [discriminate|].
       intros Hr. unfold call in Hsync. cbn [w_env logged setTrace] in Hsync.
       rewrite Hr in Hsync. discriminate. }
  fold sync in Hsync.
  set (w1 := logged ESync (logged ERun w)) in *.
  assert (Hu1 : unchanged w w1) by (apply unchanged_logged, unchanged_logged, unchanged_refl).
  assert (Hs1 : sheetsOf w1 = sheetsOf w) by reflexivity.
  assert (Hfin : forall s w2,
             unchanged w1 w2 -> grown w1 w2 -> hasSheet w2 s = true ->
             unchanged w (snd (finished s w2))
             /\ grown w (snd (finished s w2))
             /\ (forall s', fst (finished s w2) = Ok (Some s') ->
                            hasSheet (snd (finished s w2)) s' = true
                            /\ active (w_book (snd (finished s w2))) = s')).
  { intros s w2 Hu Hg Hs. destruct (finished_spec s w2) as (Hfu & Hfs & Hfa & _ & _).
    split; [exact (unchanged_trans _ _ _ (unchanged_trans _ _ _ Hu1 Hu) Hfu)|].
    split; [exact (grown_to _ _ _ Hfs (grown_from _ _ _ Hs1 Hg))|].
    intros s' Hs'. destruct (Hfa s' Hs') as [-> Hact]. split; [|exact Hact].
    unfold hasSheet. rewrite Hfs. exact Hs. }
  destruct (reuseOrAdd (sheetNames (sheets (w_book w1))) name w1) as [[s1|e1] w2] eqn:H1.
  { rewrite (createWorksheet_first _ _ _ _ _ _ Hrun Hsync H1).
    destruct (attempt_reuseOrAdd name w1 _ _ H1) as (Hu & Hact & Hg & Hs & Hyes & Hno).
    destruct (Hfin s1 w2 Hu Hg Hs) as (F1 & F2 & F3).
    split; [exact F1|]. split; [exact F2|]. split; [exact F3|].
    intros Hr. destruct (finished_spec s1 w2) as (_ & Hfs & _ & _ & Hok).
    assert (Hr2 : reliable w2).
    { intros t. rewrite Hact. apply Hr. }
    rewrite (Hok Hr2 Hs), Hfs.
    destruct (hasSheet w name) eqn:Hh.
    - unfold hasSheet in Hyes. rewrite Hs1 in Hyes. destruct (Hyes Hh) as [-> E2].
      split; [reflexivity|]. exact E2.
    - unfold hasSheet in Hno. rewrite Hs1 in Hno. destruct (Hno Hh) as [-> E2].
      split; [reflexivity|]. exact E2. }
  assert (Hrel : reliable w -> False).
  { intros Hr. destruct (reuseOrAdd_reliable name w1 Hr) as [w2' H1'].
    unfold sheetsOf in H1'. rewrite H1 in H1'. discriminate. }
  destruct (attempt_reuseOrAdd name w1 _ _ H1) as (Hu2 & _ & Hs2).
  destruct (addUnique name w2) as [[s2|e2] w3] eqn:H2.
  { rewrite (createWorksheet_second _ _ _ _ _ _ _ _ Hrun Hsync H1 H2).
    destruct (attempt_addUnique name w2 _ _ H2) as (Hu & _ & Hg & Hs).
    destruct (Hfin s2 w3 (unchanged_trans _ _ _ Hu2 Hu) (grown_from _ _ _ Hs2 Hg) Hs)
      as (F1 & F2 & F3).
    split; [exact F1|]. split; [exact F2|]. split; [exact F3|].
    intros Hr. destruct (Hrel Hr). }
  destruct (attempt_addUnique name w2 _ _ H2) as (Hu3 & _ & Hs3).
  destruct (addAtStart name w3) as [[s3|e3] w4] eqn:H3.
  { rewrite (createWorksheet_third _ _ _ _ _ _ _ _ _ _ Hrun Hsync H1 H2 H3).
    destruct (attempt_addAtStart name w3 _ _ H3) as (Hu & _ & Hg & Hs).
    assert (Hs23 : sheetsOf w3 = sheetsOf w1) by congruence.
    destruct (Hfin s3 w4 (unchanged_trans _ _ _ (unchanged_trans _ _ _ Hu2 Hu3) Hu)
                   (grown_from _ _ _ Hs23 Hg) Hs) as (F1 & F2 & F3).
    split; [exact F1|]. split; [exact F2|]. split; [exact F3|].
    intros Hr. destruct (Hrel Hr). }
  rewrite (createWorksheet_exhausted _ _ _ _ _ _ _ _ _ _ Hrun Hsync H1 H2 H3).
  destruct (attempt_addAtStart name w3 _ _ H3) as (Hu4 & _ & Hs4).
  cbn [fst snd].
  split; [exact (unchanged_trans _ _ _ Hu1
                   (unchanged_trans _ _ _ Hu2 (unchanged_trans _ _ _ Hu3 Hu4)))|].
  split; [apply grown_same; congruence|]. split; [discriminate|].
  intros Hr. destruct (Hrel Hr).
Qed.






End Worksheets.

(** ** The simple pivot table *)

Section SimplePivot.
Import Js Num Port ExcelService.

Lemma addSheet_cases (atFront : bool) (name : string) (w : world) :
  (exists w', addSheet atFront name w = (Ok name, w'))
  \/ (exists e, addSheet atFront name w = (Throw e, w)).
Proof.
  unfold addSheet. destruct (includesName _ name).
  - right. eexists. reflexivity.
  - left. eexists. reflexivity.
Qed.

Lemma createSimplePivotTable_false (dataRange : string) (w : world) :
  fst (createSimplePivotTable dataRange w) = Ok false.
Proof.
  unfold createSimplePivotTable, getActiveWorksheet, getRange, values, worksheetsAdd,
    worksheetNames, setSheetName, setValues, getOffsetRange.
  rewrite parse_A1. unfold_exec.
  step_goal; [|reflexivity].
  step_goal; [|reflexivity].
  step_goal; [|reflexivity].
  destruct (Address.parse dataRange) as [[[[r c] rows] cols]|]; [|reflexivity].
  step_goal; [|reflexivity].
  match goal with
  | |- context [lookupSheet ?n ?l] => destruct (lookupSheet n l) as [sh|]; [|reflexivity]
  end.
  destruct (length (readRange sh _ _ _ _) =? 0)%nat; [reflexivity|].
  step_goal; [|reflexivity].
  match goal with
  | |- context [addSheet ?f ?n ?w0] =>
      destruct (addSheet_cases f n w0) as [[w1 Ea] | [e Ea]]; rewrite Ea; cbv beta iota;
      [|reflexivity]
  end.
  step_goal; [|reflexivity].
  step_goal; [|reflexivity].
  match goal with
  | |- context [if ?b then _ else _] => destruct b; [reflexivity|]
  end.
  step_goal; [|reflexivity].
  step_goal; [|reflexivity].
  step_goal; [|reflexivity].
  step_fits; [|reflexivity].
  step_sheet; [|reflexivity].
  step_goal; [|reflexivity].
  step_goal; reflexivity.
Qed.

End SimplePivot.

Section SimplePivotCalls.
Import Js Num Port ExcelService.

Lemma addSheet_trace (atFront : bool) (name : string) (w : world) :
  (exists w', addSheet atFront name w = (Ok name, w') /\ w_trace w' = w_trace w)
  \/ (exists e, addSheet atFront name w = (Throw e, w)).
Proof.
  unfold addSheet. destruct (includesName _ name).
  - right. eexists. reflexivity.
  - left. eexists. split; reflexivity.
Qed.

Ltac leaf8 :=
  cbn [rg_sheet rg_row rg_col rg_rows rg_cols];
  try change ((0 <=? Z.of_nat 0 + -1)%Z) with false;
  cbn [andb fst snd]; split; [reflexivity|];
  intros s Hin; unfold modify in Hin;
  repeat first
    [ progress cbn [w_trace setBook setTrace logged edited fst snd] in Hin
    | match goal with
      | Ht : w_trace _ = _ |- _ => rewrite Ht in Hin
      end ];
  cbn [In] in Hin;
  repeat (destruct Hin as [Hin | Hin]; [discriminate|]);
  exact Hin.

(** X11: [createSimplePivotTable] never reports success.  The title cell
    is requested one row above A1, where there is no range, so the block
    that copies the data always ends in its [catch] clause: the result is
    [false] in every world, and no sheet is activated. *)
Theorem createSimplePivotTable_reports_failure (dataRange : string) (w : world) :
  let outcome := createSimplePivotTable dataRange w in
  fst outcome = Ok false
  /\ forall s, In (EActivate s) (w_trace (snd outcome)) -> In (EActivate s) (w_trace w).
Proof.
  cbv zeta.
  unfold createSimplePivotTable, getActiveWorksheet, getRange, values, worksheetsAdd,
    worksheetNames, setSheetName, setValues, getOffsetRange.
  rewrite parse_A1. unfold_exec.
  step_goal; [|leaf8].
  step_goal; [|leaf8].
  step_goal; [|leaf8].
  destruct (Address.parse dataRange) as [[[[r c] rows] cols]|]; [|leaf8].
  step_goal; [|leaf8].
  match goal with
  | |- context [lookupSheet ?n ?l] => destruct (lookupSheet n l) as [sh|]; [|leaf8]
  end.
  destruct (length (readRange sh _ _ _ _) =? 0)%nat; [leaf8|].
  step_goal; [|leaf8].
  match goal with
  | |- context [addSheet ?f ?n ?w0] =>
      destruct (addSheet_trace f n w0) as [(w1 & Ea & Ht) | [e Ea]]; rewrite Ea; cbv beta iota;
      [|leaf8]
  end.
  step_goal; [|leaf8].
  step_goal; [|leaf8].
  match goal with
  | |- context [if ?b then _ else _] => destruct b; [leaf8|]
  end.
  step_goal; [|leaf8].
  step_goal; [|leaf8].
  step_goal; [|leaf8].
  step_fits; [|leaf8].
  step_sheet; [|leaf8].
  step_goal; [|leaf8].
  step_goal; leaf8.
Qed.

End SimplePivotCalls.

(** ** The sample pivot table *)

Section SamplePivot.
Import Js Num Port ExcelService.
Context `{Engine}.

Lemma createPivotTable_total dataRange destinationSheet rowFields columnFields valueFields w :
  exists b, fst (createPivotTable dataRange destinationSheet rowFields columnFields
                                  valueFields w) = Ok b.
Proof.
  unfold createPivotTable, tryCatch.
  match goal with |- context [match ?b w with _ => _ end] => destruct (b w) as [[b0|e] w'] end;
    eexists; reflexivity.
Qed.

(** X12: the verdict of [createSamplePivotTable] is that of
    [createPivotTable] on the sheet name [PivotTable].  When the standard
    approach succeeds nothing else runs; when it fails the simple
    alternative runs on the world that it left, and reports failure. *)
Theorem createSamplePivotTable_verdict (dataRange : string) (w : world) :
  let standard := createPivotTable dataRange "PivotTable" None None None w in
  fst (createSimplePivotTable dataRange (snd standard)) = Ok false
  /\ fst (createSamplePivotTable dataRange w) = fst standard
  /\ (fst standard = Ok true -> createSamplePivotTable dataRange w = standard)
  /\ (fst standard = Ok false ->
      snd (createSamplePivotTable dataRange w)
      = snd (createSimplePivotTable dataRange (snd standard))).
Proof.
  cbv zeta. split; [apply createSimplePivotTable_false|].
  destruct (createPivotTable_total dataRange "PivotTable" None None None w) as [b Hb].
  unfold createSamplePivotTable, tryCatch, bind, ret.
  destruct (createPivotTable dataRange "PivotTable" None None None w) as [r w1].
  cbn [fst snd] in *. subst r.
  pose proof (createSimplePivotTable_false dataRange w1) as Hs.
  destruct b.
  - split; [reflexivity|]. split; [reflexivity | discriminate].
  - destruct (createSimplePivotTable dataRange w1) as [r2 w2]. cbn [fst snd] in *. subst r2.
    split; [reflexivity|]. split; [discriminate | reflexivity].
Qed.

End SamplePivot.

(** ** The connection test *)

Section ConnectionTest.
Import Js Num Port ExcelService.
Context `{Locale}.

(** The text that the connection test writes. *)
Definition testValueOf (w : world) : string :=
  "Excel connection test: " ++ toLocaleTimeString (now (w_env w)).

Ltac fails_never Hr E :=
  unfold call in E; cbn [w_env logged edited setTrace setBook] in E; rewrite Hr in E;
  discriminate.

Ltac leaf10 E :=
  cbn [fst snd]; split; [eexists; reflexivity|]; split; [frame|]; split; [discriminate|];
  intros Hr Hsome; first [fails_never Hr E | idtac].

(** X13: the connection test overwrites A1.  [testExcelConnection] never
    throws and changes no cell but A1 of the active sheet.  On success
    that cell holds the test text with the local time, whatever it held
    before; and the test succeeds when no port call fails and the active
    sheet exists. *)
Theorem testExcelConnection_overwrites_A1 (w : world) :
  let outcome := testExcelConnection w in
  let sheet := active (w_book w) in
  (exists b, fst outcome = Ok b)
  /\ unchangedBut sheet 0 0 w (snd outcome)
  /\ (fst outcome = Ok true ->
      c_value <$> cellAt (snd outcome) sheet 0 0 = Some (SStr (testValueOf w)))
  /\ (reliable w -> is_Some (lookupSheet sheet (sheets (w_book w))) ->
      fst outcome = Ok true).
Proof.
  cbv zeta. unfold testExcelConnection, getActiveWorksheet, getRange, setValues, values,
    testValueOf, reliable.
  rewrite parse_A1. unfold_exec.
  step_goal; [|leaf10 E].
  step_goal; [|leaf10 E0].
  autorewrite with world.
  step_goal; [|leaf10 E1].
  autorewrite with world.
  step_goal; [|leaf10 E2].
  cbn [rg_sheet rg_row rg_col rg_rows rg_cols].
  step_sheet.
  2: { cbn [fst snd]. split; [eexists; reflexivity|]. split; [frame|]. split; [discriminate|].
       intros _ [sh0 Hs]. autorewrite with world in Hsh. rewrite Hs in Hsh. discriminate. }
  step_goal; [|leaf10 E4].
  step_goal; [|leaf10 E5].
  autorewrite with world. rewrite sheets_edited, lookupSheet_updateSheet, String.eqb_refl.
  autorewrite with world in Hsh. autorewrite with world. rewrite Hsh.
  cbn [fmap option_fmap option_map readRange seq map lookup list_lookup fst snd].
  split; [eexists; reflexivity|]. split; [frame|]. split; [|reflexivity].
  intros _. rewrite !cellAt_logged, cellAt_edited, String.eqb_refl.
  autorewrite with world. rewrite Hsh. cbn [writeGrid writeRow].
  rewrite lookup_putValue, decide_True by reflexivity. reflexivity.
Qed.

End ConnectionTest.

(** ** The fields of the smart defaults *)

Section PivotFields.
Import Js Num Port ExcelService.
Context `{Engine}.

Lemma forEach_calls {A} (f : A -> event) (l : list A) :
  forall (w w' : world) (res : result unit),
    forEach l (fun x => call (f x)) w = (res, w') ->
    w_book w' = w_book w
    /\ (res = Ok tt -> w_trace w' = rev (map f l) ++ w_trace w).
Proof.
  induction l as [|x l IH]; intros w w' res Hl.
  - cbn in Hl. injection Hl as <- <-. split; reflexivity.
  - cbn [forEach] in Hl. unfold bind in Hl.
    destruct (call_cases (f x) w) as [E | [err E]]; rewrite E in Hl.
    + apply IH in Hl. destruct Hl as [Hb Ht]. split; [exact Hb|].
      intros Hr. rewrite (Ht Hr). cbn [map rev]. rewrite <- app_assoc. reflexivity.
    + injection Hl as <- <-. split; [reflexivity | discriminate].
Qed.

(** The fields that the smart defaults add: the first two of the row
    candidates and the first three of the value candidates. *)
Definition defaultRows (vals : grid) (headerRow : list scalar) : list nat :=
  take 2 (fst (potentialFields vals headerRow)).
Definition defaultValues (vals : grid) (headerRow : list scalar) : list nat :=
  take 3 (snd (potentialFields vals headerRow)).

Ltac leaf12 Hlens :=
  cbn [fst snd]; split; [reflexivity|]; split; [intros; eexists; reflexivity|];
  intros headerRow Hh; destruct (Hlens headerRow) as (L1 & L2 & L3);
  split; [exact L1|]; split; [exact L2|]; split; [exact L3|]; intros b; try discriminate.

(** X14: the fields that the smart defaults add.  Without specified fields
    the construction of the pivot table changes no sheet, cell or
    selection, and throws on an empty grid.  When it returns, it returns
    [true] and its calls are, in order: [pivotTables.add], a [sync], the
    row hierarchies of the first two row candidates, the data hierarchies,
    summed, of the first three value candidates, and a [sync].  No value
    field is added when the grid has its header row only. *)
Theorem pivotConstruction_defaults (sourceRange : range) (vals : grid)
  (pivotSheet : string) (pivotDestination : range) (w : world) :
  let outcome :=
    pivotConstruction sourceRange vals pivotSheet pivotDestination None None None w in
  w_book (snd outcome) = w_book w
  /\ (vals = [] -> exists e, fst outcome = Throw e)
  /\ forall headerRow,
       vals !! 0%nat = Some headerRow ->
       (length (defaultRows vals headerRow) <= 2)%nat
       /\ (length (defaultValues vals headerRow) <= 3)%nat
       /\ ((length vals <= 1)%nat -> defaultValues vals headerRow = [])
       /\ (forall b, fst outcome = Ok b ->
             b = true
             /\ w_trace (snd outcome)
                = [ESync]
                  ++ rev (map EDataHierarchiesAddSum (defaultValues vals headerRow))
                  ++ rev (map ERowHierarchiesAdd (defaultRows vals headerRow))
                  ++ [ESync;
                      EPivotTablesAdd pivotSheet "MyPivotTable" sourceRange pivotDestination]
                  ++ w_trace w).
Proof.
  cbv zeta. unfold pivotConstruction, defaultRows, defaultValues. unfold_exec.
  assert (Hlens : forall headerRow,
             (length (take 2 (fst (potentialFields vals headerRow))) <= 2)%nat
             /\ (length (take 3 (snd (potentialFields vals headerRow))) <= 3)%nat
             /\ ((length vals <= 1)%nat -> take 3 (snd (potentialFields vals headerRow)) = [])).
  { intros hr. rewrite !length_take. split; [lia|]. split; [lia|].
    intros Hle. rewrite (potentialFields_header_only vals hr Hle). reflexivity. }
  step_goal; [|leaf12 Hlens].
  step_goal; [|leaf12 Hlens].
  destruct (vals !! 0%nat) as [hr|] eqn:Eh.
  2: { cbn [fst snd]. split; [reflexivity|]. split; [intros; eexists; reflexivity|].
       discriminate. }
  assert (Hne : vals = [] -> False) by (intros ->; discriminate).
  destruct (potentialFields vals hr) as [rowFs valueFs] eqn:Ep. cbn [fst snd] in *.
  set (w2 := logged ESync (logged (EPivotTablesAdd _ _ _ _) w)).
  destruct (forEach (take 2 rowFs) (fun i => call (ERowHierarchiesAdd i)) w2)
    as [r1 w3] eqn:E1.
  destruct (forEach_calls ERowHierarchiesAdd _ _ _ _ E1) as [B1 T1].
  assert (Hgen : forall (res : result bool) (w' : world),
             w_book w' = w_book w ->
             (forall b, res = Ok b ->
                        b = true
                        /\ w_trace w'
                           = [ESync] ++ rev (map EDataHierarchiesAddSum (take 3 valueFs))
                             ++ rev (map ERowHierarchiesAdd (take 2 rowFs))
                             ++ [ESync; EPivotTablesAdd pivotSheet "MyPivotTable"
                                          sourceRange pivotDestination] ++ w_trace w) ->
             w_book w' = w_book w
             /\ (vals = [] -> exists e, res = Throw e)
             /\ forall headerRow,
                  Some hr = Some headerRow ->
                  (length (take 2 (fst (potentialFields vals headerRow))) <= 2)%nat
                  /\ (length (take 3 (snd (potentialFields vals headerRow))) <= 3)%nat
                  /\ ((length vals <= 1)%nat ->
                      take 3 (snd (potentialFields vals headerRow)) = [])
                  /\ (forall b, res = Ok b ->
                        b = true
                        /\ w_trace w'
                           = [ESync]
                             ++ rev (map EDataHierarchiesAddSum
                                         (take 3 (snd (potentialFields vals headerRow))))
                             ++ rev (map ERowHierarchiesAdd
                                         (take 2 (fst (potentialFields vals headerRow))))
                             ++ [ESync; EPivotTablesAdd pivotSheet "MyPivotTable"
                                          sourceRange pivotDestination] ++ w_trace w)).
  { intros res w' Hb Ht. split; [exact Hb|]. split; [intros Hv; destruct (Hne Hv)|].
    intros headerRow [= <-]. destruct (Hlens hr) as (L1 & L2 & L3).
    split; [exact L1|]. split; [exact L2|]. split; [exact L3|].
    rewrite Ep. cbn [fst snd]. exact Ht. }
  destruct r1 as [[]|e1].
  2: { cbn [fst snd]. apply Hgen; [exact B1 | discriminate]. }
  destruct (forEach (take 3 valueFs) (fun i => call (EDataHierarchiesAddSum i)) w3)
    as [r2 w4] eqn:E2.
  destruct (forEach_calls EDataHierarchiesAddSum _ _ _ _ E2) as [B2 T2].
  destruct r2 as [[]|e2].
  2: { cbn [fst snd]. apply Hgen; [rewrite B2; exact B1 | discriminate]. }
  step_goal.
  - cbn [fst snd]. apply Hgen; [rewrite w_book_logged, B2; exact B1|].
    intros b [= <-]. split; [reflexivity|].
    rewrite w_trace_logged, (T2 eq_refl), (T1 eq_refl). reflexivity.
  - cbn [fst snd]. apply Hgen; [rewrite w_book_logged, B2; exact B1 | discriminate].
Qed.

End PivotFields.

(** ** Formulas at an address, and the sheet names *)

Section Insertion.
Import Js Num Port ExcelService.

(** The range that [insertFormula] resolves: the address on the active
    sheet when one is given and not empty, the selection otherwise. *)
Definition formulaTarget (targetAddress : option string) (w : world) : option range :=
  match truthyStr targetAddress with
  | Some a =>
      match Address.parse a with
      | Some (r, c, rows, cols) => Some (Range (active (w_book w)) r c rows cols)
      | None => None
      end
  | None => selectedRangeOf w
  end.

Ltac leafG :=
  cbn [fst snd];
  split;
  [ intros Hsel; first [discriminate | split; [reflexivity | frame]]
  | intros sel Hsel;
    first [ discriminate
          | try (injection Hsel as <-);
            cbn [rg_sheet rg_row rg_col]; split; [frame | try discriminate] ] ].

(** X15: where [insertFormula] writes.  It never throws.  The range is
    that of the target address on the active sheet, or the selection when
    the address is missing or empty; with neither it returns [false] and
    no cell changes.  Only the top-left cell of the range can change; on
    success that cell holds the formula as given, and the calls end with
    the assignment and the [sync]. *)
Theorem insertFormula_target (formula : string) (targetAddress : option string) (w : world) :
  let outcome := insertFormula formula targetAddress w in
  (exists b, fst outcome = Ok b)
  /\ (targetAddress = Some "" -> formulaTarget targetAddress w = selectedRangeOf w)
  /\ (formulaTarget targetAddress w = None ->
      fst outcome = Ok false /\ unchanged w (snd outcome))
  /\ (forall rg,
        formulaTarget targetAddress w = Some rg ->
        unchangedBut (rg_sheet rg) (rg_row rg) (rg_col rg) w (snd outcome)
        /\ (fst outcome = Ok true ->
            c_formula <$> cellAt (snd outcome) (rg_sheet rg) (rg_row rg) (rg_col rg)
            = Some (Some formula)
            /\ exists before,
                 w_trace (snd outcome)
                 = [ESync; ESetFormulas rg formula] ++ before ++ [ERun] ++ w_trace w)).
Proof.
  cbv zeta.
  split.
  { unfold insertFormula, tryCatch.
    match goal with |- context [match ?b w with _ => _ end] => destruct (b w) as [[b0|e] w'] end;
      eexists; reflexivity. }
  split; [intros ->; reflexivity|].
  unfold insertFormula, formulaTarget, getActiveWorksheet, getRange, getSelectedRange,
    setFormulas, selectedRangeOf.
  unfold_exec.
  step_goal; [|destruct (truthyStr targetAddress) as [a|];
               [destruct (Address.parse a) as [[[[r0 c0] rows] cols]|]|
                destruct (selection (w_book w)) as [[[[r0 c0] rows] cols]|]]; leafG].
  destruct (truthyStr targetAddress) as [a|].
  - step_goal; [|destruct (Address.parse a) as [[[[r0 c0] rows] cols]|]; leafG].
    step_goal; [|destruct (Address.parse a) as [[[[r0 c0] rows] cols]|]; leafG].
    autorewrite with world.
    destruct (Address.parse a) as [[[[r0 c0] rows] cols]|]; [|leafG].
    step_goal; [|leafG].
    step_fits; [|leafG].
    cbn [rg_sheet rg_row rg_col].
    step_sheet; [|leafG].
    step_goal; [|leafG].
    leafG. intros _. split.
    + rewrite cellAt_logged, cellAt_edited, String.eqb_refl, Hsh.
      unfold putFormula. rewrite lookup_insert_eq. reflexivity.
    + eexists [_; _]. reflexivity.
  - step_goal; [|destruct (selection (w_book w)) as [[[[r0 c0] rows] cols]|]; leafG].
    autorewrite with world.
    destruct (selection (w_book w)) as [[[[r0 c0] rows] cols]|]; [|leafG].
    step_goal; [|leafG].
    step_fits; [|leafG].
    cbn [rg_sheet rg_row rg_col].
    step_sheet; [|leafG].
    step_goal; [|leafG].
    leafG. intros _. split.
    + rewrite cellAt_logged, cellAt_edited, String.eqb_refl, Hsh.
      unfold putFormula. rewrite lookup_insert_eq. reflexivity.
    + eexists [_]. reflexivity.
Qed.

(** X16: the names that [listAllWorksheets] returns.  It changes neither
    the workbook nor the chat state.  The result is the list of the sheet
    names in workbook order, or the empty list when a call fails; it is
    the list of names when no call fails; and every name returned is that
    of a sheet of the workbook. *)
Theorem listAllWorksheets_names (w : world) :
  let outcome := listAllWorksheets w in
  let names := sheetNames (sheets (w_book w)) in
  w_book (snd outcome) = w_book w
  /\ w_ui (snd outcome) = w_ui w
  /\ (fst outcome = Ok names \/ fst outcome = Ok [])
  /\ (reliable w -> fst outcome = Ok names)
  /\ (forall l s, fst outcome = Ok l -> In s l ->
        is_Some (lookupSheet s (sheets (w_book w)))).
Proof.
  cbv zeta. unfold listAllWorksheets, worksheetNames, reliable. unfold_exec.
  assert (Hin : forall s, In s (sheetNames (sheets (w_book w))) ->
                          is_Some (lookupSheet s (sheets (w_book w)))).
  { intros s. unfold sheetNames, lookupSheet.
    induction (sheets (w_book w)) as [|[n sh] l IH].
    - intros [].
    - cbn [map fst In List.find]. intros [-> | Hs].
      + rewrite String.eqb_refl. eexists. reflexivity.
      + destruct (String.eqb n s); [eexists; reflexivity | exact (IH Hs)]. }
  step_goal.
  - step_goal.
    + cbn [fst snd]. split; [reflexivity|]. split; [reflexivity|].
      split; [left; reflexivity|]. split; [reflexivity|].
      intros l s [= <-]. apply Hin.
    + cbn [fst snd]. split; [reflexivity|]. split; [reflexivity|].
      split; [right; reflexivity|]. split.
      * intros Hr. unfold call in E0. cbn [w_env logged setTrace] in E0.
        rewrite Hr in E0. discriminate.
      * intros l s [= <-] [].
  - cbn [fst snd]. split; [reflexivity|]. split; [reflexivity|].
    split; [right; reflexivity|]. split.
    * intros Hr. unfold call in E. rewrite Hr in E. discriminate.
    * intros l s [= <-] [].
Qed.

End Insertion.

(** ** The completion request *)

Section Request.
Import Js Num Port ExcelService OpenAIService.
Context `{Engine}.

Lemma lastTen_length {A} (l : list A) : length (lastTen l) = Nat.min 10 (length l).
Proof. unfold lastTen. rewrite length_drop. lia. Qed.

Lemma lastTen_lookup {A} (l : list A) (i : nat) :
  lastTen l !! i = l !! (length l - 10 + i)%nat.
Proof. unfold lastTen. apply lookup_drop. Qed.

Lemma lastTen_short {A} (l : list A) : (length l <= 10)%nat -> lastTen l = l.
Proof.
  intros Hl. unfold lastTen. replace (length l - 10)%nat with 0%nat by lia. reflexivity.
Qed.

Lemma startsWithL_app (p t : list ascii) : startsWithL p (p ++ t) = true.
Proof.
  induction p as [|c p IH]; [reflexivity|].
  cbn [startsWithL app]. unfold charEqb. rewrite N.eqb_refl. exact IH.
Qed.

Lemma lookup_tail {A} (x : A) (l : list A) (i : nat) : (x :: l) !! S i = l !! i.
Proof. reflexivity. Qed.

(** X17: the completion request.  [getOpenAIResponse] changes neither the
    workbook nor the chat state.  With a key its only call is the post of
    the request, and when the call goes through and the response has a
    first choice, the content of that choice is returned.  The request
    authorizes with [Bearer] and the key; its messages are the system
    message, the last ten messages of the history in their order and with
    their roles, and the user message, which starts with the query and is
    the query when there is no snapshot. *)
Theorem getOpenAIResponse_request (history : list Message) (query : string)
  (sd : option ExcelData) (w : world) :
  let outcome := getOpenAIResponse history query sd w in
  let apiKey := getApiKey (conf (w_env w)) in
  let rq := completionRequest history query sd apiKey in
  w_book (snd outcome) = w_book w
  /\ w_ui (snd outcome) = w_ui w
  /\ (apiKey <> "" ->
      w_trace (snd outcome) = EPost API_URL rq :: w_trace w
      /\ (forall content rest,
            fails (w_env w) (EPost API_URL rq :: w_trace w) = None ->
            net (w_env w) rq = Resolved (Response (Some (Some content :: rest))) ->
            fst outcome = Ok content))
  /\ rq_authorization rq = ("Bearer " ++ apiKey)%string
  /\ length (rq_messages rq) = (2 + Nat.min 10 (length history))%nat
  /\ (exists content : string, rq_messages rq !! 0%nat = Some ("system", Text content))
  /\ (forall i,
        (i < Nat.min 10 (length history))%nat ->
        exists m,
          history !! (length history - 10 + i)%nat = Some m
          /\ rq_messages rq !! (S i) = Some (roleName (m_role m), m_content m))
  /\ (exists content : string,
        rq_messages rq !! (S (Nat.min 10 (length history))) = Some ("user", Text content)
        /\ startsWith content query = true
        /\ (sd = None -> content = query)).
Proof.
  cbv zeta.
  split; [|split; [|split]].
  - unfold getOpenAIResponse, post, firstContent, call. unfold_exec.
    destruct (String.length _ =? 0)%nat; [reflexivity|].
    destruct (fails _ _); [reflexivity|]. cbn [fst snd w_env setTrace].
    destruct (net _ _) as [r|e]; [|reflexivity].
    destruct (r_choices r) as [l|]; [|reflexivity].
    destruct (l !! 0%nat) as [[c|]|]; reflexivity.
  - unfold getOpenAIResponse, post, firstContent, call. unfold_exec.
    destruct (String.length _ =? 0)%nat; [reflexivity|].
    destruct (fails _ _); [reflexivity|]. cbn [fst snd w_env setTrace].
    destruct (net _ _) as [r|e]; [|reflexivity].
    destruct (r_choices r) as [l|]; [|reflexivity].
    destruct (l !! 0%nat) as [[c|]|]; reflexivity.
  - intros Hk.
    unfold getOpenAIResponse, post, firstContent, call. unfold_exec.
    destruct (String.length _ =? 0)%nat eqn:E.
    { apply length_zero_empty in E. contradiction. }
    split.
    + destruct (fails _ _); [reflexivity|]. cbn [fst snd w_env setTrace].
      destruct (net _ _) as [r|e]; [|reflexivity].
      destruct (r_choices r) as [l|]; [|reflexivity].
      destruct (l !! 0%nat) as [[c|]|]; reflexivity.
    + intros content rest Hf Hn. rewrite Hf. cbn [fst snd w_env setTrace].
      rewrite Hn. reflexivity.
  - unfold completionRequest. cbn [rq_authorization rq_messages].
    split; [reflexivity|].
    split. { rewrite !length_app, length_map, lastTen_length. cbn. lia. }
    split. { eexists. reflexivity. }
    split.
    + intros i Hi.
      destruct (lookup_lt_is_Some_2 (lastTen history) i) as [m Hm].
      { rewrite lastTen_length. exact Hi. }
      exists m. split; [rewrite <- lastTen_lookup; exact Hm|].
      cbn [app]. rewrite lookup_tail. rewrite lookup_app_l.
      2: { rewrite length_map, lastTen_length. exact Hi. }
      rewrite list_lookup_fmap, Hm. reflexivity.
    + eexists. split.
      { cbn [app]. rewrite lookup_tail. rewrite lookup_app_r.
        2: { rewrite length_map, lastTen_length. lia. }
        rewrite length_map, lastTen_length, Nat.sub_diag. reflexivity. }
      split.
      * destruct sd as [d|].
        -- unfold startsWith. rewrite chars_app. apply startsWithL_app.
        -- unfold startsWith. rewrite <- (app_nil_r (chars query)) at 2.
           apply startsWithL_app.
      * intros ->. reflexivity.
Qed.

End Request.

(** ** Matches *)

Section Matching.

Import Js Regex.

(** The loop of the star, as [rmatch] runs it. *)
Section Star.

Variable step : (mstate -> option mstate) -> mstate -> option mstate.
Variable g : bool.
Variable k : mstate -> option mstate.

Fixpoint starLoop (fuel : nat) (s : mstate) {struct fuel} : option mstate :=
  match fuel with
  | O => k s
  | S fuel' =>
      let again :=
        step (fun s' => if (ms_pos s <? ms_pos s')%nat
                        then starLoop fuel' s' else None) s in
      if g then
        match again with
        | Some x => Some x
        | None => k s
        end
      else
        match k s with
        | Some x => Some x
        | None => again
        end
  end.

End Star.

Lemma rmatch_star (g : bool) (a : regex) (k : mstate -> option mstate) (s : mstate) :
  rmatch (RStar g a) k s = starLoop (rmatch a) g k (S (length (ms_rest s))) s.
Proof. reflexivity. Qed.

(** A continuation that never moves back. *)
Definition forward (k : mstate -> option mstate) : Prop :=
  forall s1 s2, k s1 = Some s2 -> (ms_pos s1 <= ms_pos s2)%nat.

Lemma forward_Some : forward Some.
Proof. intros s1 s2 [= ->]. reflexivity. Qed.

Lemma starLoop_forward (step : (mstate -> option mstate) -> mstate -> option mstate)
  (g : bool) (k : mstate -> option mstate) :
  (forall k', forward k' -> forward (step k')) ->
  forward k -> forall fuel, forward (starLoop step g k fuel).
Proof.
  intros Hstep Hk fuel. induction fuel as [|fuel IH]; [exact Hk|].
  intros s s'. cbn [starLoop].
  assert (Hagain : forward (step (fun s1 => if (ms_pos s <? ms_pos s1)%nat
                                            then starLoop step g k fuel s1 else None))).
  { apply Hstep. intros s1 s2. destruct (ms_pos s <? ms_pos s1)%nat; [apply IH | discriminate]. }
  destruct g.
  - destruct (step _ s) as [x|] eqn:Ex.
    + intros [= <-]. exact (Hagain s x Ex).
    + apply Hk.
  - destruct (k s) as [x|] eqn:Ek.
    + intros [= <-]. exact (Hk s x Ek).
    + apply Hagain.
Qed.

Lemma rmatch_forward (r : regex) :
  forall k, forward k -> forward (rmatch r k).
Proof.
  induction r as [|p|a IHa b IHb|a IHa b IHb|g a IHa| |n a IHa]; intros k Hk s s'.
  - apply Hk.
  - cbn [rmatch]. destruct (ms_rest s) as [|c t]; [discriminate|].
    destruct (p c); [|discriminate]. intros Hm. apply Hk in Hm. cbn in Hm. lia.
  - cbn [rmatch]. apply IHa. apply IHb. exact Hk.
  - cbn [rmatch]. destruct (rmatch a k s) as [x|] eqn:Ea.
    + intros [= <-]. exact (IHa k Hk s x Ea).
    + apply IHb. exact Hk.
  - rewrite rmatch_star. apply starLoop_forward; assumption.
  - cbn [rmatch]. destruct (xorb (wordBefore s) (wordAfter s)); [apply Hk | discriminate].
  - cbn [rmatch]. apply IHa. intros s1 s2 Hm. apply Hk in Hm. cbn in Hm. exact Hm.
Qed.

(** A pattern that begins with one character of a class. *)
Lemma rmatch_first_char (p : ascii -> bool) (r : regex) (s s' : mstate) :
  rmatch (RSeq (RChar p) r) Some s = Some s' ->
  exists c t, ms_rest s = c :: t /\ p c = true /\ (ms_pos s < ms_pos s')%nat.
Proof.
  cbn [rmatch]. destruct (ms_rest s) as [|c t]; [discriminate|].
  destruct (p c) eqn:Hp; [|discriminate]. intros Hm.
  exists c, t. split; [reflexivity|]. split; [exact Hp|].
  apply (rmatch_forward r Some forward_Some) in Hm. cbn in Hm. lia.
Qed.

(** The leftmost match starts at a position of the input, and the
    pattern matches there. *)
Lemma search_found (r : regex) (rest : list ascii) :
  forall prev pos start s',
    search r prev rest pos = Some (start, s') ->
    exists k prev',
      start = (pos + k)%nat /\ (k <= length rest)%nat
      /\ rmatch r Some (MState prev' (drop k rest) start []) = Some s'.
Proof.
  induction rest as [|c t IH]; intros prev pos start s'; cbn [search].
  - destruct (rmatch r Some _) as [x|] eqn:Em; [|discriminate].
    intros [= <- <-]. exists 0%nat, prev. rewrite Nat.add_0_r. cbn. auto.
  - destruct (rmatch r Some _) as [x|] eqn:Em.
    + intros [= <- <-]. exists 0%nat, prev. rewrite Nat.add_0_r.
      split; [reflexivity|]. split; [cbn; lia | exact Em].
    + intros Hs. apply IH in Hs. destruct Hs as (k & prev' & -> & Hk & Hm).
      exists (S k), prev'. split; [lia|]. split; [cbn; lia|].
      replace (pos + S k)%nat with (S pos + k)%nat by lia. exact Hm.
Qed.

(** The text of a match of a pattern that begins with the character
    [x] begins with [x]. *)
Lemma exec_first_char (x : ascii) (r : regex) (input : string) (f : found) :
  exec (RSeq (RChar (fun c => charEqb c x)) r) input = Some f ->
  exists rest, chars (f_text f) = x :: rest.
Proof.
  unfold exec.
  destruct (search _ None (chars input) 0) as [[start s']|] eqn:Es; [|discriminate].
  intros [= <-]. cbn [f_text].
  apply search_found in Es. destruct Es as (k & prev' & -> & Hk & Hm).
  apply rmatch_first_char in Hm. cbn [ms_rest ms_pos] in Hm.
  destruct Hm as (c & t & Hd & Hc & Hlt). cbn [Nat.add] in *. rewrite Hd.
  destruct (ms_pos s' - k)%nat as [|n] eqn:En; [lia|].
  cbn [take]. rewrite chars_str.
  unfold charEqb in Hc. apply N.eqb_eq in Hc. unfold code in Hc.
  assert (c = x) as ->.
  { rewrite <- (ascii_N_embedding c), <- (ascii_N_embedding x), Hc. reflexivity. }
  eexists. reflexivity.
Qed.

End Matching.

(** ** Rule 5 *)

Section FormulaRule.
Import Js Num Regex Port ExcelService App.

(** A match of a pattern that begins with the character [x] needs an
    [x] in the input. *)
Lemma exec_first_char_In (x : ascii) (r : regex) (input : string) (f : found) :
  exec (RSeq (RChar (fun c => charEqb c x)) r) input = Some f ->
  In x (chars input).
Proof.
  unfold exec.
  destruct (search _ None (chars input) 0) as [[start s']|] eqn:Es; [|discriminate].
  intros _.
  apply search_found in Es. destruct Es as (k & prev' & -> & Hk & Hm).
  apply rmatch_first_char in Hm. cbn [ms_rest ms_pos] in Hm.
  destruct Hm as (c & t & Hd & Hc & Hlt).
  unfold charEqb in Hc. apply N.eqb_eq in Hc. unfold code in Hc.
  assert (c = x) as ->.
  { rewrite <- (ascii_N_embedding c), <- (ascii_N_embedding x), Hc. reflexivity. }
  rewrite <- (take_drop k (chars input)). apply in_or_app. right.
  rewrite Hd. left. reflexivity.
Qed.

(** [formulaMatch] of rule 5. *)
Definition formulaMatch (input : string) : option found :=
  match exec formulaCallPattern input with
  | Some m => Some m
  | None => exec formulaExprPattern input
  end.

Lemma formulaMatch_equals (input : string) (m : found) :
  formulaMatch input = Some m ->
  startsWith (f_text m) "=" = true /\ In "="%char (chars input).
Proof.
  unfold formulaMatch. intros Hm.
  assert (Hx : exists r, exec (RSeq (RChar (fun c => charEqb c "="%char)) r) input = Some m).
  { destruct (exec formulaCallPattern input) as [m'|] eqn:E1.
    - injection Hm as <-. eexists. exact E1.
    - eexists. exact Hm. }
  destruct Hx as [r Hx]. split.
  - destruct (exec_first_char _ _ _ _ Hx) as [rest Hr].
    unfold startsWith. rewrite Hr. reflexivity.
  - exact (exec_first_char_In _ _ _ _ Hx).
Qed.

(** X18: rule 5 applies the formula that it finds.  The rule never throws,
    and without an equals sign in the input it returns [false] and leaves
    the world as it is.  When it succeeds the formula is the text of the
    match of the formula patterns; it starts with [=], so it is assigned
    to the selection as it stands, and the reply, the only message added,
    quotes it. *)
Theorem formulaRule_applies_match (input : string) (w : world) :
  let outcome := formulaRule input w in
  (exists b, fst outcome = Ok b)
  /\ (~ In "="%char (chars input) -> outcome = (Ok false, w))
  /\ (fst outcome = Ok true ->
      exists m sel,
        formulaMatch input = Some m
        /\ selectedRangeOf w = Some sel
        /\ startsWith (f_text m) "=" = true
        /\ w_trace (snd outcome)
           = [ESync; ESetFormulas sel (f_text m); EGetSelectedRange; ERun] ++ w_trace w
        /\ messages (w_ui (snd outcome))
           = messages (w_ui w)
             ++ [Msg Assistant ("I've applied the formula " ++ f_text m
                                ++ " to your selected cells.")]).
Proof.
  cbv zeta. split.
  { unfold formulaRule, tryCatch.
    match goal with |- context [match ?b w with _ => _ end] => destruct (b w) as [[b0|e] w'] end;
      eexists; reflexivity. }
  unfold formulaRule. fold (formulaMatch input).
  destruct (formulaMatch input) as [m|] eqn:Em.
  2: { split; [reflexivity | discriminate]. }
  destruct (formulaMatch_equals _ _ Em) as [Hs Hin].
  split; [intros Hn; destruct (Hn Hin)|].
  unfold applyFormulaToSelection, getSelectedRange, setFormulas, selectedRangeOf,
    say, appendMessage.
  rewrite Hs. cbn [negb].
  unfold_exec.
  step_goal; [|discriminate].
  step_goal; [|discriminate].
  autorewrite with world.
  destruct (selection (w_book w)) as [[[[r0 c0] rows] cols]|]; [|discriminate].
  step_goal; [|discriminate].
  step_fits; [|discriminate].
  cbn [rg_sheet rg_row rg_col].
  step_sheet; [|discriminate].
  step_goal; [|discriminate].
  cbn [fst snd]. intros _. eexists m, _. split; [reflexivity|]. split; [reflexivity|].
  split; [exact Hs|]. split; reflexivity.
Qed.

End FormulaRule.

(** ** Rule 4 and the chart types *)

Section ChartTypes.
Import Js Num Port ExcelService App.

Lemma lowerChar_idempotent (c : ascii) : lowerChar (lowerChar c) = lowerChar c.
Proof.
  unfold lowerChar. destruct (isUpper c) eqn:Hu; [|rewrite Hu; reflexivity].
  unfold isUpper in *. apply andb_true_iff in Hu. destruct Hu as [H1 H2].
  apply N.leb_le in H1, H2.
  assert (Hc : code (ascii_of_N (code c + 32)) = (code c + 32)%N).
  { unfold code. apply N_ascii_embedding. unfold code in *. lia. }
  rewrite Hc.
  replace ((65 <=? code c + 32)%N && (code c + 32 <=? 90)%N) with false; [reflexivity|].
  symmetry. apply andb_false_iff. right. apply N.leb_gt. lia.
Qed.

Lemma toLowerCase_idempotent (s : string) : toLowerCase (toLowerCase s) = toLowerCase s.
Proof.
  unfold toLowerCase, toLowerCaseL. rewrite chars_str, map_map. f_equal.
  apply map_ext. intros c. apply lowerChar_idempotent.
Qed.

Lemma startsWithL_prefix (p q s : list ascii) :
  startsWithL (p ++ q) s = true -> startsWithL p s = true.
Proof.
  revert s. induction p as [|a p IH]; intros s; [reflexivity|].
  destruct s as [|b s]; cbn [startsWithL app]; [discriminate|].
  intros Hs. apply andb_true_iff in Hs. destruct Hs as [-> Hs]. exact (IH s Hs).
Qed.

Lemma includesL_prefix (p q s : list ascii) :
  includesL s (p ++ q) = true -> includesL s p = true.
Proof.
  induction s as [|b s IH].
  - cbn [includesL]. rewrite !orb_false_r. apply startsWithL_prefix.
  - cbn [includesL]. intros Hs. apply orb_true_iff in Hs. apply orb_true_iff.
    destruct Hs as [Hs | Hs]; [left; exact (startsWithL_prefix _ _ _ Hs) | right; exact (IH Hs)].
Qed.

(** The types that the add-in names. *)
Definition named (chartType : ChartType) : Prop :=
  match chartType with
  | otherChartType _ => False
  | _ => True
  end.

Lemma getChartTypeFromInput_named (input : string) :
  exists chartType, named chartType /\ getChartTypeFromInput input = chartType.
Proof.
  unfold getChartTypeFromInput.
  repeat match goal with
         | |- context [if ?b then _ else _] => destruct b
         end; eexists; (split; [|reflexivity]); exact I.
Qed.

(** X19: the chart type of an input.  [getChartTypeFromInput] does not
    depend on the case of the input and gives one of the five types that
    the add-in names, never another member of the enumeration.  Among
    these five the name tells the type: two inputs whose types have the
    same name have the same type; every other member of the enumeration
    is named [column] as well, so in general the name does not tell the
    type.  The type is the bar chart exactly when the input, in lower
    case, contains [bar chart] or [bar graph]; the scatter chart exactly
    when it contains none of the phrases of the bar, line and pie charts
    and contains [scatter], of which [scatter plot] is a special case;
    and the column chart exactly when it contains none of the phrases. *)
Theorem getChartTypeFromInput_phrases (input : string) :
  let has := includes (toLowerCase input) in
  getChartTypeFromInput (toLowerCase input) = getChartTypeFromInput input
  /\ (forall name, getChartTypeFromInput input <> otherChartType name)
  /\ (forall input',
        getChartTypeName (getChartTypeFromInput input)
        = getChartTypeName (getChartTypeFromInput input') ->
        getChartTypeFromInput input = getChartTypeFromInput input')
  /\ (forall name,
        getChartTypeName (otherChartType name) = getChartTypeName columnClustered
        /\ otherChartType name <> columnClustered)
  /\ (getChartTypeFromInput input = barClustered <->
      has "bar chart" || has "bar graph" = true)
  /\ (getChartTypeFromInput input = xyscatter <->
      has "bar chart" || has "bar graph" || has "line chart" || has "line graph"
      || has "pie chart" = false /\ has "scatter" = true)
  /\ (has "scatter plot" = true -> has "scatter" = true)
  /\ (getChartTypeFromInput input = columnClustered <->
      has "bar chart" || has "bar graph" || has "line chart" || has "line graph"
      || has "pie chart" || has "scatter" = false).
Proof.
  cbv zeta.
  assert (Hsc : includes (toLowerCase input) "scatter plot" = true ->
                includes (toLowerCase input) "scatter" = true).
  { unfold includes. apply (includesL_prefix (chars "scatter") (chars " plot")). }
  split; [unfold getChartTypeFromInput; rewrite toLowerCase_idempotent; reflexivity|].
  split; [intros name; destruct (getChartTypeFromInput_named input) as [k [Hk ->]];
          intros ->; exact Hk|].
  split.
  { intros input'.
    destruct (getChartTypeFromInput_named input) as [k [Hk ->]].
    destruct (getChartTypeFromInput_named input') as [k' [Hk' ->]].
    destruct k, k'; intros E;
      first [reflexivity | discriminate E | exact (False_ind _ Hk) | exact (False_ind _ Hk')]. }
  split; [intros name; split; [reflexivity | discriminate]|].
  unfold getChartTypeFromInput.
  destruct (includes (toLowerCase input) "bar chart");
    destruct (includes (toLowerCase input) "bar graph");
    destruct (includes (toLowerCase input) "line chart");
    destruct (includes (toLowerCase input) "line graph");
    destruct (includes (toLowerCase input) "pie chart");
    destruct (includes (toLowerCase input) "scatter");
    destruct (includes (toLowerCase input) "scatter plot");
    cbn [orb andb];
    try (specialize (Hsc eq_refl); discriminate);
    (split; [split; intros; first [reflexivity | discriminate]|]);
    (split; [split; [intros; first [discriminate | split; reflexivity]
                    | intros [? ?]; first [discriminate | reflexivity]]|]);
    (split; [intros; first [reflexivity | discriminate]|]);
    split; intros; first [reflexivity | discriminate].
Qed.

Ltac leafH :=
  cbn [fst snd]; split; [eexists; reflexivity|]; split; [reflexivity|];
  split; [discriminate|]; split; [reflexivity | try discriminate].

(** X20: rule 4 reports the chart that it creates.  The rule never throws
    and changes no sheet, cell or selection; without a snapshot it does
    nothing, and when it returns [false] the chat state is as it was.
    When it succeeds, one chart of the type of the input was added over
    the range of the snapshot, with the title [Chart from selected data]
    and the position from A15 to H30, and the reply, the only message
    added, names that type. *)
Theorem chartRule_reports (input : string) (sd : option ExcelData) (w : world) :
  let outcome := chartRule input sd w in
  let chartType := getChartTypeFromInput input in
  (exists b, fst outcome = Ok b)
  /\ w_book (snd outcome) = w_book w
  /\ (sd = None -> outcome = (Ok false, w))
  /\ (fst outcome = Ok false -> w_ui (snd outcome) = w_ui w)
  /\ (fst outcome = Ok true ->
      exists d r c rows cols,
        sd = Some d
        /\ Address.parse (ed_range d) = Some (r, c, rows, cols)
        /\ w_trace (snd outcome)
           = [ESync; ESetChartPosition "A15" "H30"; ESetChartTitle "Chart from selected data";
              EChartsAdd chartType (Range (active (w_book w)) r c rows cols);
              EGetRange (active (w_book w)) (ed_range d); EGetActiveWorksheet; ERun]
             ++ w_trace w
        /\ messages (w_ui (snd outcome))
           = messages (w_ui w)
             ++ [Msg Assistant ("I've created a " ++ getChartTypeName chartType
                                ++ " chart using your selected data.")]).
Proof.
  cbv zeta. unfold chartRule, rangeOf.
  destruct sd as [d|].
  2: { cbn. split; [eexists; reflexivity|]. split; [reflexivity|]. split; [reflexivity|].
       split; [reflexivity | discriminate]. }
  unfold createChart, getActiveWorksheet, getRange, say, appendMessage.
  cbn [truthyStr String.length Nat.eqb]. unfold_exec.
  step_goal; [|leafH].
  step_goal; [|leafH].
  autorewrite with world.
  step_goal; [|leafH].
  destruct (Address.parse (ed_range d)) as [[[[r c] rows] cols]|] eqn:Ep; [|leafH].
  step_goal; [|leafH].
  step_goal; [|leafH]. step_goal; [|leafH]. step_goal; [|leafH].
  cbn [fst snd]. split; [eexists; reflexivity|]. split; [reflexivity|].
  split; [discriminate|]. split; [discriminate|].
  intros _. exists d, r, c, rows, cols. split; [reflexivity|]. split; [exact Ep|].
  split; reflexivity.
Qed.

End ChartTypes.

(** ** Relations that every step of a computation keeps *)

Definition isPost (e : event) : bool :=
  match e with
  | EPost _ _ => true
  | _ => false
  end.

Create HintDb keeps.

Section Keeps.

Import Js Num Port ExcelService OpenAIService App.

Context (R : world -> world -> Prop).
Hypothesis R_refl : forall w, R w w.
Hypothesis R_trans : forall w1 w2 w3, R w1 w2 -> R w2 w3 -> R w1 w3.

(** The world after [m] is related to the world before it, whatever the
    outcome. *)
Definition keeps {A} (m : M A) : Prop := forall w, R w (snd (m w)).

Lemma keeps_ret {A} (a : A) : keeps (ret a).
Proof. intros w. apply R_refl. Qed.

Lemma keeps_throw {A} (e : error) : keeps (@throw A e).
Proof. intros w. apply R_refl. Qed.

Lemma keeps_gets {A} (f : world -> A) : keeps (gets f).
Proof. intros w. apply R_refl. Qed.

Lemma keeps_lift {A} (r : result A) : keeps (lift r).
Proof. destruct r; [apply keeps_ret | apply keeps_throw]. Qed.

Lemma keeps_bind {A B} (m : M A) (k : A -> M B) :
  keeps m -> (forall a, keeps (k a)) -> keeps (bind m k).
Proof.
  intros Hm Hk w. unfold bind. specialize (Hm w).
  destruct (m w) as [[a|e] w1]; cbn [snd] in *.
  - exact (R_trans _ _ _ Hm (Hk a w1)).
  - exact Hm.
Qed.

Lemma keeps_tryCatch {A} (m : M A) (h : error -> M A) :
  keeps m -> (forall e, keeps (h e)) -> keeps (tryCatch m h).
Proof.
  intros Hm Hh w. unfold tryCatch. specialize (Hm w).
  destruct (m w) as [[a|e] w1]; cbn [snd] in *.
  - exact Hm.
  - exact (R_trans _ _ _ Hm (Hh e w1)).
Qed.

Lemma keeps_tryFinally {A} (m : M A) (f : M unit) :
  keeps m -> keeps f -> keeps (tryFinally m f).
Proof.
  intros Hm Hf w. unfold tryFinally. specialize (Hm w).
  destruct (m w) as [[a|e] w1]; cbn [snd] in *; specialize (Hf w1);
    destruct (f w1) as [[u|e'] w2]; cbn [snd] in *; exact (R_trans _ _ _ Hm Hf).
Qed.

Lemma keeps_when (c : bool) (m : M unit) : keeps m -> keeps (when c m).
Proof. intros Hm. destruct c; [exact Hm | apply keeps_ret]. Qed.

Lemma keeps_forEach {A} (l : list A) (f : A -> M unit) :
  (forall x, keeps (f x)) -> keeps (forEach l f).
Proof.
  intros Hf. induction l as [|x l IH]; [apply keeps_ret|].
  cbn [forEach]. apply keeps_bind; [apply Hf | intros _; exact IH].
Qed.

Lemma keeps_foldM {A B} (f : B -> A -> M B) (l : list A) (b : B) :
  (forall b x, keeps (f b x)) -> keeps (foldM f l b).
Proof.
  intros Hf. revert b. induction l as [|x l IH]; intros b; [apply keeps_ret|].
  cbn [foldM]. apply keeps_bind; [apply Hf | intros b'; apply IH].
Qed.

Ltac keeps_step :=
  match goal with
  | |- forall _, _ => intro
  | |- keeps (bind _ _) => apply keeps_bind
  | |- keeps (tryCatch _ _) => apply keeps_tryCatch
  | |- keeps (tryFinally _ _) => apply keeps_tryFinally
  | |- keeps (ret _) => apply keeps_ret
  | |- keeps (throw _) => apply keeps_throw
  | |- keeps (gets _) => apply keeps_gets
  | |- keeps (when _ _) => apply keeps_when
  | |- keeps (forEach _ _) => apply keeps_forEach
  | |- keeps (foldM _ _ _) => apply keeps_foldM
  | |- keeps (lift _) => apply keeps_lift
  | |- keeps (match ?x with _ => _ end) => destruct x
  | |- keeps _ => solve [auto with keeps]
  end.

Ltac keeps_all := repeat keeps_step.

Section Calls.

Hypothesis R_call : forall e w, isPost e = false -> R w (logged e w).

Lemma keeps_call (e : event) : isPost e = false -> keeps (call e).
Proof.
  intros He w. destruct (call_cases e w) as [E | [err E]]; rewrite E; apply R_call; exact He.
Qed.

Ltac keeps_call :=
  match goal with
  | |- keeps (call _) => apply keeps_call; reflexivity
  | |- keeps sync => apply keeps_call; reflexivity
  end.

Ltac keeps_calls := repeat first [keeps_call | keeps_step].

Lemma keeps_run {A} (batch : M A) : keeps batch -> keeps (run batch).
Proof. intros Hb. unfold run. keeps_calls. Qed.

Lemma keeps_getSelectedRange : keeps getSelectedRange.
Proof. unfold getSelectedRange. keeps_calls. Qed.

Lemma keeps_getActiveWorksheet : keeps getActiveWorksheet.
Proof. unfold getActiveWorksheet. keeps_calls. Qed.

Lemma keeps_values (rg : range) : keeps (values rg).
Proof. unfold values. keeps_calls. Qed.

Lemma keeps_getRange (sh addr : string) : keeps (getRange sh addr).
Proof. unfold getRange. keeps_calls. Qed.

Lemma keeps_getCell (sh : string) (row col : nat) : keeps (getCell sh row col).
Proof. unfold getCell. keeps_calls. Qed.

Lemma keeps_getOffsetRange (rg : range) (dr dc : Z) : keeps (getOffsetRange rg dr dc).
Proof. unfold getOffsetRange. keeps_calls. Qed.

Lemma keeps_worksheetNames : keeps worksheetNames.
Proof. unfold worksheetNames. keeps_calls. Qed.

Lemma keeps_worksheetsGetItem (name : string) : keeps (worksheetsGetItem name).
Proof. unfold worksheetsGetItem, worksheetNames. keeps_calls. Qed.

#[local] Hint Resolve keeps_getSelectedRange keeps_getActiveWorksheet keeps_values
  keeps_getRange keeps_getCell keeps_getOffsetRange keeps_worksheetNames
  keeps_worksheetsGetItem : keeps.

Ltac keeps_port :=
  repeat first [keeps_call | apply keeps_run | keeps_step].

Lemma keeps_extractDataFromSelection : keeps extractDataFromSelection.
Proof. unfold extractDataFromSelection. keeps_port. Qed.

Lemma keeps_listAllWorksheets : keeps listAllWorksheets.
Proof. unfold listAllWorksheets. keeps_port. Qed.

Lemma keeps_createChart (chartType : ChartType) (dataRange : string) (title : option string) :
  keeps (createChart chartType dataRange title).
Proof. unfold createChart. keeps_port. Qed.

Section Books.

Hypothesis R_book : forall b w, R w (setBook b w).

Lemma keeps_onSheet (name : string) (f : sheet -> sheet) : keeps (onSheet name f).
Proof.
  intros w. unfold onSheet. destruct (lookupSheet name (sheets (w_book w))); cbn [snd].
  - apply R_book.
  - apply R_refl.
Qed.

Lemma keeps_addSheet (atFront : bool) (name : string) : keeps (addSheet atFront name).
Proof.
  intros w. unfold addSheet. destruct (includesName _ name); cbn [snd].
  - apply R_refl.
  - apply R_book.
Qed.

Lemma keeps_setBook (b : workbook) : keeps (modify (setBook b)).
Proof. intros w. apply R_book. Qed.

#[local] Hint Resolve keeps_onSheet keeps_addSheet keeps_setBook : keeps.

Lemma keeps_setValues (rg : range) (g : grid) : keeps (setValues rg g).
Proof. unfold setValues. keeps_port. Qed.

Lemma keeps_setNumberFormat (rg : range) (fmt : string) : keeps (setNumberFormat rg fmt).
Proof. unfold setNumberFormat. keeps_port. Qed.

Lemma keeps_setFormulas (rg : range) (f : string) : keeps (setFormulas rg f).
Proof. unfold setFormulas. keeps_port. Qed.

Lemma keeps_worksheetsAdd (name : option string) : keeps (worksheetsAdd name).
Proof. unfold worksheetsAdd. keeps_port. Qed.

Lemma keeps_worksheetsAddAt (name where_ : string) (pos : nat) :
  keeps (worksheetsAddAt name where_ pos).
Proof. unfold worksheetsAddAt. keeps_port. Qed.

Lemma keeps_activate (name : string) : keeps (activate name).
Proof. unfold activate. keeps_port. Qed.

Lemma keeps_setSheetName (old new : string) : keeps (setSheetName old new).
Proof. unfold setSheetName. keeps_port. Qed.

#[local] Hint Resolve keeps_setValues keeps_setNumberFormat keeps_setFormulas
  keeps_worksheetsAdd keeps_worksheetsAddAt keeps_activate keeps_setSheetName : keeps.

Lemma keeps_calculateAndInsertSum (targetCell : option string) :
  keeps (calculateAndInsertSum targetCell).
Proof. unfold calculateAndInsertSum. keeps_port. Qed.

Lemma keeps_applyFormulaToSelection (formula : string) :
  keeps (applyFormulaToSelection formula).
Proof. unfold applyFormulaToSelection. keeps_port. Qed.

Lemma keeps_insertFormula (formula : string) (targetAddress : option string) :
  keeps (insertFormula formula targetAddress).
Proof. unfold insertFormula. keeps_port. Qed.

Lemma keeps_writeValueToCell `{Engine} (value : scalar) (targetCell : string) :
  keeps (writeValueToCell value targetCell).
Proof. unfold writeValueToCell. keeps_port. Qed.

Lemma keeps_sumSpecificColumns `{Engine} (columnNames : list scalar) :
  keeps (sumSpecificColumns columnNames).
Proof. unfold sumSpecificColumns, sumOneColumn. keeps_port. Qed.

Lemma keeps_sumIntoNextRow : keeps sumIntoNextRow.
Proof. unfold sumIntoNextRow, writeColumnSum. keeps_port. Qed.

Lemma keeps_testExcelConnection `{Locale} : keeps testExcelConnection.
Proof. unfold testExcelConnection. keeps_port. Qed.

Lemma keeps_createWorksheet (name : string) : keeps (createWorksheet name).
Proof.
  unfold createWorksheet, reuseOrAdd, addUnique, addAtStart, activateAndSync. keeps_port.
Qed.

#[local] Hint Resolve keeps_createWorksheet : keeps.

Lemma keeps_createPivotTable `{Engine} (dataRange destinationSheet : string)
  (rowFields columnFields valueFields : option (list string)) :
  keeps (createPivotTable dataRange destinationSheet rowFields columnFields valueFields).
Proof.
  unfold createPivotTable, pivotPrepare, pivotConstruction, fallbackTable, addFields.
  keeps_port.
Qed.

Lemma keeps_createSimplePivotTable (dataRange : string) :
  keeps (createSimplePivotTable dataRange).
Proof. unfold createSimplePivotTable. keeps_port. Qed.

Lemma keeps_createSamplePivotTable `{Engine} (dataRange : string) :
  keeps (createSamplePivotTable dataRange).
Proof.
  unfold createSamplePivotTable. pose proof keeps_createPivotTable.
  pose proof keeps_createSimplePivotTable. keeps_port.
Qed.

#[local] Hint Resolve keeps_calculateAndInsertSum keeps_applyFormulaToSelection
  keeps_writeValueToCell keeps_sumSpecificColumns keeps_sumIntoNextRow
  keeps_createSamplePivotTable keeps_createChart : keeps.

Section Rules.

Hypothesis R_say : forall content, keeps (say content).

#[local] Hint Resolve R_say : keeps.

Lemma keeps_sumRule : keeps sumRule.
Proof. unfold sumRule. keeps_port. Qed.

Lemma keeps_columnSumRule `{Engine} (input : string) (selectedData : option ExcelData) :
  keeps (columnSumRule input selectedData).
Proof. unfold columnSumRule. keeps_port. Qed.

Lemma keeps_pivotRule `{Engine} (selectedData : option ExcelData) :
  keeps (pivotRule selectedData).
Proof. unfold pivotRule, rangeOf. keeps_port. Qed.

Lemma keeps_chartRule (input : string) (selectedData : option ExcelData) :
  keeps (chartRule input selectedData).
Proof. unfold chartRule, rangeOf. keeps_port. Qed.

Lemma keeps_formulaRule (input : string) : keeps (formulaRule input).
Proof. unfold formulaRule. keeps_port. Qed.

Lemma keeps_amountCostRule `{Engine} (selectedData : option ExcelData) :
  keeps (amountCostRule selectedData).
Proof. unfold amountCostRule. keeps_port. Qed.

Lemma keeps_nextRowRule : keeps nextRowRule.
Proof. unfold nextRowRule. keeps_port. Qed.

#[local] Hint Resolve keeps_sumRule keeps_columnSumRule keeps_pivotRule keeps_chartRule
  keeps_formulaRule keeps_amountCostRule keeps_nextRowRule : keeps.

Lemma keeps_firstChain `{Engine} (input : string) (selectedData : option ExcelData) :
  keeps (firstChain input selectedData).
Proof. unfold firstChain. keeps_port. Qed.

Lemma keeps_secondChain `{Engine} (input : string) (selectedData : option ExcelData)
  (actionPerformed : bool) :
  keeps (secondChain input selectedData actionPerformed).
Proof. unfold secondChain. keeps_port. Qed.

End Rules.
End Books.

(** The completion service makes one call, the request. *)
Lemma keeps_getOpenAIResponse `{Engine} (messageHistory : list Message)
  (currentQuery : string) (selectedData : option ExcelData) :
  (forall url rq w, R w (logged (EPost url rq) w)) ->
  keeps (getOpenAIResponse messageHistory currentQuery selectedData).
Proof.
  intros R_post. unfold getOpenAIResponse, post, firstContent.
  assert (Hpost : forall url rq, keeps (call (EPost url rq))).
  { intros url rq w. destruct (call_cases (EPost url rq) w) as [E | [err E]]; rewrite E;
      apply R_post. }
  keeps_port.
Qed.

End Calls.
End Keeps.

(** ** The phases of a turn *)

Section Turn.

Import Js Num Port ExcelService OpenAIService App.
Context `{Engine}.

(** *** The relations *)

Definition samePosts (w w' : world) : Prop := posts w' = posts w.
Definition sameEnv (w w' : world) : Prop := w_env w' = w_env w.
Definition sameUi (w w' : world) : Prop := w_ui w' = w_ui w.
Definition sameBook (w w' : world) : Prop := w_book w' = w_book w.

Definition fromAssistant (m : Message) : Prop := m_role m = Assistant.

(** The assistant may have spoken, and nothing else of the React state
    has changed. *)
Definition chat (w w' : world) : Prop :=
  exists more,
    messages (w_ui w') = messages (w_ui w) ++ more
    /\ Forall fromAssistant more
    /\ error_ (w_ui w') = error_ (w_ui w)
    /\ isLoading (w_ui w') = isLoading (w_ui w)
    /\ input_ (w_ui w') = input_ (w_ui w).

Lemma chat_refl (w : world) : chat w w.
Proof. exists []. rewrite app_nil_r. auto. Qed.

Lemma chat_trans (w1 w2 w3 : world) : chat w1 w2 -> chat w2 w3 -> chat w1 w3.
Proof.
  intros (m1 & E1 & F1 & e1 & l1 & i1) (m2 & E2 & F2 & e2 & l2 & i2).
  exists (m1 ++ m2). rewrite E2, E1, app_assoc.
  split; [reflexivity|]. split; [apply Forall_app; auto|].
  split; [congruence|]. split; congruence.
Qed.

Lemma chat_sameUi (w w' : world) : w_ui w' = w_ui w -> chat w w'.
Proof. intros E. exists []. rewrite E, app_nil_r. auto. Qed.

Lemma chat_say (content : Content) : keeps chat (say content).
Proof.
  intros w. exists [Msg Assistant content]. cbn. split; [reflexivity|].
  split; [repeat constructor|]. auto.
Qed.

Lemma samePosts_call (e : event) (w : world) : isPost e = false -> samePosts w (logged e w).
Proof.
  intros He. unfold samePosts, posts. cbn [logged setTrace w_trace List.filter].
  destruct e; try reflexivity. discriminate.
Qed.

(** *** Every part of a turn returns *)

Lemma extractDataFromSelection_total (w : world) :
  exists sd, fst (extractDataFromSelection w) = Ok sd.
Proof.
  unfold extractDataFromSelection, tryCatch.
  match goal with |- context [match ?b w with _ => _ end] => destruct (b w) as [[r|e] w'] end;
    eexists; reflexivity.
Qed.

Ltac total_tryCatch :=
  unfold tryCatch;
  match goal with
  | |- context [match ?b ?w with _ => _ end] => destruct (b w) as [[r|e] w'] end;
  eexists; reflexivity.

Lemma firstChain_total (input : string) (sd : option ExcelData) (w : world) :
  exists b, fst (firstChain input sd w) = Ok b.
Proof.
  unfold firstChain.
  destruct (sumCond input sd); [unfold sumRule; total_tryCatch|].
  destruct (columnSumCond input sd); [unfold columnSumRule; total_tryCatch|].
  destruct (pivotCond input sd); [unfold pivotRule; total_tryCatch|].
  destruct (chartCond input sd); [unfold chartRule; total_tryCatch|].
  destruct (formulaCond input sd); [unfold formulaRule; total_tryCatch|].
  eexists; reflexivity.
Qed.

Lemma secondChain_total (input : string) (sd : option ExcelData) (a : bool) (w : world) :
  exists b, fst (secondChain input sd a w) = Ok b.
Proof.
  unfold secondChain.
  destruct (amountCostCond input sd).
  - unfold bind, amountCostRule, tryCatch.
    match goal with
    | |- context [match ?b w with _ => _ end] => destruct (b w) as [[r|e] w'] end;
      eexists; reflexivity.
  - destruct (nextRowCond input); [|eexists; reflexivity].
    unfold bind, nextRowRule, tryCatch.
    match goal with
    | |- context [match ?b w with _ => _ end] => destruct (b w) as [[r|e] w'] end;
      eexists; reflexivity.
Qed.

(** The detection of the intent and the action, between the snapshot and
    the completion. *)
Definition classify (input : string) (sd : option ExcelData) : M bool :=
  bind (firstChain input sd) (secondChain input sd).

Lemma classify_total (input : string) (sd : option ExcelData) (w : world) :
  exists b, fst (classify input sd w) = Ok b.
Proof.
  unfold classify, bind.
  destruct (firstChain_total input sd w) as [a Ha].
  destruct (firstChain input sd w) as [r w1]. cbn [fst] in Ha. subst r.
  apply secondChain_total.
Qed.

(** The state when the request has been taken: the flag is up, the
    banner is cleared, the message of the user is appended and the input
    box is empty. *)
Definition taken (w : world) : world :=
  setUi (Ui (messages (w_ui w) ++ [Msg User (input_ (w_ui w))]) None true "") w.

(** The state at the end of a turn: the flag is down. *)
Definition settled (w : world) : world :=
  setUi (Ui (messages (w_ui w)) (error_ (w_ui w)) false (input_ (w_ui w))) w.

(** The reply of the completion service, appended. *)
Definition answered (history : list Message) (input : string) (sd : option ExcelData)
  (w : world) : world :=
  let outcome := getOpenAIResponse history input sd w in
  match fst outcome with
  | Ok response => snd (say response (snd outcome))
  | Throw _ => snd outcome
  end.

Definition blank (input : string) : bool := (String.length (trim input) =? 0)%nat.

(** What [handleSend] does once the request is taken. *)
Definition respond (history : list Message) (input : string) : M unit :=
  bind extractDataFromSelection (fun selectedData =>
  bind (firstChain input selectedData) (fun actionPerformed =>
  bind (secondChain input selectedData actionPerformed) (fun actionPerformed =>
  if negb actionPerformed then
    bind (getOpenAIResponse history input selectedData) (fun response => say response)
  else ret tt))).

Definition reportError (err : error) : M unit :=
  setError (Some ("Error: " ++ match truthyStr (e_message err) with
                               | Some m => m
                               | None => "Something went wrong"
                               end)%string).

Lemma handleSend_respond (w : world) :
  blank (input_ (w_ui w)) = false ->
  handleSend w
  = tryFinally (tryCatch (respond (messages (w_ui w)) (input_ (w_ui w))) reportError)
               (setIsLoading false) (taken w).
Proof.
  intros Hb. unfold blank in Hb. unfold handleSend.
  unfold bind at 1. unfold gets at 1. unfold bind at 1. unfold gets at 1.
  rewrite Hb. reflexivity.
Qed.

Lemma respond_phases (history : list Message) (input : string) (w1 : world) :
  exists sd w2 performed w3,
    extractDataFromSelection w1 = (Ok sd, w2)
    /\ classify input sd w2 = (Ok performed, w3)
    /\ respond history input w1
       = (Ok tt, if performed then w3 else answered history input sd w3).
Proof.
  destruct (extractDataFromSelection_total w1) as [sd Hsd].
  destruct (extractDataFromSelection w1) as [r w2] eqn:E2. cbn [fst] in Hsd. subst r.
  destruct (classify_total input sd w2) as [performed Hp].
  destruct (classify input sd w2) as [r w3] eqn:E3. cbn [fst] in Hp. subst r.
  exists sd, w2, performed, w3. split; [reflexivity|]. split; [exact E3|].
  unfold respond. unfold bind at 1. rewrite E2.
  unfold classify in E3. unfold bind in E3. unfold bind at 1.
  destruct (firstChain input sd w2) as [[a|e] w2'] eqn:E1; [|discriminate].
  unfold bind at 1. rewrite E3.
  destruct performed; cbn [negb]; [reflexivity|].
  unfold answered, bind.
  destruct (getOpenAIResponse_total history input sd w3) as [reply Hr].
  destruct (getOpenAIResponse history input sd w3) as [r w4].
  cbn [fst snd] in *. subst r. reflexivity.
Qed.

Lemma handleSend_phases (w : world) :
  let input := input_ (w_ui w) in
  blank input = false ->
  exists sd w2 performed w3,
    extractDataFromSelection (taken w) = (Ok sd, w2)
    /\ classify input sd w2 = (Ok performed, w3)
    /\ handleSend w
       = (Ok tt, settled (if performed then w3
                          else answered (messages (w_ui w)) input sd w3)).
Proof.
  intros input Hb. rewrite (handleSend_respond w Hb). fold input.
  destruct (respond_phases (messages (w_ui w)) input (taken w))
    as (sd & w2 & performed & w3 & E2 & E3 & Er).
  exists sd, w2, performed, w3. split; [exact E2|]. split; [exact E3|].
  unfold tryFinally, tryCatch. rewrite Er. reflexivity.
Qed.

End Turn.

(** ** The conversation *)

Section Protocol.

Import Js Num Port ExcelService OpenAIService App.
Context `{Engine}.

Lemma chat_call (e : event) (w : world) : chat w (logged e w).
Proof. apply chat_sameUi. reflexivity. Qed.

Lemma chat_book (b : workbook) (w : world) : chat w (setBook b w).
Proof. apply chat_sameUi. reflexivity. Qed.

Lemma chat_firstChain (input : string) (sd : option ExcelData) :
  keeps chat (firstChain input sd).
Proof.
  apply keeps_firstChain;
    [exact chat_refl | exact chat_trans | intros; apply chat_call | exact chat_book
    | exact chat_say].
Qed.

Lemma chat_secondChain (input : string) (sd : option ExcelData) (a : bool) :
  keeps chat (secondChain input sd a).
Proof.
  apply keeps_secondChain;
    [exact chat_refl | exact chat_trans | intros; apply chat_call | exact chat_book
    | exact chat_say].
Qed.

Lemma chat_getOpenAIResponse history input sd :
  keeps chat (getOpenAIResponse history input sd).
Proof.
  apply keeps_getOpenAIResponse;
    first [exact chat_refl | exact chat_trans | intros; apply chat_call].
Qed.

Lemma chat_extractDataFromSelection : keeps chat extractDataFromSelection.
Proof.
  apply keeps_extractDataFromSelection;
    [exact chat_refl | exact chat_trans | intros; apply chat_call].
Qed.

(** The assistant has spoken. *)
Definition spoke (w w' : world) : Prop :=
  (length (messages (w_ui w)) < length (messages (w_ui w')))%nat.

Lemma chat_length (w w' : world) :
  chat w w' -> (length (messages (w_ui w)) <= length (messages (w_ui w')))%nat.
Proof. intros (more & E & _). rewrite E, length_app. lia. Qed.

(** An action speaks when it reports that it was performed. *)
Definition speaksWhenDone (m : M bool) : Prop :=
  forall w, chat w (snd (m w)) /\ (fst (m w) = Ok true -> spoke w (snd (m w))).

Lemma swd_ret_false : speaksWhenDone (ret false).
Proof. intros w. split; [apply chat_refl | discriminate]. Qed.

Lemma swd_throw (e : error) : speaksWhenDone (throw e).
Proof. intros w. split; [apply chat_refl | discriminate]. Qed.

Lemma swd_say_true (content : Content) :
  speaksWhenDone (bind (say content) (fun _ => ret true)).
Proof.
  intros w. split; [apply (chat_say content w)|].
  intros _. unfold spoke. cbn. rewrite length_app. cbn. lia.
Qed.

Lemma swd_tryCatch (m : M bool) :
  speaksWhenDone m -> speaksWhenDone (tryCatch m (fun _ => ret false)).
Proof.
  intros Hm w. specialize (Hm w). unfold tryCatch.
  destruct (m w) as [[b|e] w1]; cbn [fst snd] in *.
  - exact Hm.
  - split; [tauto | discriminate].
Qed.

Lemma swd_bind {A} (m : M A) (k : A -> M bool) :
  keeps chat m -> (forall a, speaksWhenDone (k a)) -> speaksWhenDone (bind m k).
Proof.
  intros Hm Hk w. specialize (Hm w). unfold bind.
  destruct (m w) as [[a|e] w1]; cbn [fst snd] in *.
  - destruct (Hk a w1) as [Hc Hs]. split; [exact (chat_trans _ _ _ Hm Hc)|].
    intros Ht. specialize (Hs Ht). apply chat_length in Hm. unfold spoke in *. lia.
  - split; [exact Hm | discriminate].
Qed.

Ltac chat_service lemma :=
  apply lemma; [exact chat_refl | exact chat_trans | intros; apply chat_call | exact chat_book].

Ltac swd :=
  repeat first
    [ apply swd_tryCatch
    | apply swd_ret_false
    | apply swd_throw
    | apply swd_say_true
    | apply swd_bind; [| intros ?]
    | match goal with
      | |- speaksWhenDone (match ?x with _ => _ end) => destruct x
      end ].

Lemma swd_sumRule : speaksWhenDone sumRule.
Proof. unfold sumRule. swd. chat_service keeps_calculateAndInsertSum. Qed.

Lemma swd_columnSumRule (input : string) (sd : option ExcelData) :
  speaksWhenDone (columnSumRule input sd).
Proof.
  unfold columnSumRule. swd.
  - chat_service keeps_sumSpecificColumns.
  - chat_service keeps_calculateAndInsertSum.
Qed.

Lemma chat_rangeOf (sd : option ExcelData) : keeps chat (rangeOf sd).
Proof. intros w. destruct sd; apply chat_refl. Qed.

Lemma swd_pivotRule (sd : option ExcelData) : speaksWhenDone (pivotRule sd).
Proof.
  unfold pivotRule. swd.
  - apply chat_rangeOf.
  - chat_service keeps_createSamplePivotTable.
Qed.

Lemma swd_chartRule (input : string) (sd : option ExcelData) :
  speaksWhenDone (chartRule input sd).
Proof.
  unfold chartRule. swd.
  - apply chat_rangeOf.
  - apply keeps_createChart; [exact chat_refl | exact chat_trans | intros; apply chat_call].
Qed.

Lemma swd_formulaRule (input : string) : speaksWhenDone (formulaRule input).
Proof.
  unfold formulaRule. swd; chat_service keeps_applyFormulaToSelection.
Qed.

Lemma swd_amountCostRule (sd : option ExcelData) : speaksWhenDone (amountCostRule sd).
Proof.
  unfold amountCostRule. swd;
    try match goal with |- keeps _ (match ?x with _ => _ end) => destruct x end;
    first [chat_service keeps_writeValueToCell | apply keeps_ret; exact chat_refl].
Qed.

Lemma swd_nextRowRule : speaksWhenDone nextRowRule.
Proof.
  unfold nextRowRule. apply swd_tryCatch. apply swd_bind; [apply chat_say | intros _].
  apply swd_bind; [chat_service keeps_sumIntoNextRow | intros success].
  destruct success; [apply swd_say_true|].
  apply swd_bind; [apply chat_say | intros _; apply swd_ret_false].
Qed.

Lemma swd_firstChain (input : string) (sd : option ExcelData) :
  speaksWhenDone (firstChain input sd).
Proof.
  unfold firstChain.
  destruct (sumCond input sd); [apply swd_sumRule|].
  destruct (columnSumCond input sd); [apply swd_columnSumRule|].
  destruct (pivotCond input sd); [apply swd_pivotRule|].
  destruct (chartCond input sd); [apply swd_chartRule|].
  destruct (formulaCond input sd); [apply swd_formulaRule|].
  apply swd_ret_false.
Qed.

(** The detection speaks when an action was performed. *)
Lemma swd_classify (input : string) (sd : option ExcelData) :
  speaksWhenDone (classify input sd).
Proof.
  intros w. unfold classify, bind.
  destruct (swd_firstChain input sd w) as [Hc1 Hs1].
  destruct (firstChain input sd w) as [[a|e] w1]; cbn [fst snd] in *; [|split; [exact Hc1|discriminate]].
  pose proof (chat_secondChain input sd a w1) as Hc2.
  split; [exact (chat_trans _ _ _ Hc1 Hc2)|].
  intros Ht. pose proof (chat_length _ _ Hc1) as L1. pose proof (chat_length _ _ Hc2) as L2.
  unfold secondChain in *.
  destruct (amountCostCond input sd).
  - unfold bind in *. destruct (swd_amountCostRule sd w1) as [_ Hs].
    destruct (amountCostRule sd w1) as [[p|e] w2]; cbn [fst snd ret] in *; [|discriminate].
    injection Ht as Ht. destruct a; cbn [orb] in Ht.
    + specialize (Hs1 eq_refl). unfold spoke in *. lia.
    + subst p. specialize (Hs eq_refl). unfold spoke in *. lia.
  - destruct (nextRowCond input).
    + unfold bind in *. destruct (swd_nextRowRule w1) as [_ Hs].
      destruct (nextRowRule w1) as [[p|e] w2]; cbn [fst snd ret] in *; [|discriminate].
      injection Ht as Ht. destruct a; cbn [orb] in Ht.
      * specialize (Hs1 eq_refl). unfold spoke in *. lia.
      * subst p. specialize (Hs eq_refl). unfold spoke in *. lia.
    + cbn [fst snd ret] in *. injection Ht as ->. specialize (Hs1 eq_refl).
      unfold spoke in *. lia.
Qed.

Lemma handleSend_blank (w : world) :
  blank (input_ (w_ui w)) = true -> handleSend w = (Ok tt, w).
Proof.
  intros Hb. unfold blank in Hb. unfold handleSend.
  unfold bind at 1. unfold gets at 1. unfold bind at 1. unfold gets at 1.
  rewrite Hb. reflexivity.
Qed.

(** X21: a turn of the conversation.  [handleSend] never throws.  On an
    input that is blank once trimmed nothing changes.  Otherwise the
    messages are the former ones, the message of the user, and at least
    one reply, every reply from the assistant; the loading flag is down,
    the input box is empty and no error is set. *)
Theorem handleSend_protocol (w : world) :
  let input := input_ (w_ui w) in
  let w' := snd (handleSend w) in
  fst (handleSend w) = Ok tt
  /\ (blank input = true -> w' = w)
  /\ (blank input = false ->
      exists replies,
        messages (w_ui w') = messages (w_ui w) ++ Msg User input :: replies
        /\ replies <> []
        /\ Forall fromAssistant replies
        /\ isLoading (w_ui w') = false
        /\ input_ (w_ui w') = ""
        /\ error_ (w_ui w') = None).
Proof.
  cbv zeta. destruct (blank (input_ (w_ui w))) eqn:Hb.
  { rewrite (handleSend_blank w Hb). split; [reflexivity|]. split; [reflexivity | discriminate]. }
  destruct (handleSend_phases w Hb) as (sd & w2 & performed & w3 & E2 & E3 & Eh).
  rewrite Eh. cbn [fst snd]. split; [reflexivity|]. split; [discriminate|]. intros _.
  pose proof (chat_extractDataFromSelection (taken w)) as C2. rewrite E2 in C2. cbn [snd] in C2.
  destruct (swd_classify (input_ (w_ui w)) sd w2) as [C3 S3]. rewrite E3 in C3, S3.
  cbn [fst snd] in C3, S3.
  assert (Hfinal : exists w4, chat w2 w4 /\ spoke w2 w4
                              /\ (if performed then w3
                                  else answered (messages (w_ui w)) (input_ (w_ui w)) sd w3)
                                 = w4).
  { destruct performed.
    - exists w3. split; [exact C3|]. split; [exact (S3 eq_refl) | reflexivity].
    - eexists. split; [|split; [|reflexivity]].
      + unfold answered.
        pose proof (chat_getOpenAIResponse (messages (w_ui w)) (input_ (w_ui w)) sd w3) as C4.
        destruct (getOpenAIResponse _ _ sd w3) as [[reply|e] w4]; cbn [fst snd] in *.
        * exact (chat_trans _ _ _ C3 (chat_trans _ _ _ C4 (chat_say reply w4))).
        * exact (chat_trans _ _ _ C3 C4).
      + unfold answered.
        destruct (getOpenAIResponse_total (messages (w_ui w)) (input_ (w_ui w)) sd w3)
          as [reply Hr].
        pose proof (chat_getOpenAIResponse (messages (w_ui w)) (input_ (w_ui w)) sd w3) as C4.
        destruct (getOpenAIResponse _ _ sd w3) as [r w4]; cbn [fst snd] in *. subst r.
        apply chat_length in C3, C4. unfold spoke, say, appendMessage, modify.
        cbn [snd setUi w_ui messages]. rewrite length_app. cbn [length]. clear - C3 C4. lia. }
  destruct Hfinal as (w4 & C4 & S4 & ->).
  pose proof (chat_trans _ _ _ C2 C4) as (more & Em & Fm & Ee & El & Ei).
  exists more. cbn [settled setUi w_ui messages error_ isLoading input_].
  rewrite Em, Ee, Ei. cbn [taken setUi w_ui messages error_ isLoading input_].
  rewrite <- app_assoc. split; [reflexivity|]. split; [|auto].
  intros ->. rewrite app_nil_r in Em. apply chat_length in C2. unfold spoke in S4.
  rewrite Em in S4. lia.
Qed.

End Protocol.

(** ** The requests of a turn *)

Section CompletionOnce.

Import Js Num Port ExcelService OpenAIService App.
Context `{Engine}.

Lemma samePosts_refl (w : world) : samePosts w w.
Proof. reflexivity. Qed.

Lemma samePosts_trans (w1 w2 w3 : world) :
  samePosts w1 w2 -> samePosts w2 w3 -> samePosts w1 w3.
Proof. unfold samePosts. congruence. Qed.

Lemma samePosts_book (b : workbook) (w : world) : samePosts w (setBook b w).
Proof. reflexivity. Qed.

Lemma samePosts_say (content : Content) : keeps samePosts (say content).
Proof. intros w. reflexivity. Qed.

Lemma sameEnv_refl (w : world) : sameEnv w w.
Proof. reflexivity. Qed.

Lemma sameEnv_trans (w1 w2 w3 : world) : sameEnv w1 w2 -> sameEnv w2 w3 -> sameEnv w1 w3.
Proof. unfold sameEnv. congruence. Qed.

Lemma sameEnv_call (e : event) (w : world) : sameEnv w (logged e w).
Proof. reflexivity. Qed.

Lemma sameEnv_book (b : workbook) (w : world) : sameEnv w (setBook b w).
Proof. reflexivity. Qed.

Lemma sameEnv_say (content : Content) : keeps sameEnv (say content).
Proof. intros w. reflexivity. Qed.

Ltac posts_rel :=
  first [ exact samePosts_refl | exact samePosts_trans | exact samePosts_book
        | exact samePosts_say | intros; apply samePosts_call; assumption ].

Ltac env_rel :=
  first [ exact sameEnv_refl | exact sameEnv_trans | exact sameEnv_book
        | exact sameEnv_say | intros; apply sameEnv_call ].

(** The detection and the actions leave the completion service alone,
    and nothing changes the environment. *)
Lemma classify_posts (input : string) (sd : option ExcelData) (w : world) :
  posts (snd (classify input sd w)) = posts w
  /\ w_env (snd (classify input sd w)) = w_env w.
Proof.
  split.
  - assert (Hk : keeps samePosts (classify input sd)).
    { unfold classify. apply keeps_bind; [exact samePosts_trans| |intros a].
      - apply keeps_firstChain; posts_rel.
      - apply keeps_secondChain; posts_rel. }
    exact (Hk w).
  - assert (Hk : keeps sameEnv (classify input sd)).
    { unfold classify. apply keeps_bind; [exact sameEnv_trans| |intros a].
      - apply keeps_firstChain; env_rel.
      - apply keeps_secondChain; env_rel. }
    exact (Hk w).
Qed.

Lemma extractDataFromSelection_posts (w : world) :
  posts (snd (extractDataFromSelection w)) = posts w
  /\ w_env (snd (extractDataFromSelection w)) = w_env w.
Proof.
  split.
  - exact (keeps_extractDataFromSelection samePosts samePosts_refl samePosts_trans
             samePosts_call w).
  - exact (keeps_extractDataFromSelection sameEnv sameEnv_refl sameEnv_trans
             (fun e w _ => sameEnv_call e w) w).
Qed.

(** The requests of a turn that ends in the completion service. *)
Definition requested (history : list Message) (input : string) (sd : option ExcelData)
  (w : world) : list event :=
  let apiKey := getApiKey (conf (w_env w)) in
  if (String.length apiKey =? 0)%nat then []
  else [EPost API_URL (completionRequest history input sd apiKey)].

Lemma answered_posts (history : list Message) (input : string) (sd : option ExcelData)
  (w : world) :
  posts (answered history input sd w) = requested history input sd w ++ posts w.
Proof.
  unfold answered, requested, getOpenAIResponse, post, firstContent, tryCatch, bind, gets,
    ret, throw.
  destruct (String.length (getApiKey (conf (w_env w))) =? 0)%nat; [reflexivity|].
  destruct (call_cases (EPost API_URL (completionRequest history input sd
                                         (getApiKey (conf (w_env w))))) w)
    as [E | [err E]]; rewrite E; cbn [fst snd]; [|reflexivity].
  rewrite w_env_logged.
  destruct (net (w_env w) _) as [r|e]; cbn [fst snd]; [|reflexivity].
  destruct (r_choices r) as [l|]; [|reflexivity].
  destruct (l !! 0%nat) as [[content|]|]; reflexivity.
Qed.

(** X22: the completion service is asked only when no rule has acted.  A
    blank input posts nothing; taking the snapshot and running the rules
    post nothing; and after the turn the requests are the former ones and,
    when no action was performed, the request that [getOpenAIResponse]
    makes for the former messages, the input and the snapshot.  A turn
    posts at most one request. *)
Theorem completion_only_without_action (w : world) :
  let input := input_ (w_ui w) in
  let w' := snd (handleSend w) in
  (blank input = true -> posts w' = posts w)
  /\ (blank input = false ->
      exists sd w2 performed w3,
        extractDataFromSelection (taken w) = (Ok sd, w2)
        /\ classify input sd w2 = (Ok performed, w3)
        /\ posts w3 = posts w
        /\ posts w'
           = (if performed then [] else requested (messages (w_ui w)) input sd w)
             ++ posts w)
  /\ (length (posts w') <= S (length (posts w)))%nat.
Proof.
  cbv zeta. destruct (blank (input_ (w_ui w))) eqn:Hb.
  { rewrite (handleSend_blank w Hb). cbn [snd].
    split; [reflexivity|]. split; [discriminate | lia]. }
  destruct (handleSend_phases w Hb) as (sd & w2 & performed & w3 & E2 & E3 & Eh).
  rewrite Eh. cbn [snd].
  destruct (extractDataFromSelection_posts (taken w)) as [P2 V2]. rewrite E2 in P2, V2.
  destruct (classify_posts (input_ (w_ui w)) sd w2) as [P3 V3]. rewrite E3 in P3, V3.
  cbn [snd] in *.
  assert (Hp3 : posts w3 = posts w) by (rewrite P3, P2; reflexivity).
  assert (Hfinal :
            posts (settled (if performed then w3
                            else answered (messages (w_ui w)) (input_ (w_ui w)) sd w3))
            = (if performed then []
               else requested (messages (w_ui w)) (input_ (w_ui w)) sd w) ++ posts w).
  { change (posts (settled ?x)) with (posts x). destruct performed; [exact Hp3|].
    rewrite answered_posts, Hp3. unfold requested. rewrite V3, V2. reflexivity. }
  split; [discriminate|]. split.
  - intros _. exists sd, w2, performed, w3. auto.
  - rewrite Hfinal, length_app. destruct performed; [cbn; lia|].
    unfold requested. destruct (String.length _ =? 0)%nat; cbn; lia.
Qed.

End CompletionOnce.

(** ** A plain question *)

Section PlainQuestion.

Import Js Num Regex Port ExcelService OpenAIService App.
Context `{Engine}.

(** The text triggers none of the seven rules, whatever the snapshot. *)
Definition ruleFree (input : string) : bool :=
  negb (test sumPattern input)
  && negb (test columnSumPattern1 input || test columnSumPattern2 input)
  && negb (test pivotPattern input)
  && negb (test chartPattern input)
  && negb (test formulaPattern input)
  && negb (includes (toLowerCase input) "amount" && includes (toLowerCase input) "cost")
  && negb (nextRowCond input).

Lemma classify_ruleFree (input : string) (sd : option ExcelData) :
  ruleFree input = true -> classify input sd = ret false.
Proof.
  unfold ruleFree. intros Hf.
  repeat (apply andb_true_iff in Hf; destruct Hf as [Hf ?]).
  repeat match goal with Hn : negb _ = true |- _ => apply negb_true_iff in Hn end.
  unfold classify, firstChain, secondChain, sumCond, columnSumCond, pivotCond, chartCond,
    formulaCond, amountCostCond.
  repeat match goal with Hn : _ = false |- _ => rewrite Hn; clear Hn end.
  reflexivity.
Qed.

Lemma sameBook_refl (w : world) : sameBook w w.
Proof. reflexivity. Qed.

Lemma sameBook_trans (w1 w2 w3 : world) : sameBook w1 w2 -> sameBook w2 w3 -> sameBook w1 w3.
Proof. unfold sameBook. congruence. Qed.

Lemma sameBook_call (e : event) (w : world) : sameBook w (logged e w).
Proof. reflexivity. Qed.

Lemma sameUi_refl (w : world) : sameUi w w.
Proof. reflexivity. Qed.

Lemma sameUi_trans (w1 w2 w3 : world) : sameUi w1 w2 -> sameUi w2 w3 -> sameUi w1 w3.
Proof. unfold sameUi. congruence. Qed.

Lemma sameUi_call (e : event) (w : world) : sameUi w (logged e w).
Proof. reflexivity. Qed.

(** The reply that ends a turn without an action. *)
Definition replyOf (history : list Message) (input : string) (sd : option ExcelData)
  (w : world) : Content :=
  match fst (getOpenAIResponse history input sd w) with
  | Ok response => response
  | Throw _ => Text ""
  end.

(** X23: a plain question.  When the input is not blank and none of the
    rules matches it, the turn leaves the workbook as it is, the messages
    are the former ones, the message of the user and the reply of the
    completion service, and the request for that reply is the only one
    posted. *)
Theorem plain_question (w : world) :
  let input := input_ (w_ui w) in
  let w' := snd (handleSend w) in
  blank input = false -> ruleFree input = true ->
  w_book w' = w_book w
  /\ exists sd w2,
       extractDataFromSelection (taken w) = (Ok sd, w2)
       /\ messages (w_ui w')
          = messages (w_ui w)
            ++ [Msg User input; Msg Assistant (replyOf (messages (w_ui w)) input sd w2)]
       /\ posts w' = requested (messages (w_ui w)) input sd w ++ posts w.
Proof.
  cbv zeta. intros Hb Hf.
  destruct (handleSend_phases w Hb) as (sd & w2 & performed & w3 & E2 & E3 & Eh).
  rewrite (classify_ruleFree _ sd Hf) in E3. injection E3 as <- <-.
  rewrite Eh. cbn [snd].
  pose proof (keeps_extractDataFromSelection sameBook sameBook_refl sameBook_trans
                (fun e w _ => sameBook_call e w) (taken w)) as B2.
  pose proof (keeps_extractDataFromSelection sameUi sameUi_refl sameUi_trans
                (fun e w _ => sameUi_call e w) (taken w)) as U2.
  destruct (extractDataFromSelection_posts (taken w)) as [P2 V2].
  rewrite E2 in B2, U2, P2, V2. cbn [snd] in *. unfold sameBook in B2. unfold sameUi in U2.
  pose proof (keeps_getOpenAIResponse sameBook sameBook_refl sameBook_trans
                (messages (w_ui w)) (input_ (w_ui w)) sd
                (fun url rq w => sameBook_call _ w) w2) as B4.
  pose proof (keeps_getOpenAIResponse sameUi sameUi_refl sameUi_trans
                (messages (w_ui w)) (input_ (w_ui w)) sd
                (fun url rq w => sameUi_call _ w) w2) as U4.
  unfold sameBook in B4. unfold sameUi in U4.
  pose proof (answered_posts (messages (w_ui w)) (input_ (w_ui w)) sd w2) as P4.
  destruct (getOpenAIResponse_total (messages (w_ui w)) (input_ (w_ui w)) sd w2) as [reply Hr].
  unfold answered, replyOf in *.
  destruct (getOpenAIResponse (messages (w_ui w)) (input_ (w_ui w)) sd w2) as [r w4] eqn:E4.
  cbn [fst snd] in *. subst r.
  split; [cbn; rewrite B4, B2; reflexivity|].
  exists sd, w2. rewrite E4. cbn [fst]. split; [exact E2|]. split.
  - cbn. rewrite U4, U2. cbn. rewrite <- app_assoc. reflexivity.
  - change (posts (settled ?x)) with (posts x). rewrite P4, P2.
    unfold requested. rewrite V2. reflexivity.
Qed.

End PlainQuestion.

(** ** The properties at work *)

Section AtWork.
Import Js Num Regex Port ExcelService OpenAIService App AggregationSpec.
Local Open Scope float_scope.

Lemma never_reliable (g : grid) (r c : nat) (sel : option (nat * nat * nat * nat))
  (input : string) : reliable (sampleWorld never g r c sel input).
Proof. intros t. reflexivity. Qed.

(** The ledger selected at A1:C4. *)
Definition ledgerRange : range := Range "Sheet1" 0 0 4 3.

Lemma selectedValues_ledger (input : string) :
  selectedValues (sampleWorld never ledger 0 0 (Some (0, 0, 4, 3)%nat) input)
  = Some (ledgerRange, ledger).
Proof. vm_compute. reflexivity. Qed.

(** The snapshot of the ledger. *)
Lemma extractDataFromSelection_ledger :
  fst (extractDataFromSelection sumColumnWorld) = Ok (Some (snapshotOf ledgerRange ledger)).
Proof.
  destruct (extractDataFromSelection_snapshot sumColumnWorld) as (_ & _ & _ & Hsel & _).
  destruct (Hsel ledgerRange ledger (selectedValues_ledger _)) as [_ Hr].
  apply Hr. apply never_reliable.
Defined.

(** The ledger with the cell A5, below its first column, selected. *)
Definition belowLedger (input : string) : world :=
  sampleWorld never ledger 0 0 (Some (4, 0, 1, 1)%nat) input.

Definition cellA5 : range := Range "Sheet1" 4 0 1 1.

(** An empty target address: the formula goes to the selection. *)
Lemma insertFormula_empty_address :
  let outcome := insertFormula "=B2+B3" (Some "") (belowLedger "") in
  fst outcome = Ok true
  /\ c_formula <$> cellAt (snd outcome) "Sheet1" 4 0 = Some (Some "=B2+B3").
Proof.
  cbv zeta.
  destruct (insertFormula_target "=B2+B3" (Some "") (belowLedger "")) as (_ & _ & _ & Hrg).
  destruct (Hrg cellA5) as [_ Hok]; [vm_compute; reflexivity|].
  assert (Ht : fst (insertFormula "=B2+B3" (Some "") (belowLedger "")) = Ok true)
    by (vm_compute; reflexivity).
  split; [exact Ht | exact (proj1 (Hok Ht))].
Defined.

(** The smart defaults on the ledger: the dates and the notes are row
    fields, the amounts are the value field. *)
Lemma pivotConstruction_ledger :
  let outcome :=
    @pivotConstruction sampleEngine ledgerRange ledger "PivotTable"
                       (Range "PivotTable" 2 0 1 1) None None None sumColumnWorld in
  fst outcome = Ok true
  /\ w_trace (snd outcome)
     = [ESync; EDataHierarchiesAddSum 1; ERowHierarchiesAdd 2; ERowHierarchiesAdd 0; ESync;
        EPivotTablesAdd "PivotTable" "MyPivotTable" ledgerRange (Range "PivotTable" 2 0 1 1)].
Proof.
  cbv zeta.
  destruct (@pivotConstruction_defaults sampleEngine ledgerRange ledger "PivotTable"
              (Range "PivotTable" 2 0 1 1) sumColumnWorld) as (_ & _ & Hh).
  destruct (Hh [SStr "Date"; SStr "Amount"; SStr "Notes"] eq_refl) as (_ & _ & _ & Hok).
  assert (Ht : fst (@pivotConstruction sampleEngine ledgerRange ledger "PivotTable"
                      (Range "PivotTable" 2 0 1 1) None None None sumColumnWorld) = Ok true)
    by (vm_compute; reflexivity).
  split; [exact Ht | exact (proj2 (Hok true Ht))].
Defined.

(** The sum of the ledger, below its first column. *)
Lemma calculateAndInsertSum_ledger :
  fst (calculateAndInsertSum None sumColumnWorld) = Ok true
  /\ cellAt (snd (calculateAndInsertSum None sumColumnWorld)) "Sheet1" 4 0
     = Some (targetCell 60).
Proof.
  destruct (calculateAndInsertSum_spec sumColumnWorld) as (_ & _ & Hsel).
  destruct (Hsel ledgerRange ledger (selectedValues_ledger _)) as [_ Hok].
  assert (Ht : fst (calculateAndInsertSum None sumColumnWorld) = Ok true)
    by (vm_compute; reflexivity).
  split; [exact Ht | exact (Hok Ht)].
Defined.

(** A formula without its equals sign, applied to the cell A5. *)
Lemma applyFormulaToSelection_below :
  let outcome := applyFormulaToSelection "SUM(B2:B4)" (belowLedger "") in
  fst outcome = Ok true
  /\ c_formula <$> cellAt (snd outcome) "Sheet1" 4 0 = Some (Some "=SUM(B2:B4)").
Proof.
  cbv zeta.
  destruct (applyFormulaToSelection_equals "SUM(B2:B4)" (belowLedger ""))
    as (_ & _ & _ & _ & Hsel).
  destruct (Hsel cellA5) as [_ Hok]; [vm_compute; reflexivity|].
  assert (Ht : fst (applyFormulaToSelection "SUM(B2:B4)" (belowLedger "")) = Ok true)
    by (vm_compute; reflexivity).
  split; [exact Ht | exact (proj2 (Hok Ht))].
Defined.

(** The amounts of the ledger, summed below their column. *)
Lemma sumSpecificColumns_ledger :
  fst (@sumSpecificColumns sampleEngine [SStr "amount"] sumColumnWorld) = Ok true
  /\ cellAt (snd (@sumSpecificColumns sampleEngine [SStr "amount"] sumColumnWorld))
            "Sheet1" 4 1
     = Some (targetCell 60).
Proof.
  destruct (@sumSpecificColumns_writes sampleEngine [SStr "amount"] sumColumnWorld)
    as [_ Hsel].
  destruct (Hsel ledgerRange ledger [SStr "Date"; SStr "Amount"; SStr "Notes"]
                 (selectedValues_ledger _) eq_refl) as (_ & Hok & _).
  assert (Ht : fst (@sumSpecificColumns sampleEngine [SStr "amount"] sumColumnWorld) = Ok true)
    by (vm_compute; reflexivity).
  split; [exact Ht|].
  apply (Hok Ht 1%nat). exists (SStr "amount").
  split; [constructor | vm_compute; reflexivity].
Defined.

(** The overlay of rule 6: 60 written at B5. *)
Lemma amountCost_write_target_ledger :
  let outcome :=
    @writeValueToCell sampleEngine (SNum 60) (cellAddress 1 5) sumColumnWorld in
  fst outcome = Ok true
  /\ cellAt (snd outcome) "Sheet1" 4 1 = Some (targetCell 60).
Proof.
  cbv zeta.
  destruct (@amountCost_write_target sampleEngine 60 1 5 sumColumnWorld)
    as (_ & _ & Hcell); [lia | lia |].
  assert (Hok : fst (@writeValueToCell sampleEngine (SNum 60) (cellAddress 1 5) sumColumnWorld)
                = Ok true) by (vm_compute; reflexivity).
  split; [exact Hok | exact (Hcell Hok)].
Defined.

(** A locale for the worked examples. *)
Definition sampleLocale : Locale := {| toLocaleTimeString := fun _ => "10:15:00 AM" |}.

(** The connection test replaces the header in A1 of the ledger. *)
Lemma testExcelConnection_ledger :
  fst (@testExcelConnection sampleLocale sumColumnWorld) = Ok true
  /\ c_value <$> cellAt (snd (@testExcelConnection sampleLocale sumColumnWorld)) "Sheet1" 0 0
     = Some (SStr "Excel connection test: 10:15:00 AM").
Proof.
  destruct (@testExcelConnection_overwrites_A1 sampleLocale sumColumnWorld)
    as (_ & _ & Hcell & Hok).
  assert (Ht : fst (@testExcelConnection sampleLocale sumColumnWorld) = Ok true).
  { apply Hok; [apply never_reliable | eexists; vm_compute; reflexivity]. }
  split; [exact Ht | exact (Hcell Ht)].
Defined.

(** A new sheet, added after the sheet of the ledger. *)
Lemma createWorksheet_summary :
  fst (createWorksheet "Summary" sumColumnWorld) = Ok (Some "Summary")
  /\ sheetNames (sheetsOf (snd (createWorksheet "Summary" sumColumnWorld)))
     = ["Sheet1"; "Summary"].
Proof.
  destruct (createWorksheet_sheets "Summary" sumColumnWorld) as (_ & _ & _ & Hr).
  destruct (Hr (never_reliable _ _ _ _ _)) as [Hok Hs].
  split; [exact Hok|]. rewrite Hs. vm_compute. reflexivity.
Defined.


(** A service whose first choice carries [null] in place of a text. *)
Definition nullReplyWorld : world :=
  World (Env never (fun _ => Resolved (Response (Some [Some Null])))
             1700000000000%N (Config (Some "sk-test") None))
        (Workbook [("Sheet1", writeGrid 0 0 ledger ∅)] "Sheet1" None)
        (Ui [greeting] None false "hello there") [].

(** The [null] is returned as it is, and [handleSend] appends it as the
    content of the reply: what the completion service returns is not
    always a string. *)
Lemma completion_returns_null :
  fst (@getOpenAIResponse sampleEngine [greeting] "hello there" None nullReplyWorld)
  = Ok Null
  /\ (forall s : string,
        fst (@getOpenAIResponse sampleEngine [greeting] "hello there" None nullReplyWorld)
        <> Ok (Text s))
  /\ messages (w_ui (snd (@handleSend sampleEngine nullReplyWorld)))
     = [greeting; Msg User "hello there"; Msg Assistant Null].
Proof.
  assert (Hn : fst (@getOpenAIResponse sampleEngine [greeting] "hello there" None
                      nullReplyWorld) = Ok Null) by (vm_compute; reflexivity).
  split; [exact Hn|]. split; [rewrite Hn; discriminate|].
  vm_compute. reflexivity.
Qed.

(** The completion service at work with a call that throws: the reply
    is that of the [catch] block. *)
Lemma completion_fails_closed_forced :
  let w := sampleWorld (failWhen isPost) ledger 0 0 None "hello there" in
  fst (@getOpenAIResponse sampleEngine [greeting] "hello there" None w)
  = Ok (Text "Error: forced").
Proof.
  cbv zeta.
  set (w := sampleWorld (failWhen isPost) ledger 0 0 None "hello there").
  pose proof (@completion_fails_closed sampleEngine [greeting] "hello there" None w) as Hc.
  cbv zeta in Hc. destruct Hc as (_ & _ & _ & Hthrow & _ & _ & Hreply & _).
  assert (Hk : getApiKey (conf (w_env w)) <> "") by discriminate.
  assert (Hp : post API_URL
                    (@completionRequest sampleEngine [greeting] "hello there" None
                                        (getApiKey (conf (w_env w)))) w
               = (Throw (portError "forced"),
                  snd (post API_URL
                            (@completionRequest sampleEngine [greeting] "hello there" None
                                                (getApiKey (conf (w_env w)))) w)))
    by (vm_compute; reflexivity).
  rewrite (Hthrow _ _ Hk Hp). cbn [fst].
  rewrite (proj1 (proj2 (Hreply (portError "forced"))) "forced" eq_refl eq_refl).
  reflexivity.
Defined.

(** The reply of the sample service. *)
Lemma getOpenAIResponse_sure :
  fst (@getOpenAIResponse sampleEngine [greeting] "hello there" None sumColumnWorld)
  = Ok (Text "Sure.").
Proof.
  destruct (@getOpenAIResponse_request sampleEngine [greeting] "hello there" None
              sumColumnWorld) as (_ & _ & Hk & _).
  destruct Hk as [_ Hok]; [discriminate|].
  apply (Hok (Text "Sure.") []); reflexivity.
Defined.

Definition formulaWorld : world := belowLedger "apply the formula =SUM(B2:B4)".

(** Rule 5 on a formula in the text, with the cell A5 selected. *)
Lemma formulaRule_sum :
  fst (formulaRule "apply the formula =SUM(B2:B4)" formulaWorld) = Ok true
  /\ w_trace (snd (formulaRule "apply the formula =SUM(B2:B4)" formulaWorld))
     = [ESync; ESetFormulas cellA5 "=SUM(B2:B4)"; EGetSelectedRange; ERun].
Proof.
  destruct (formulaRule_applies_match "apply the formula =SUM(B2:B4)" formulaWorld)
    as (_ & _ & Hok).
  assert (Ht : fst (formulaRule "apply the formula =SUM(B2:B4)" formulaWorld) = Ok true)
    by (vm_compute; reflexivity).
  split; [exact Ht|].
  destruct (Hok Ht) as (m & sel & Hm & Hsel & _ & Htr & _).
  rewrite Htr.
  assert (Em : f_text <$> formulaMatch "apply the formula =SUM(B2:B4)" = Some "=SUM(B2:B4)")
    by (vm_compute; reflexivity).
  assert (Es : selectedRangeOf formulaWorld = Some cellA5) by (vm_compute; reflexivity).
  rewrite Hm in Em. rewrite Es in Hsel.
  injection Em as ->. injection Hsel as <-. reflexivity.
Defined.

(** Rule 4 on a request for a bar chart. *)
Lemma chartRule_bar :
  let outcome := chartRule "create a bar chart" (Some ledgerSnapshot) sumColumnWorld in
  fst outcome = Ok true
  /\ said "I've created a bar chart using your selected data." (snd outcome) = true.
Proof.
  cbv zeta.
  destruct (chartRule_reports "create a bar chart" (Some ledgerSnapshot) sumColumnWorld)
    as (_ & _ & _ & _ & Hok).
  assert (Ht : fst (chartRule "create a bar chart" (Some ledgerSnapshot) sumColumnWorld)
               = Ok true) by (vm_compute; reflexivity).
  split; [exact Ht|].
  destruct (Hok Ht) as (d & r & c & rows & cols & _ & _ & _ & Hm).
  unfold said. rewrite Hm. vm_compute. reflexivity.
Defined.

Definition helloWorld : world :=
  sampleWorld never ledger 0 0 (Some (0, 0, 4, 3)%nat) "hello there".

(** A turn on a greeting: the message of the user and one reply. *)
Lemma handleSend_hello :
  exists replies,
    messages (w_ui (snd (@handleSend sampleEngine helloWorld)))
    = [greeting; Msg User "hello there"] ++ replies
    /\ replies <> [].
Proof.
  destruct (@handleSend_protocol sampleEngine helloWorld) as (_ & _ & Hturn).
  destruct Hturn as (replies & Hm & Hne & _); [vm_compute; reflexivity|].
  exists replies. split; [exact Hm | exact Hne].
Defined.

(** A greeting leaves the workbook as it is. *)
Lemma plain_question_hello :
  w_book (snd (@handleSend sampleEngine helloWorld)) = w_book helloWorld.
Proof.
  refine (proj1 (@plain_question sampleEngine helloWorld _ _)); vm_compute; reflexivity.
Defined.

End AtWork.
